(** * airflow-etl: a shallow embedding of the DAG helper scripts

    The repository is a set of Airflow DAG scripts written in Python:

    - [dags/utils/file_ops.py]: path and folder helpers;
    - [dags/export_labeled_dataset_and_create_tf_record/...]: the label
      export fetcher (project lookup through the labeling API);
    - [dags/prepare_model_and_data_for_training/...]: model zoo
      synchronisation, dataset/model assembly, config generation;
    - [dags/train_models/train_models_dag.py]: the training job dispatcher.

    Python values are modelled as follows.  A [str] is a [string] (a
    sequence of bytes, UTF-8 for text outside ASCII).  An exception is a
    value of [exn]; a computation that touches the file system, the
    network or the log is a function of type [M A], from a [world] to a
    result ([Return] or [Raise]) and the world it leaves behind: the
    effects performed before an exception is raised stay visible, as in
    Python.  Library calls ([re.sub], [os.path], [glob], [shutil],
    [pandas], [requests]) are modelled by what their documentation says
    they do on the inputs the scripts give them. *)

From stdpp Require Import gmap strings list fin_maps pretty.
From Stdlib Require Import Ascii Lia.

Open Scope string_scope.
Open Scope list_scope.

(** ** Exceptions, results and the effect monad *)

Inductive exn : Type :=
| AttributeError (attr : string)
| IndexError (msg : string)
| KeyError (key : string)
| NameError (name : string)
| TypeError (msg : string)
| ValueError (msg : string)
| OSError (kind : string) (file : string)
| RequestException (msg : string)
| ReError (msg : string)
| ReadError (msg : string)
| ParserError (file : string).

(** [except IOError] catches [OSError] (of which [IOError] is an alias)
    and its subclasses; [requests.exceptions.RequestException] is one. *)
Definition is_IOError (e : exn) : bool :=
  match e with
  | OSError _ _ | RequestException _ => true
  | _ => false
  end.

(** [except requests.exceptions.RequestException]. *)
Definition is_RequestException (e : exn) : bool :=
  match e with
  | RequestException _ => true
  | _ => false
  end.

Inductive result (A : Type) : Type :=
| Return (a : A)
| Raise (e : exn).
Arguments Return {A} a.
Arguments Raise {A} e.

Definition result_bind {A B} (r : result A) (k : A → result B) : result B :=
  match r with
  | Return a => k a
  | Raise e => Raise e
  end.

(** [xs[i]] where no effect is involved. *)
Definition item {A} (xs : list A) (i : nat) : result A :=
  match xs !! i with
  | Some x => Return x
  | None => Raise (IndexError "list index out of range")
  end.

(** [[f(x) for x in xs]]: the first failure ends the comprehension. *)
Fixpoint result_map {A B} (f : A → result B) (xs : list A) : result (list B) :=
  match xs with
  | [] => Return []
  | x :: xs' =>
      result_bind (f x) (λ y,
      result_bind (result_map f xs') (λ ys, Return (y :: ys)))
  end.

(** ** Text: Python [str] operations on byte sequences *)

Module Text.

Definition chars : string → list ascii := String.list_ascii_of_string.
Definition text : list ascii → string := String.string_of_list_ascii.

Fixpoint prefixb (p s : list ascii) : bool :=
  match p, s with
  | [], _ => true
  | _ :: _, [] => false
  | a :: p', b :: s' => Ascii.eqb a b && prefixb p' s'
  end.

(** [t in s] on strings. *)
Fixpoint occursb (t s : list ascii) : bool :=
  prefixb t s ||
  match s with
  | [] => false
  | _ :: s' => occursb t s'
  end.

Definition occurs (t s : list ascii) : Prop :=
  ∃ p q, s = p ++ t ++ q.

Definition contains (needle hay : string) : bool :=
  occursb (chars needle) (chars hay).

(** The scan of [re.sub] and [str.replace] for a literal, non-empty
    pattern: matches are found left to right and do not overlap.  After
    a match the scan skips the rest of the matched text ([skip]
    characters) without looking at it. *)
Fixpoint scan (pat v : list ascii) (skip : nat) (s : list ascii) : list ascii :=
  match s with
  | [] => []
  | c :: s' =>
      match skip with
      | S k => scan pat v k s'
      | O =>
          if prefixb pat s
          then v ++ scan pat v (length pat - 1) s'
          else c :: scan pat v 0 s'
      end
  end.

(** An empty pattern matches before every character and at the end. *)
Definition replace_all (pat v s : list ascii) : list ascii :=
  match pat with
  | [] => v ++ flat_map (λ c, c :: v) s
  | _ :: _ => scan pat v 0 s
  end.

(** [s.replace(old, new)]. *)
Definition str_replace (s old new : string) : string :=
  text (replace_all (chars old) (chars new) (chars s)).

Definition code_in (lo hi : nat) (c : ascii) : bool :=
  Nat.leb lo (nat_of_ascii c) && Nat.leb (nat_of_ascii c) hi.

(** ASCII white space, as [str.isspace] sees it. *)
Definition is_space (c : ascii) : bool :=
  code_in 9 13 c || code_in 28 32 c.

Fixpoint lstrip (s : list ascii) : list ascii :=
  match s with
  | c :: s' => if is_space c then lstrip s' else s
  | [] => []
  end.

(** [s.strip()]. *)
Definition str_strip (s : string) : string :=
  text (rev (lstrip (rev (lstrip (chars s))))).

Definition is_digit : ascii → bool := code_in 48 57.
Definition is_octal : ascii → bool := code_in 48 55.
Definition is_upper : ascii → bool := code_in 65 90.
Definition is_lower : ascii → bool := code_in 97 122.

(** The part of [s] after its last [sep], or all of [s] when there is
    none: [s.split(sep)[-1]] and [os.path.basename]. *)
Fixpoint after_last (sep : ascii) (acc s : list ascii) : list ascii :=
  match s with
  | [] => rev acc
  | c :: s' => if Ascii.eqb c sep then after_last sep [] s'
               else after_last sep (c :: acc) s'
  end.

Definition last_field (sep : ascii) (s : string) : string :=
  text (after_last sep [] (chars s)).

(** The pieces of [s] between the occurrences of [sep]: [s.split(sep)]. *)
Fixpoint split_on (sep : ascii) (acc s : list ascii) : list (list ascii) :=
  match s with
  | [] => [rev acc]
  | c :: s' => if Ascii.eqb c sep then rev acc :: split_on sep [] s'
               else split_on sep (c :: acc) s'
  end.

(** [s.split(sep)] for a separator of one character. *)
Definition str_split (sep : ascii) (s : string) : list string :=
  text <$> split_on sep [] (chars s).

(** [re.search(r"\d{4}_\d{2}_\d{2}", s)]: the first place where four
    digits, an underscore, two digits, an underscore and two digits
    follow each other. *)
Definition date_here (s : list ascii) : option (list ascii) :=
  match s with
  | y1 :: y2 :: y3 :: y4 :: u1 :: m1 :: m2 :: u2 :: d1 :: d2 :: _ =>
      if forallb is_digit [y1; y2; y3; y4; m1; m2; d1; d2]
         && Ascii.eqb u1 "_" && Ascii.eqb u2 "_"
      then Some [y1; y2; y3; y4; u1; m1; m2; u2; d1; d2]
      else None
  | _ => None
  end.

Fixpoint search_date (s : list ascii) : option (list ascii) :=
  match date_here s with
  | Some d => Some d
  | None => match s with
            | [] => None
            | _ :: s' => search_date s'
            end
  end.

End Text.

(** ** [os.path] (POSIX) *)

Module os_path.

Definition basename (p : string) : string := Text.last_field "/" p.

Fixpoint dropwhile_slash (s : list ascii) : list ascii :=
  match s with
  | c :: s' => if Ascii.eqb c "/" then dropwhile_slash s' else s
  | [] => []
  end.

(** [os.path.join(a, b)]. *)
Definition join (a b : string) : string :=
  if Text.prefixb ["/"%char] (Text.chars b) then b
  else if String.eqb a "" then b
  else if Text.prefixb ["/"%char] (rev (Text.chars a)) then a +:+ b
  else a +:+ "/" +:+ b.

(** [os.path.join(a, *ps)]: the components are joined one after the
    other. *)
Definition join_all (a : string) (ps : list string) : string :=
  foldl join a ps.

(** [splitext] cuts at the last dot of the last path component, unless
    that component consists of dots up to there. *)
Fixpoint cut_ext (ext rs : list ascii) : option (list ascii * list ascii) :=
  match rs with
  | [] => None
  | c :: rs' =>
      if Ascii.eqb c "/" then None
      else if Ascii.eqb c "."
      then Some (rev rs', c :: ext)
      else cut_ext (c :: ext) rs'
  end.

Definition splitext_str (p : string) : string * string :=
  match cut_ext [] (rev (Text.chars p)) with
  | Some (root, ext) =>
      if forallb (λ c, Ascii.eqb c ".") (Text.after_last "/" [] root)
      then (p, "")
      else (Text.text root, Text.text ext)
  | None => (p, "")
  end.

(** The callable [os.path.splitext]: it takes exactly one positional
    argument. *)
Definition splitext (args : list string) : result (string * string) :=
  match args with
  | [p] => Return (splitext_str p)
  | _ =>
      Raise (TypeError
        ("splitext() takes 1 positional argument but "
           +:+ pretty (length args) +:+ " were given"))
  end.

(** [os.path.split(p)]: the head, without its trailing slashes unless
    it consists of slashes only, and the last component. *)
Definition split (p : string) : string * string :=
  let tail := Text.after_last "/" [] (Text.chars p) in
  let head := take (length (Text.chars p) - length tail) (Text.chars p) in
  let head' :=
    if forallb (λ c, Ascii.eqb c "/") head then head
    else rev (dropwhile_slash (rev head)) in
  (Text.text head', Text.text tail).

End os_path.

(** ** The world: file system, network, log *)

(** A row of the model catalog, as [pandas] holds it. *)
Record ModelEntry : Type := mkModelEntry {
  model_release_date : option string;
  model_folder_name : string;
  model_file_name : string;
  model_url : string;
  model_name : string
}.

(** What a file holds.  The encodings of CSV tables and of tar archives
    are not modelled: a file written by [DataFrame.to_csv] holds the
    table, a downloaded archive holds its members (relative path and
    data). *)
Inductive content : Type :=
| Bytes (data : string)
| Table (rows : list ModelEntry)
| Archive (members : list (string * string)).

Inductive node : Type :=
| Dir
| File (c : content).

Global Instance ModelEntry_eq_dec : EqDecision ModelEntry.
Proof. solve_decision. Defined.
Global Instance content_eq_dec : EqDecision content.
Proof. solve_decision. Defined.
Global Instance node_eq_dec : EqDecision node.
Proof. solve_decision. Defined.

(** An [<a>] node of the catalog page once [mistune] and [BeautifulSoup]
    have processed it: its attributes and its text. *)
Record link : Type := mkLink {
  attrs : list (string * string);
  link_text : string
}.

(** An HTTP response.  The page text is represented by the [<a>] nodes
    that [BeautifulSoup(mistune.markdown(text)).find_all("a")] finds in
    it, the body by the content it decodes to. *)
Record response : Type := mkResponse {
  status_code : nat;
  url : string;
  links : list link;
  raw : content
}.

(** [print] writes to [STDOUT]; the other levels are those of [logging]. *)
Inductive level : Type := STDOUT | INFO | WARNING | ERROR.

(** Paths are resolved to their components; the working directory is the
    root, and no component is special. *)
Record world : Type := mkWorld {
  fs : gmap (list string) node;
  http : string → result response;
  requested : list string;
  logged : list (level * string)
}.

Definition M (A : Type) : Type := world → result A * world.

Definition ret {A} (a : A) : M A := λ w, (Return a, w).
Definition raise {A} (e : exn) : M A := λ w, (Raise e, w).
Definition lift {A} (r : result A) : M A := λ w, (r, w).

Definition bind {A B} (c : M A) (k : A → M B) : M B :=
  λ w, match c w with
       | (Return a, w') => k a w'
       | (Raise e, w') => (Raise e, w')
       end.

Notation "'let*' x ':=' c 'in' k" := (bind c (λ x, k))
  (at level 10, x pattern, c at level 200, k at level 200).
Notation "c ';;' k" := (bind c (λ _, k))
  (at level 100, k at level 200, right associativity).

(** [try: c except <catches> as e: handler e]. *)
Definition try_except {A} (c : M A) (catches : exn → bool) (handler : exn → M A) : M A :=
  λ w, match c w with
       | (Raise e, w') => if catches e then handler e w' else (Raise e, w')
       | r => r
       end.

(** [for x in xs: body x]. *)
Fixpoint for_each {A} (xs : list A) (body : A → M unit) : M unit :=
  match xs with
  | [] => ret tt
  | x :: xs' => body x ;; for_each xs' body
  end.

(** [xs[i]]. *)
Definition index {A} (xs : list A) (i : nat) : M A :=
  match xs !! i with
  | Some x => ret x
  | None => raise (IndexError "list index out of range")
  end.

Definition set_fs (f : gmap (list string) node) (w : world) : world :=
  mkWorld f (http w) (requested w) (logged w).

Definition log (lvl : level) (msg : string) : M unit :=
  λ w, (Return tt, mkWorld (fs w) (http w) (requested w) (logged w ++ [(lvl, msg)])).

Definition print (msg : string) : M unit := log STDOUT msg.

(** [requests.get(url, ...)]: the answer is the network's; the request
    is recorded. *)
Definition requests_get (u : string) : M response :=
  λ w, (http w u, mkWorld (fs w) (http w) (requested w ++ [u]) (logged w)).

Module os.

Definition split_path (p : string) : list string :=
  List.filter (λ c, negb (String.eqb c ""))
    (Text.text <$> Text.split_on "/" [] (Text.chars p)).

Definition node_at (w : world) (p : string) : option node :=
  if String.eqb p "" then None
  else match split_path p with
       | [] => Some Dir
       | k => fs w !! k
       end.

(** [os.path.exists], [os.path.isfile], [os.path.isdir]. *)
Definition path_exists (p : string) : M bool :=
  λ w, (Return (bool_decide (is_Some (node_at w p))), w).

Definition path_isfile (p : string) : M bool :=
  λ w, (Return match node_at w p with Some (File _) => true | _ => false end, w).

Definition path_isdir (p : string) : M bool :=
  λ w, (Return match node_at w p with Some Dir => true | _ => false end, w).

(** The directory that has to hold a new entry [k]. *)
Definition parent_state (w : world) (k : list string) : option node :=
  match removelast k with
  | [] => Some Dir
  | d => fs w !! d
  end.

Definition parent_error (w : world) (p : string) (k : list string) : option exn :=
  match parent_state w k with
  | Some Dir => None
  | Some (File _) => Some (OSError "NotADirectoryError" p)
  | None => Some (OSError "FileNotFoundError" p)
  end.

(** [os.mkdir(p)]. *)
Definition mkdir (p : string) : M unit :=
  λ w, let k := split_path p in
       match node_at w p, parent_error w p k with
       | Some _, _ => (Raise (OSError "FileExistsError" p), w)
       | None, Some e => (Raise e, w)
       | None, None =>
           if String.eqb p "" then (Raise (OSError "FileNotFoundError" p), w)
           else (Return tt, set_fs (<[k := Dir]> (fs w)) w)
       end.

Definition prefixes (k : list string) : list (list string) :=
  (λ n, take n k) <$> seq 1 (length k).

(** [os.makedirs(p)]: the missing ancestors and the leaf are created;
    an ancestor that is a file, or a leaf that exists, is an error. *)
Definition makedirs (p : string) : M unit :=
  λ w, let k := split_path p in
       if existsb (λ d, match fs w !! d with Some (File _) => true | _ => false end)
            (prefixes (removelast k))
       then (Raise (OSError "NotADirectoryError" p), w)
       else match node_at w p with
            | Some _ => (Raise (OSError "FileExistsError" p), w)
            | None =>
                if String.eqb p "" then (Raise (OSError "FileNotFoundError" p), w)
                else (Return tt,
                      set_fs (foldl (λ m d, <[d := Dir]> m) (fs w) (prefixes k)) w)
            end.

(** [os.remove(p)]. *)
Definition remove (p : string) : M unit :=
  λ w, match node_at w p with
       | Some (File _) => (Return tt, set_fs (delete (split_path p) (fs w)) w)
       | Some Dir => (Raise (OSError "IsADirectoryError" p), w)
       | None => (Raise (OSError "FileNotFoundError" p), w)
       end.

(** [os.listdir(p)], in the order the file system gives. *)
Definition listdir (w : world) (p : string) : list string :=
  let k := split_path p in
  omap (λ e : list string * node,
          if bool_decide (removelast e.1 = k)
          then last e.1 else None)
       (map_to_list (fs w)).

(** [os.walk(top)], top down: the directory with the names of its
    subdirectories and of its other entries, then the same for each
    subdirectory in turn.  A [top] that cannot be listed gives nothing.
    Directories are nested no deeper than the file system has entries,
    which is where [fuel] starts. *)
Fixpoint walk_from (fuel : nat) (w : world) (top : string)
  : list (string * list string * list string) :=
  match fuel with
  | O => []
  | S fuel' =>
      match node_at w top with
      | Some Dir =>
          let names := listdir w top in
          let is_dir (n : string) : bool :=
            match node_at w (os_path.join top n) with
            | Some Dir => true
            | _ => false
            end in
          let dirs := List.filter is_dir names in
          let nondirs := List.filter (λ n, negb (is_dir n)) names in
          (top, dirs, nondirs)
            :: flat_map (λ d, walk_from fuel' w (os_path.join top d)) dirs
      | _ => []
      end
  end.

Definition walk (top : string) : M (list (string * list string * list string)) :=
  λ w, (Return (walk_from (S (size (fs w))) w top), w).

End os.

(** ** Files: [open], [read], [write] *)

Module io.

(** Store [c] at [p], as [open(p, "w")] followed by writes does: the
    parent has to be a directory and [p] must not be one. *)
Definition store (p : string) (c : content) : M unit :=
  λ w, let k := os.split_path p in
       match os.node_at w p, os.parent_error w p k with
       | Some Dir, _ => (Raise (OSError "IsADirectoryError" p), w)
       | _, Some e => (Raise e, w)
       | _, None =>
           if String.eqb p "" then (Raise (OSError "FileNotFoundError" p), w)
           else (Return tt, set_fs (<[k := File c]> (fs w)) w)
       end.

(** [open(p, "w")]: the file is created, or emptied. *)
Definition open_w (p : string) : M unit := store p (Bytes "").

(** [open(p)] or [open(p, "rb")], then reading everything. *)
Definition load (p : string) : M content :=
  λ w, match os.node_at w p with
       | Some (File c) => (Return c, w)
       | Some Dir => (Raise (OSError "IsADirectoryError" p), w)
       | None => (Raise (OSError "FileNotFoundError" p), w)
       end.

(** Reading a file as text; tables and archives are not text. *)
Definition read_text (p : string) : M string :=
  let* c := load p in
  match c with
  | Bytes s => ret s
  | _ => raise (ValueError "UnicodeDecodeError")
  end.

(** [outfile.write(s)] on a file opened for writing at [p]. *)
Definition write (p : string) (s : string) : M unit :=
  let* c := load p in
  match c with
  | Bytes old => store p (Bytes (old +:+ s))
  | _ => store p (Bytes s)
  end.

End io.

(** ** [glob], [shutil], [filecmp], [pandas] *)

Module glob.

Definition is_magic (c : ascii) : bool :=
  Ascii.eqb c "*" || Ascii.eqb c "?".

(** Patterns are those with [*] and [?]; bracket expressions are not
    interpreted. *)
Definition has_magic (s : string) : bool := existsb is_magic (Text.chars s).

(** [fnmatch]: [*] stands for any run of characters, [?] for one. *)
Fixpoint fnmatch (pat : list ascii) : list ascii → bool :=
  match pat with
  | [] => λ n, match n with [] => true | _ => false end
  | c :: pat' =>
      if Ascii.eqb c "*"
      then fix star (n : list ascii) : bool :=
             fnmatch pat' n || match n with [] => false | _ :: n' => star n' end
      else λ n, match n with
                | [] => false
                | d :: n' => (Ascii.eqb c "?" || Ascii.eqb c d) && fnmatch pat' n'
                end
  end.

Definition is_hidden (s : string) : bool := Text.prefixb ["."%char] (Text.chars s).

(** The names in [dirname] that match [pattern]; names that start with
    a dot are left out unless the pattern starts with one. *)
Definition glob1 (w : world) (dirname pattern : string) : list string :=
  List.filter
    (λ n, (is_hidden pattern || negb (is_hidden n))
          && fnmatch (Text.chars pattern) (Text.chars n))
    (os.listdir w (if String.eqb dirname "" then "/" else dirname)).

Definition glob0 (w : world) (dirname name : string) : list string :=
  if String.eqb name ""
  then match os.node_at w dirname with Some Dir => [name] | _ => [] end
  else if bool_decide (is_Some (os.node_at w (os_path.join dirname name)))
       then [name] else [].

(** [glob.glob(pathname)]; the recursion is on the directory part, which
    is shorter than the path, so [fuel] above the length of the path
    never runs out. *)
Fixpoint iglob (fuel : nat) (w : world) (pathname : string) : list string :=
  match fuel with
  | O => []
  | S fuel' =>
      let (dirname, name) := os_path.split pathname in
      if negb (has_magic pathname)
      then (if String.eqb name ""
            then match os.node_at w dirname with Some Dir => [pathname] | _ => [] end
            else if bool_decide (is_Some (os.node_at w pathname))
                 then [pathname] else [])
      else if String.eqb dirname ""
      then (if has_magic name then glob1 w "" name else glob0 w "" name)
      else
        let dirs :=
          if negb (String.eqb dirname pathname) && has_magic dirname
          then iglob fuel' w dirname
          else [dirname] in
        flat_map
          (λ d, os_path.join d <$>
                  (if has_magic name then glob1 w d name else glob0 w d name))
          dirs
  end.

Definition glob (pathname : string) : M (list string) :=
  λ w, (Return (iglob (S (String.length pathname)) w pathname), w).

End glob.

Module shutil.

(** [shutil.copy2(src, dst)]: into [dst] when it is a directory, under
    the name of [src]. *)
Definition copy2 (src dst : string) : M unit :=
  let* isdir := os.path_isdir dst in
  let target := if isdir then os_path.join dst (os_path.basename src) else dst in
  if bool_decide (os.split_path src = os.split_path target)
  then raise (OSError "SameFileError" src)
  else let* c := io.load src in io.store target c.

Definition archive_extensions : list string :=
  [ ".tar"; ".tar.gz"; ".tgz"; ".tar.bz2"; ".tbz2"; ".tar.xz"; ".txz"; ".zip" ].

Definition ends_with (suffix s : string) : bool :=
  Text.prefixb (rev (Text.chars suffix)) (rev (Text.chars s)).

(** [shutil.unpack_archive(archive, dest)]: the format is found from
    the name of the archive; every member is written under [dest], with
    the directories it needs. *)
Definition unpack_archive (archive dest : string) : M unit :=
  if negb (existsb (λ ext, ends_with ext archive) archive_extensions)
  then raise (ReadError archive) else
  let* c := io.load archive in
  match c with
  | Archive members =>
      for_each members (λ m,
        let target := os_path.join dest m.1 in
        let folder := (os_path.split target).1 in
        let* present := os.path_exists folder in
        (if present then ret tt else os.makedirs folder) ;;
        io.store target (Bytes m.2))
  | _ => raise (ReadError archive)
  end.

(** [shutil.rmtree(path)]: the directory goes with everything below
    it; a path that is no directory is an error.  (The root itself
    cannot be removed: its content goes, and the call fails.) *)
Definition rmtree (p : string) : M unit :=
  λ w, let k := os.split_path p in
       match os.node_at w p with
       | Some Dir =>
           if bool_decide (k = [])
           then (Raise (OSError "OSError" p), set_fs ∅ w)
           else (Return tt,
                 set_fs (filter (λ e : list string * node, ¬ k `prefix_of` e.1) (fs w)) w)
       | Some (File _) => (Raise (OSError "NotADirectoryError" p), w)
       | None => (Raise (OSError "FileNotFoundError" p), w)
       end.

End shutil.

Module filecmp.

(** [filecmp.cmp(f1, f2)]: both have to be regular files with the same
    content.  (Its default mode also accepts, without reading them, two
    files of the same size and modification time; times are not part
    of the model.) *)
Definition cmp (f1 f2 : string) : M bool :=
  λ w, match os.node_at w f1, os.node_at w f2 with
       | None, _ => (Raise (OSError "FileNotFoundError" f1), w)
       | _, None => (Raise (OSError "FileNotFoundError" f2), w)
       | Some (File c1), Some (File c2) => (Return (bool_decide (c1 = c2)), w)
       | _, _ => (Return false, w)
       end.

End filecmp.

Module pd.

(** [pd.read_csv(p)]. *)
Definition read_csv (p : string) : M (list ModelEntry) :=
  let* c := io.load p in
  match c with
  | Table rows => ret rows
  | _ => raise (ParserError p)
  end.

(** [df.to_csv(p)]. *)
Definition to_csv (rows : list ModelEntry) (p : string) : M unit :=
  io.store p (Table rows).

(** [df[column].unique()]: the values in order of first appearance. *)
Fixpoint unique (xs : list string) : list string :=
  match xs with
  | [] => []
  | x :: xs' => x :: List.filter (λ y, negb (String.eqb x y)) (unique xs')
  end.

End pd.

(** [x in xs] for a list or an array of strings. *)
Definition str_in (x : string) (xs : list string) : bool :=
  existsb (String.eqb x) xs.

(** ** [re.sub] for literal patterns *)

Module re.

Definition backslash : ascii := ascii_of_nat 92.

(** [chr(v)] for [v < 256], in UTF-8. *)
Definition chr (v : nat) : list ascii :=
  if Nat.ltb v 128 then [ascii_of_nat v]
  else [ascii_of_nat (192 + v / 64); ascii_of_nat (128 + v mod 64)].

Definition digit_value (c : ascii) : nat := nat_of_ascii c - 48.

Definition octal_value (ds : list ascii) : nat :=
  foldl (λ acc d, 8 * acc + digit_value d) 0 ds.

Definition decimal_value (ds : list ascii) : nat :=
  foldl (λ acc d, 10 * acc + digit_value d) 0 ds.

(** The escapes of a replacement template that stand for one character. *)
Definition simple_escape (c : ascii) : option ascii :=
  if Ascii.eqb c "a" then Some (ascii_of_nat 7)
  else if Ascii.eqb c "b" then Some (ascii_of_nat 8)
  else if Ascii.eqb c "f" then Some (ascii_of_nat 12)
  else if Ascii.eqb c "n" then Some (ascii_of_nat 10)
  else if Ascii.eqb c "r" then Some (ascii_of_nat 13)
  else if Ascii.eqb c "t" then Some (ascii_of_nat 9)
  else if Ascii.eqb c "v" then Some (ascii_of_nat 11)
  else if Ascii.eqb c backslash then Some backslash
  else None.

Definition is_identifier (name : list ascii) : bool :=
  match name with
  | [] => false
  | c :: _ =>
      negb (Text.is_digit c)
      && forallb (λ d, Text.is_upper d || Text.is_lower d || Text.is_digit d
                       || Ascii.eqb d "_") name
  end.

(** A reference [\g<name>] in the template of a pattern that has no
    groups: only group 0, the whole match, exists. *)
Definition group_ref (m name : list ascii) : result (list ascii) :=
  match name with
  | [] => Raise (ReError "missing group name")
  | _ :: _ =>
      if is_identifier name then Raise (IndexError "unknown group name")
      else if forallb Text.is_digit name
      then (if Nat.eqb (decimal_value name) 0 then Return m
            else Raise (ReError "invalid group reference"))
      else Raise (ReError "bad character in group name")
  end.

Inductive mode : Type :=
| Plain
| GroupName (acc : list ascii).

Definition emit (pre : list ascii) (r : result (list ascii)) : result (list ascii) :=
  result_bind r (λ out, Return (pre ++ out)).

(** The expansion of the replacement template [repl] for the match [m]
    ([sre_parse.parse_template] and [expand_template]). *)
Fixpoint expand (md : mode) (m repl : list ascii) : result (list ascii) :=
  match md, repl with
  | GroupName _, [] => Raise (ReError "missing >, unterminated name")
  | GroupName acc, c :: r1 =>
      if Ascii.eqb c ">"
      then result_bind (group_ref m (rev acc)) (λ g, emit g (expand Plain m r1))
      else expand (GroupName (c :: acc)) m r1
  | Plain, [] => Return []
  | Plain, c :: r1 =>
      if negb (Ascii.eqb c backslash) then emit [c] (expand Plain m r1)
      else
        match r1 with
        | [] => Raise (ReError "bad escape (end of pattern)")
        | e :: r2 =>
            if Ascii.eqb e "g" then
              match r2 with
              | lt :: r3 =>
                  if Ascii.eqb lt "<" then expand (GroupName []) m r3
                  else Raise (ReError "missing <")
              | [] => Raise (ReError "missing <")
              end
            else if Ascii.eqb e "0" then
              match r2 with
              | d1 :: r3 =>
                  if Text.is_octal d1 then
                    match r3 with
                    | d2 :: r4 =>
                        if Text.is_octal d2
                        then emit (chr (octal_value [d1; d2])) (expand Plain m r4)
                        else emit (chr (octal_value [d1])) (expand Plain m r3)
                    | [] => Return (chr (octal_value [d1]))
                    end
                  else emit (chr 0) (expand Plain m r2)
              | [] => Return (chr 0)
              end
            else if Text.is_digit e then
              match r2 with
              | d1 :: d2 :: r4 =>
                  if Text.is_octal e && Text.is_octal d1 && Text.is_octal d2
                  then (if Nat.ltb 255 (octal_value [e; d1; d2])
                        then Raise (ReError "octal escape value outside of range 0-0o377")
                        else emit (chr (octal_value [e; d1; d2])) (expand Plain m r4))
                  else Raise (ReError "invalid group reference")
              | _ => Raise (ReError "invalid group reference")
              end
            else
              match simple_escape e with
              | Some x => emit [x] (expand Plain m r2)
              | None =>
                  if Text.is_upper e || Text.is_lower e
                  then Raise (ReError "bad escape")
                  else emit [c; e] (expand Plain m r2)
              end
        end
  end.

(** [re.sub(pattern, repl, string)] for a pattern without operators of
    regular expressions: it matches its own text only.  The template is
    expanded before the search starts. *)
Definition sub (pattern repl s : string) : result string :=
  result_bind (expand Plain (Text.chars pattern) (Text.chars repl))
    (λ v, Return (Text.text (Text.replace_all (Text.chars pattern) v (Text.chars s)))).

End re.

(** ** [dags/utils/file_ops.py] *)

Module file_ops.

(** The names the module defines at top level: its imports and its
    functions. *)
Definition toplevel_names : list string :=
  [ "os"; "filecmp"; "json"; "logging"; "requests"; "glob";
    "get_parent_folder_name"; "get_files_in_directory"; "get_filename";
    "get_object_name_from_file"; "get_ontology_name_from_file";
    "get_source_feed_from_folder_name"; "get_filenames_in_directory";
    "get_sub_folders_list"; "gcs_path_to_local_path"; "concat_json";
    "folder_exist_or_create"; "file_exist" ].

Definition defines (name : string) : bool := str_in name toplevel_names.

Definition get_parent_folder_name (dir_path : string) : string :=
  (os_path.split (os_path.split dir_path).1).2.

Definition get_files_in_directory (dir_path file_ext : string) : M (list string) :=
  print (os_path.join dir_path file_ext) ;;
  glob.glob (os_path.join dir_path file_ext).

(** The callable [get_files_in_directory]: it has two positional
    parameters, and neither has a default. *)
Definition call_get_files_in_directory (args : list string) : M (list string) :=
  match args with
  | [dir_path; file_ext] => get_files_in_directory dir_path file_ext
  | [] =>
      raise (TypeError
        "get_files_in_directory() missing 2 required positional arguments: 'dir_path' and 'file_ext'")
  | [_] =>
      raise (TypeError
        "get_files_in_directory() missing 1 required positional argument: 'file_ext'")
  | _ =>
      raise (TypeError
        ("get_files_in_directory() takes 2 positional arguments but "
           +:+ pretty (length args) +:+ " were given"))
  end.

Definition get_filename (file_path : string) (with_extension : bool) : result string :=
  if with_extension then Return (os_path.basename file_path)
  else result_bind
         (os_path.splitext [os_path.basename file_path; ".tar.gz"])
         (λ r, Return r.1).

Definition get_object_name_from_file (file_path : string) : result string :=
  result_bind (os_path.splitext [os_path.basename file_path]) (λ r,
  let filename := r.1 in
  item (Text.str_split "_" filename) 1).

Definition get_ontology_name_from_file (file_path : string) : result string :=
  result_bind (os_path.splitext [os_path.basename file_path]) (λ r,
  let filename := r.1 in
  item (Text.str_split "_" filename) 0).

Definition get_source_feed_from_folder_name (dir_path : string) : M string :=
  let* isdir := os.path_isdir dir_path in
  if isdir then
    let dir_name := os_path.basename dir_path in
    lift (item (Text.str_split "_" dir_name) 0)
  else
    raise (ValueError ("The specified path is not a directory: " +:+ dir_path)).

Definition get_filenames_in_directory (dir_path file_ext : string) : M (list string) :=
  let* filepaths := get_files_in_directory dir_path file_ext in
  lift (result_map (λ f, get_filename f true) filepaths).

Definition get_sub_folders_list (dir_path : string) : M (list string) :=
  glob.glob (os_path.join (os_path.join dir_path "*") "").

Definition gcs_path_to_local_path (images_path gcs_path : string) : result string :=
  let split := Text.str_split "/" gcs_path in
  result_bind (item split 3) (λ dataset,
  result_bind (item split 4) (λ image,
  Return (os_path.join_all images_path [dataset; image]))).

Section Json.
(** The [json] codec: the value that [json.load] makes of a text, the
    items that [+=] appends to a list for such a value (the elements of
    an array, the keys of an object, the characters of a string; a number
    is not iterable), and the text that [json.dump] writes for a list. *)
Variable json : Type.
Variable json_load : string → result json.
Variable json_items : json → result (list json).
Variable json_dump : list json → string.



End Json.

Definition folder_exist_or_create (folder_path : string) : M unit :=
  let* present := os.path_exists folder_path in
  if negb present then os.makedirs folder_path else ret tt.

Definition file_exist (file_path : string) : M bool :=
  os.path_isfile file_path.

(** The attributes that the DAG scripts read from the module beyond
    [folder_exist_or_create] and [file_exist]: each is [Some] function
    when the module defines it and [None] when it does not. *)
Record helpers : Type := mkHelpers {
  get_directory_subfolders_subset : option (string → string → M (list string));
  get_subfolders_in_directory : option (string → M (list string));
  get_subfolders_names_in_directory : option (string → M (list string));
  copy_files_from_folder : option (string → string → M unit)
}.

(** [file_ops.name]: an attribute the module lacks raises
    [AttributeError]. *)
Definition getattr {A} (name : string) (attribute : option A) : M A :=
  match attribute with
  | Some f => ret f
  | None => raise (AttributeError name)
  end.

(** The module as it is written: none of the four names is defined. *)
Definition as_written : helpers := mkHelpers None None None None.

End file_ops.

(** The names of the directories directly under [dir_path]. *)
Definition subfolder_names (w : world) (dir_path : string) : list string :=
  List.filter
    (λ n, match os.node_at w (os_path.join dir_path n) with
          | Some Dir => true
          | _ => false
          end)
    (os.listdir w dir_path).

(** Modelled from the spec: [get_subfolders_names_in_directory] is called
    by the model zoo synchroniser but [file_ops.py] has no definition of
    it; the spec says that the synchroniser "list[s] existing subfolders"
    of the models directory and compares [model_folder_name] with them.
    This definition returns the names of the directories directly under
    [dir_path] and changes nothing. *)
Definition spec_get_subfolders_names_in_directory (dir_path : string) : M (list string) :=
  λ w, (Return (subfolder_names w dir_path), w).

(** Modelled from the spec: [get_directory_subfolders_subset] is called
    by the comparison, the image copy and the TFRecord merges but
    [file_ops.py] has no definition of it; the spec says that these
    operations work on the "subfolders under a [...] root whose names
    contain a given source-filter substring".  The subfolders are listed
    as the module's own [get_sub_folders_list] lists them, with a slash at
    the end, and named as its [get_parent_folder_name] names them. *)
Definition spec_get_directory_subfolders_subset (dir_path filter : string)
  : M (list string) :=
  let* subfolders := file_ops.get_sub_folders_list dir_path in
  ret (List.filter
         (λ subfolder, Text.contains filter (file_ops.get_parent_folder_name subfolder))
         subfolders).

(** [file_ops] completed with these two helpers. *)
Definition file_ops_completed : file_ops.helpers :=
  file_ops.mkHelpers
    (Some spec_get_directory_subfolders_subset) None
    (Some spec_get_subfolders_names_in_directory) None.

(** ** [export_labeled_dataset_and_create_tf_record.py] *)

Module export_labeled_dataset.

(** A project of the labeling API's answer: [{"id": ..., "name": ...}]. *)
Record project : Type := mkProject {
  project_id : string;
  project_name : string
}.

(** The GraphQL client, as far as the project query goes: what
    [json.loads(client.execute(...))["data"]["projects"]] evaluates to. *)
Record GraphQLClient : Type := mkClient {
  projects_reply : result (list project)
}.

Definition __get_projects (client : GraphQLClient) : result (list project) :=
  projects_reply client.

(** The loop of [__get_specific_project_id], which returns from inside. *)
Fixpoint first_project_named (projects : list project) (name : string) : result string :=
  match projects with
  | [] => Raise (ValueError "Project name not found")
  | p :: rest =>
      if String.eqb (project_name p) name then Return (project_id p)
      else first_project_named rest name
  end.

Definition __get_specific_project_id (client : GraphQLClient) (name : string)
  : result string :=
  result_bind (__get_projects client) (λ projects, first_project_named projects name).

(** The answer to the export mutation: [{"downloadUrl": ...,
    "createdAt": ..., "shouldPoll": ...}]. *)
Record export_job : Type := mkExportJob {
  downloadUrl : string;
  shouldPoll : bool
}.

Section Labels.
(** The labeling service and the codecs: the client that
    [GraphQLClient(api_url)] is once the token is injected, its answer to
    the export mutation for a project ID, the text that
    [urlopen(url).read().decode()] gives, and [json.loads], [print] and
    [json.dump(..., ensure_ascii=False, indent=4)] on the loaded value. *)
Variable connect : string → string → GraphQLClient.
Variable export_reply : GraphQLClient → string → result export_job.
Variable urlopen : string → result string.
Variable json : Type.
Variable json_loads : string → result json.
Variable json_str : json → string.
Variable json_dump : json → string.

Definition __get_client (api_url api_key : string) : GraphQLClient :=
  let api_token := "Bearer " +:+ api_key in
  connect api_url api_token.

Definition __get_export_url (client : GraphQLClient) (project_id : string)
  : result export_job :=
  export_reply client project_id.

Definition generate_project_labels (api_url api_key project_name : string) : M unit :=
  let client := __get_client api_url api_key in
  let* project_id := lift (__get_specific_project_id client project_name) in
  let* export_job := lift (__get_export_url client project_id) in
  if shouldPoll export_job then print "Export Generating..." else ret tt.

Definition fetch_project_labels (api_url api_key project_name output_folder : string)
  : M unit :=
  let client := __get_client api_url api_key in
  let* project_id := lift (__get_specific_project_id client project_name) in
  let* export_job := lift (__get_export_url client project_id) in
  print "Fetching payload ....." ;;
  let* payload := lift (urlopen (downloadUrl export_job)) in
  let* labels := lift (json_loads payload) in
  print (json_str labels) ;;
  let folder := os_path.join_all output_folder ["input"; project_name] in
  let output_folder := os_path.join_all output_folder ["output"; project_name] in
  let* present := os.path_exists folder in
  (if present then shutil.rmtree folder else ret tt) ;;
  os.makedirs folder ;;
  let* present := os.path_exists output_folder in
  (if present then shutil.rmtree output_folder else ret tt) ;;
  os.makedirs output_folder ;;
  let json_file := folder +:+ "/" +:+ project_name +:+ ".json" in
  let* present := os.path_exists json_file in
  (if present then os.remove json_file else ret tt) ;;
  io.open_w json_file ;;
  io.write json_file (json_dump labels).

End Labels.

(** The line feed. *)
Definition newline : string := String (ascii_of_nat 10) "".

Definition generate_trainval_file (annotation_dir output_dir output_file : string)
  : M unit :=
  let* present := os.path_exists output_dir in
  (if present then shutil.rmtree output_dir else ret tt) ;;
  os.makedirs output_dir ;;
  io.open_w output_file ;;
  let* visited := os.walk annotation_dir in
  for_each visited (λ rdf,
    for_each rdf.2 (λ file,
      let* line := lift (item (Text.str_split "." file) 0) in
      io.write output_file (line +:+ newline))).

Section LabelMap.
(** [ET.parse(xml_file).getroot().findall("object")], as far as the loop
    needs it: the number of [object] children of the root of the
    document, or the error of the parser. *)
Variable count_objects : string → M nat.

(** The helper is called with the directory only; the body of the inner
    loop reads [listing], a name that nothing binds. *)
Definition generate_labelmap_file (annotation_dir output_dir : string) : M unit :=
  let* files := file_ops.call_get_files_in_directory [annotation_dir] in
  for_each files (λ xml_file,
    print xml_file ;;
    let* objects := count_objects xml_file in
    for_each (seq 0 objects) (λ obj, raise (NameError "listing"))).

End LabelMap.

End export_labeled_dataset.

(** ** [train_models_dag.py] *)

Module train_models_dag.

Definition AIRFLOW_BASE_FOLDER : string := "/usr/local/airflow/".
Definition AIRFLOW_DATA_FOLDER : string := os_path.join AIRFLOW_BASE_FOLDER "data".
Definition AIRFLOW_TRAINABLE_FOLDER : string := os_path.join AIRFLOW_DATA_FOLDER "trainable".

(** The three operators the loop creates for a descriptor file. *)
Record job_tasks : Type := mkJobTasks {
  training_name_with_date : string;
  train_task_id : string;
  train_command : string;
  delay_task_id : string;
  eval_task_id : string;
  eval_command : string
}.

Section Dispatcher.
(** The environment of the DAG file: the research folder and the zone
    come from the process environment and the Airflow variables,
    [get_gcp_training_data_url] from the [train_models] module, and
    [now] is [datetime.now().strftime("%Y-%m-%dT%H:%M")]. *)
Variable TENSORFLOW_OBJECT_DETECTION_RESEARCH_FOLDER : string.
Variable GCP_ZONE : string.
Variable get_gcp_training_data_url : string → result string.
Variable now : string.

(** The body of the loop over the descriptor files. *)
Definition tasks_for (json_file : string) : result job_tasks :=
  result_bind (file_ops.get_filename json_file false) (λ training_name,
  result_bind (get_gcp_training_data_url json_file) (λ gcp_url,
    let cd_obj_detect_api_cmd := "cd " +:+ TENSORFLOW_OBJECT_DETECTION_RESEARCH_FOLDER in
    let job_dir := gcp_url +:+ "/" in
    let packages := "dist/object_detection-0.1.tar.gz,slim/dist/slim-0.1.tar.gz,/tmp/pycocotools/pycocotools-2.0.tar.gz" in
    let module_name := "object_detection.model_main" in
    let runtime_version := "1.13" in
    let scale_tier := "BASIC_GPU" in
    let region := GCP_ZONE in
    let model_dir := gcp_url +:+ "/train_data/" in
    let pipeline_config_path := gcp_url +:+ "/pipeline.config" in
    let checkpoint_dir := model_dir in
    let submit (kind : string) :=
      cd_obj_detect_api_cmd +:+ " && gcloud ai-platform jobs submit training "
        +:+ kind +:+ "_" +:+ training_name +:+ "_`date +%s` --job-dir=" +:+ job_dir
        +:+ " --packages " +:+ packages +:+ " --module-name " +:+ module_name
        +:+ " --runtime-version " +:+ runtime_version +:+ " --scale-tier " +:+ scale_tier
        +:+ " --region " +:+ region +:+ " -- --model_dir=" +:+ model_dir
        +:+ " --pipeline_config_path=" +:+ pipeline_config_path in
    Return (mkJobTasks
              (training_name +:+ "_" +:+ now)
              ("train_model_" +:+ training_name +:+ "_on_basic_gpu")
              (submit "train")
              ("delay_eval_" +:+ training_name)
              ("eval_model_" +:+ training_name +:+ "_on_basic_gpu")
              (submit "eval" +:+ " --checkpoint_dir=" +:+ checkpoint_dir)))).

(** [for json_file in ...]: the first failure ends the loop. *)
Fixpoint dispatch (json_files : list string) : result (list job_tasks) :=
  match json_files with
  | [] => Return []
  | f :: rest =>
      result_bind (tasks_for f) (λ t,
      result_bind (dispatch rest) (λ ts, Return (t :: ts)))
  end.

(** The loop as the DAG file runs it when it is loaded. *)
Definition load_descriptors : M (list job_tasks) :=
  let* json_files := glob.glob (AIRFLOW_TRAINABLE_FOLDER +:+ "/*.json") in
  lift (dispatch json_files).

End Dispatcher.

End train_models_dag.

(** ** [prepare_model_and_data_for_training.py] *)

Module prepare.

(** The star that decorates some model names on the catalog page
    (U+2606, three bytes in UTF-8). *)
Definition star : string :=
  Text.text [ascii_of_nat 226; ascii_of_nat 152; ascii_of_nat 134].

Definition zoo_prefix : string :=
  "http://download.tensorflow.org/models/object_detection/".

(** [d[key]] on a dictionary. *)
Definition getitem (d : list (string * string)) (key : string) : result string :=
  match List.find (λ kv, String.eqb kv.1 key) d with
  | Some kv => Return kv.2
  | None => Raise (KeyError key)
  end.

Definition entry_of_link (l : link) (href : string) : ModelEntry :=
  let model_name := Text.str_strip (Text.str_replace (link_text l) star "") in
  let model_url := href in
  let model_file_name := Text.last_field "/" model_url in
  let model_folder_name := (os_path.splitext_str (os_path.basename model_file_name)).1 in
  let model_folder_name := (os_path.splitext_str (os_path.basename model_folder_name)).1 in
  let model_release_date := Text.text <$> Text.search_date (Text.chars model_file_name) in
  mkModelEntry model_release_date model_folder_name model_file_name model_url model_name.

(** The loop over the [<a>] nodes; [data] is the list built so far. *)
Fixpoint parse_links (link_nodes : list link) (data : list ModelEntry)
  : result (list ModelEntry) :=
  match link_nodes with
  | [] => Return data
  | l :: rest =>
      result_bind (getitem (attrs l) "href") (λ href,
        if Text.contains zoo_prefix href
        then parse_links rest (data ++ [entry_of_link l href])
        else parse_links rest data)
  end.

Definition __parse_downloaded_model_file_list_response (r : response)
  : M (list ModelEntry) :=
  let* data := lift (parse_links (links r) []) in
  log INFO ("Parsed all model data from the webpage " +:+ url r) ;;
  ret data.

Definition validate_reference_model_list_exist_or_create
    (base_model_csv positive_downstream negative_downstream : string) : M string :=
  let* present := file_ops.file_exist base_model_csv in
  if present then ret positive_downstream else ret negative_downstream.

Definition download_reference_model_list_as_csv (u base_model_csv : string) : M unit :=
  try_except
    (let* r := requests_get u in
     let* new_models_reference_df := __parse_downloaded_model_file_list_response r in
     pd.to_csv new_models_reference_df base_model_csv ;;
     log INFO "Model list data saved to csv file")
    is_RequestException
    (λ e, log ERROR ("An error occurred while downloading the file from " +:+ u)).


Definition validate_model_presence_in_model_repo_or_create (model_repo_folder : string)
  : M unit :=
  file_ops.folder_exist_or_create model_repo_folder ;;
  log INFO "Model directory present in model repository".

Definition create_training_folder (model_training_folder : string) : M unit :=
  file_ops.folder_exist_or_create model_training_folder ;;
  log INFO "Temporary training folder created".

(** [for x in xs: acc = body(acc, x)]. *)
Fixpoint for_fold {A B} (xs : list A) (acc : B) (body : B → A → M B) : M B :=
  match xs with
  | [] => ret acc
  | x :: xs' => let* acc' := body acc x in for_fold xs' acc' body
  end.

(** [with open(dst, "w") as outfile: with open(src) as infile: ...]: the
    destination is opened first, then the source is named and read. *)
Definition write_first_labelmap (labelmap_file : string) (labelmap_files : list string)
  : M unit :=
  io.open_w labelmap_file ;;
  let* first := index labelmap_files 0 in
  let* lines := io.read_text first in
  io.write labelmap_file lines.

(** [models_subset[models_df.model_name.isin(required_base_models)]],
    when a list of required models is given. *)
Definition select_models (required_base_models : option (list string))
    (models_df : list ModelEntry) : list ModelEntry :=
  match required_base_models with
  | Some required => List.filter (λ m, str_in (model_name m) required) models_df
  | None => models_df
  end.

(** The body of the loop of [download_and_extract_base_model] for the
    catalog entry [m]; [subfolders] are the folders found before the
    loop. *)
Definition sync_model (base_model_folder : string) (subfolders : list string)
    (m : ModelEntry) : M unit :=
  if negb (str_in (model_folder_name m) subfolders) then
    log INFO ("Model " +:+ model_folder_name m +:+ " not found ") ;;
    os.mkdir (os_path.join base_model_folder (model_folder_name m)) ;;
    try_except
      (let* r := requests_get (model_url m) in
       log INFO ("Downloading " +:+ model_url m +:+ " .....") ;;
       if Nat.eqb (status_code r) 200 then
         let tar_file := os_path.join base_model_folder (model_file_name m) in
         io.store tar_file (raw r) ;;
         log INFO ("Extracting " +:+ tar_file +:+ " .....") ;;
         shutil.unpack_archive tar_file base_model_folder ;;
         os.remove tar_file
       else ret tt)
      is_RequestException
      (λ e, log ERROR
              ("An error occurred while downloading the file from " +:+ model_url m))
  else
    log INFO "All base models are already present".

Section WithFileOps.
(** The attributes of [file_ops] that may be missing. *)
Variable ns : file_ops.helpers.

Definition download_and_extract_base_model
    (base_model_csv base_model_folder : string)
    (required_base_models : option (list string)) : M unit :=
  let* models_df := pd.read_csv base_model_csv in
  let models_subset := select_models required_base_models models_df in
  let* list_names :=
    file_ops.getattr "get_subfolders_names_in_directory"
      (file_ops.get_subfolders_names_in_directory ns) in
  let* subfolders := list_names base_model_folder in
  for_each models_subset (sync_model base_model_folder subfolders).

(** The result is [Some] verdict, or [None] (Python's [None]) when
    there is nothing to compare. *)
Definition compare_label_map_file (base_tf_record_folder video_source : string)
  : M (option bool) :=
  let* subset :=
    file_ops.getattr "get_directory_subfolders_subset"
      (file_ops.get_directory_subfolders_subset ns) in
  let* subfolders := subset base_tf_record_folder video_source in
  if Nat.ltb 1 (length subfolders) then
    let* label_maps :=
      for_fold subfolders [] (λ label_maps subfolder,
        let* found := glob.glob (subfolder +:+ "*.pbtxt") in
        let* first := index found 0 in
        ret (label_maps ++ [first])) in
    let* reference_label_map := index label_maps 0 in
    let* labelmap_match :=
      for_fold label_maps true (λ labelmap_match label_map,
        print label_map ;;
        log INFO ("Reference File: " +:+ reference_label_map) ;;
        let* same := filecmp.cmp label_map reference_label_map in
        if same then
          print ("[ MATCH ] | LabelMap:" +:+ label_map +:+ " ") ;;
          ret labelmap_match
        else
          print ("[ FAILED ] | LabelMap:" +:+ label_map +:+ " ") ;;
          ret false) in
    ret (Some labelmap_match)
  else
    log WARNING "There were not enough dataset to compare i.g : Less than two" ;;
    ret None.

Definition copy_images_to_output
    (labelbox_output_folder output_folder video_source : string) : M unit :=
  let* subset :=
    file_ops.getattr "get_directory_subfolders_subset"
      (file_ops.get_directory_subfolders_subset ns) in
  let* filtered_subfolders := subset labelbox_output_folder video_source in
  for_each filtered_subfolders (λ subfolder,
    let* list_subfolders :=
      file_ops.getattr "get_subfolders_in_directory"
        (file_ops.get_subfolders_in_directory ns) in
    let* subfolders := list_subfolders subfolder in
    let subfolders :=
      List.filter
        (λ image_subfolder,
           Text.prefixb (rev (Text.chars "images")) (rev (Text.chars image_subfolder)))
        subfolders in
    let* folder := index subfolders 0 in
    let* copy :=
      file_ops.getattr "copy_files_from_folder" (file_ops.copy_files_from_folder ns) in
    copy folder output_folder).

Definition copy_labelbox_output_images_to_training_folder
    (labelbox_output_folder model_training_images_folder video_source : string)
  : M unit :=
  file_ops.folder_exist_or_create model_training_images_folder ;;
  copy_images_to_output labelbox_output_folder model_training_images_folder video_source ;;
  log INFO "Images copied to temporary image folder".

Definition copy_labelbox_output_images_to_model_repo_folder
    (labelbox_output_folder model_repo_images_folder video_source : string) : M unit :=
  file_ops.folder_exist_or_create model_repo_images_folder ;;
  copy_images_to_output labelbox_output_folder model_repo_images_folder video_source ;;
  log INFO "Images copied to model repo image folder".

Definition copy_labelbox_output_annotations_to_model_repo_folder
    (labelbox_output_folder model_repo_annotations_folder video_source : string)
  : M unit :=
  file_ops.folder_exist_or_create model_repo_annotations_folder ;;
  copy_images_to_output labelbox_output_folder model_repo_annotations_folder video_source ;;
  log INFO "Annotations copied to model repo annotations folder".

(** [files.extend(glob.glob(subfolder + pattern))]. *)
Definition extend (files : list string) (subfolder pattern : string)
  : M (list string) :=
  let* found := glob.glob (subfolder +:+ pattern) in
  ret (files ++ found).

Definition copy_all (files : list string) (folder : string) : M unit :=
  for_each files (λ tf_record,
    shutil.copy2 tf_record folder ;;
    log INFO ("Copied " +:+ tf_record +:+ " to " +:+ folder)).

Definition copy_tf_records_to_training_folder
    (tf_records_folder model_training_tf_records_folder video_source : string)
  : M unit :=
  let training_tf_records_train_folder := model_training_tf_records_folder +:+ "/train" in
  let training_tf_records_val_folder := model_training_tf_records_folder +:+ "/val" in
  file_ops.folder_exist_or_create training_tf_records_train_folder ;;
  file_ops.folder_exist_or_create training_tf_records_val_folder ;;
  let* subset :=
    file_ops.getattr "get_directory_subfolders_subset"
      (file_ops.get_directory_subfolders_subset ns) in
  let* subfolders := subset tf_records_folder video_source in
  let* (labelmap_files, tf_record_train_files, tf_record_val_files) :=
    for_fold subfolders ([], [], []) (λ '(labelmaps, trains, vals) subfolder,
      let* labelmaps := extend labelmaps subfolder "/*.pbtxt" in
      let* trains := extend trains subfolder "/*_train.record" in
      let* vals := extend vals subfolder "/*_val.record" in
      ret (labelmaps, trains, vals)) in
  copy_all tf_record_train_files training_tf_records_train_folder ;;
  copy_all tf_record_val_files training_tf_records_val_folder ;;
  let labelmap_file := model_training_tf_records_folder +:+ "/labelmap.pbtxt" in
  write_first_labelmap labelmap_file labelmap_files ;;
  log INFO ("Copied " +:+ labelmap_file +:+ " to " +:+ model_training_tf_records_folder) ;;
  log INFO "Completed copy of all tf records file to temporary training tf records folder".

Definition copy_tf_records_to_model_repo
    (tf_records_folder model_repo_tf_records_folder video_source : string) : M unit :=
  let model_repo_tf_record_train_folder := model_repo_tf_records_folder +:+ "/train" in
  let model_repo_tf_records_val_folder := model_repo_tf_records_folder +:+ "/val" in
  file_ops.folder_exist_or_create model_repo_tf_record_train_folder ;;
  file_ops.folder_exist_or_create model_repo_tf_records_val_folder ;;
  let* subset :=
    file_ops.getattr "get_directory_subfolders_subset"
      (file_ops.get_directory_subfolders_subset ns) in
  let* subfolders := subset tf_records_folder video_source in
  let* (labelmap_files, trainval_files, tf_record_train_files, tf_record_val_files) :=
    for_fold subfolders ([], [], [], [])
      (λ '(labelmaps, trainvals, trains, vals) subfolder,
         let* labelmaps := extend labelmaps subfolder "/*.pbtxt" in
         let* trainvals := extend trainvals subfolder "/*.txt" in
         let* trains := extend trains subfolder "/*_train.record" in
         let* vals := extend vals subfolder "/*_val.record" in
         ret (labelmaps, trainvals, trains, vals)) in
  copy_all tf_record_train_files model_repo_tf_record_train_folder ;;
  copy_all tf_record_val_files model_repo_tf_records_val_folder ;;
  let labelmap_file := model_repo_tf_records_folder +:+ "/labelmap.pbtxt" in
  write_first_labelmap labelmap_file labelmap_files ;;
  log INFO ("Copied " +:+ labelmap_file +:+ " to " +:+ model_repo_tf_records_folder) ;;
  let trainval_file := model_repo_tf_records_folder +:+ "/trainval.txt" in
  io.open_w trainval_file ;;
  for_each trainval_files (λ source,
    let* lines := io.read_text source in
    io.write trainval_file lines) ;;
  log INFO ("trainval file created in " +:+ model_repo_tf_records_folder) ;;
  log INFO "Completed copy of all tf records file to temporary training tf records folder".




End WithFileOps.

(** The seven placeholder tokens, in the order of their substitution. *)
Definition tokens : list string :=
  [ "NUM_CLASSES"; "PRE_TRAINED_MODEL_CHECKPOINT_PATH"; "LABEL_MAP_PATH";
    "TRAIN_TF_RECORD_PATH"; "VAL_TF_RECORD_PATH"; "TRAINING_BATCH_SIZE";
    "TRAINING_EPOCH_COUNT" ].

(** The values that take the place of the tokens, in the same order.
    The three numbers arrive as the text [str] gives for them. *)
Definition substitutions
    (model_folder_ts num_classes bucket_url training_batch_size training_epoch_count
       : string) : list string :=
  let pre_trained_model_checkpoint_path :=
    bucket_url +:+ "/" +:+ model_folder_ts +:+ "/model/base/model.ckpt" in
  let label_map_path :=
    bucket_url +:+ "/" +:+ model_folder_ts +:+ "/data/tf_records/labelmap.pbtxt" in
  let train_tf_record_path :=
    bucket_url +:+ "/" +:+ model_folder_ts +:+ "/data/tf_records/train/*.record" in
  let val_tf_record_path :=
    bucket_url +:+ "/" +:+ model_folder_ts +:+ "/data/tf_records/val/*.record" in
  [ num_classes; pre_trained_model_checkpoint_path; label_map_path;
    train_tf_record_path; val_tf_record_path; training_batch_size;
    training_epoch_count ].

(** A chain of [re.sub] calls: each works on the result of the one
    before. *)
Fixpoint fill (subs : list (string * string)) (template : string) : result string :=
  match subs with
  | [] => Return template
  | (token, value) :: rest =>
      result_bind (re.sub token value template) (fill rest)
  end.

(** The text of the configuration: the seven substitutions of
    [generate_model_config].  The three numbers arrive as the text that
    [str] gives for them. *)
Definition config_text
    (model_folder_ts model_config_template num_classes bucket_url
       training_batch_size training_epoch_count : string) : result string :=
  let pre_trained_model_checkpoint_path :=
    bucket_url +:+ "/" +:+ model_folder_ts +:+ "/model/base/model.ckpt" in
  let label_map_path :=
    bucket_url +:+ "/" +:+ model_folder_ts +:+ "/data/tf_records/labelmap.pbtxt" in
  let train_tf_record_path :=
    bucket_url +:+ "/" +:+ model_folder_ts +:+ "/data/tf_records/train/*.record" in
  let val_tf_record_path :=
    bucket_url +:+ "/" +:+ model_folder_ts +:+ "/data/tf_records/val/*.record" in
  result_bind (re.sub "NUM_CLASSES" num_classes model_config_template) (λ t,
  result_bind (re.sub "PRE_TRAINED_MODEL_CHECKPOINT_PATH"
                 pre_trained_model_checkpoint_path t) (λ t,
  result_bind (re.sub "LABEL_MAP_PATH" label_map_path t) (λ t,
  result_bind (re.sub "TRAIN_TF_RECORD_PATH" train_tf_record_path t) (λ t,
  result_bind (re.sub "VAL_TF_RECORD_PATH" val_tf_record_path t) (λ t,
  result_bind (re.sub "TRAINING_BATCH_SIZE" training_batch_size t) (λ t,
  re.sub "TRAINING_EPOCH_COUNT" training_epoch_count t)))))).

Definition generate_model_config
    (model_training_folder model_repo_folder model_folder_ts model_config_template
       num_classes bucket_url training_batch_size training_epoch_count : string)
  : M unit :=
  let pipeline_config_files :=
    [ model_training_folder +:+ "/pipeline.config";
      model_repo_folder +:+ "/pipeline.config" ] in
  let* model_config_template :=
    lift (config_text model_folder_ts model_config_template num_classes bucket_url
            training_batch_size training_epoch_count) in
  for_each pipeline_config_files (λ config_file,
    try_except
      (io.open_w config_file ;;
       io.write config_file model_config_template ;;
       log INFO ("Model config file has been created successfully at " +:+ config_file))
      is_IOError
      (λ error,
         log ERROR
           "An error has been raised while trying to save the model config to a file on disk" ;;
         (* [raise e]: no name [e] is bound here *)
         raise (NameError "e"))) ;;
  log INFO "Generated training pipeline config file".

End prepare.

(** * Vocabulary of the statements *)

(** ** Worlds and what happens before a missing helper is read *)

(** [w'] is [w] with some directories added: no file changed, nothing
    requested, nothing logged. *)
Definition only_new_dirs (w w' : world) : Prop :=
  http w' = http w ∧ requested w' = requested w ∧ logged w' = logged w
  ∧ ∀ k, fs w' !! k = fs w !! k ∨ (fs w !! k = None ∧ fs w' !! k = Some Dir).

(** What a TFRecord merge does before it asks for the subfolders: the two
    destination folders. *)
Definition merge_prologue (destination : string) : M unit :=
  file_ops.folder_exist_or_create (destination +:+ "/train") ;;
  file_ops.folder_exist_or_create (destination +:+ "/val").

(** ** Placeholder tokens and the values that replace them *)

Module Tokens.

(** The characters that the placeholder tokens are made of. *)
Definition token_char (c : ascii) : bool :=
  Text.is_upper c || Ascii.eqb c "_".

(** A text shaped like a placeholder token: upper-case letters and
    underscores, with a letter at both ends. *)
Definition tokenlike (t : list ascii) : bool :=
  match t with [] => false | c :: _ => Text.is_upper c end
  && forallb token_char t
  && match last t with Some c => Text.is_upper c | None => false end.

(** A text that begins and ends with a character that no token has. *)
Definition edges_clear (v : list ascii) : bool :=
  match v with [] => false | c :: _ => negb (token_char c) end
  && match last v with Some c => negb (token_char c) | None => false end.

(** A value that takes no part in a token of [tokens]: its first and last
    characters are not token characters, and no token occurs in it. *)
Definition inert (tokens : list (list ascii)) (v : list ascii) : bool :=
  edges_clear v && forallb (λ t, negb (Text.occursb t v)) tokens.

(** No backslash: [re.sub] takes such a replacement as it is. *)
Definition plain (v : list ascii) : bool :=
  forallb (λ c, negb (Ascii.eqb c re.backslash)) v.

Definition token_texts : list (list ascii) := Text.chars <$> prepare.tokens.

Definition holds_no_token (s : string) : bool :=
  forallb (λ t, negb (Text.occursb t (Text.chars s))) token_texts.

(** A bucket URL that is safe to interpolate into the paths: it begins
    with a character that is not a token character (as [gs://...] does),
    and holds no token and no backslash. *)
Definition bucket_safe (s : string) : bool :=
  match Text.chars s with [] => false | c :: _ => negb (token_char c) end
  && holds_no_token s && plain (Text.chars s).

(** A folder name that is safe to interpolate: no token, no backslash. *)
Definition folder_safe (s : string) : bool :=
  holds_no_token s && plain (Text.chars s).

(** A value that is safe to substitute as it is. *)
Definition value_safe (s : string) : bool :=
  inert token_texts (Text.chars s) && plain (Text.chars s).

Definition next_clear (s : list ascii) : bool :=
  match s with
  | [] => true
  | c :: _ => negb (token_char c)
  end.

(** [t] occurs in [s] between characters that no token contains (or the
    ends of [s]); [before_clear] tells whether the character before [s]
    is such a character. *)
Fixpoint delimited_from (before_clear : bool) (t s : list ascii) : bool :=
  before_clear && Text.prefixb t s && next_clear (drop (length t) s)
  || match s with
     | [] => false
     | c :: s' => delimited_from (negb (token_char c)) t s'
     end.

Definition delimited (token template : string) : bool :=
  delimited_from true (Text.chars token) (Text.chars template).

(** No token of the list occurs inside a later one. *)
Fixpoint independent (ts : list (list ascii)) : bool :=
  match ts with
  | [] => true
  | t :: rest => forallb (λ t', negb (Text.occursb t t')) rest && independent rest
  end.

End Tokens.

(** ** Occurrences and chains of substitutions *)

Module Occurrences.
Import Text Tokens.

(** Every occurrence of [pat] in [a ++ b] lies in [a] or in [b]. *)
Definition clean_cut (pat a b : list ascii) : Prop :=
  ∀ p q, a ++ b = p ++ pat ++ q → (∃ r, a = p ++ pat ++ r) ∨ (∃ r, p = a ++ r).

Definition ends_clear (p : list ascii) : Prop :=
  ∀ c, last p = Some c → token_char c = false.

(** [t] occurs in [s] with no token character next to it. *)
Definition delimited_in (t s : list ascii) : Prop :=
  ∃ p q, s = p ++ t ++ q ∧ ends_clear p ∧ next_clear q = true.

Fixpoint chain (subs : list (list ascii * list ascii)) (s : list ascii) : list ascii :=
  match subs with
  | [] => s
  | (t, v) :: rest => chain rest (replace_all t v s)
  end.

(** The tokens of the chain are tokens of [tokens], and the values are
    inert for them. *)
Definition well_formed (tokens : list (list ascii))
    (subs : list (list ascii * list ascii)) : Prop :=
  ∀ t v, (t, v) ∈ subs → tokenlike t = true ∧ t ∈ tokens ∧ inert tokens v = true.

Definition as_chars (subs : list (string * string)) : list (list ascii * list ascii) :=
  (λ tv, (chars tv.1, chars tv.2)) <$> subs.

End Occurrences.

(** ** Where the configuration is written *)

Definition config_file (folder : string) : string := folder +:+ "/pipeline.config".

(** [folder] is a directory and its [pipeline.config], if there is one,
    is not a directory: the file can be opened for writing. *)
Definition holds_config (w : world) (folder : string) : bool :=
  match os.node_at w folder, os.node_at w (config_file folder) with
  | Some Dir, Some Dir => false
  | Some Dir, _ => true
  | _, _ => false
  end.

Definition config_key (folder : string) : list string :=
  os.split_path folder ++ ["pipeline.config"].

(** The body of the loop of [generate_model_config] for one folder. *)
Definition write_config (text : string) (folder : string) : M unit :=
  io.open_w (config_file folder) ;;
  io.write (config_file folder) text ;;
  log INFO ("Model config file has been created successfully at " +:+ config_file folder).

(** ** Example inputs *)

Definition catalog_example : list ModelEntry :=
  [ mkModelEntry (Some "2020_01_01") "ssd_mobilenet_v2" "ssd_mobilenet_v2.tar.gz"
      "http://download.tensorflow.org/models/object_detection/ssd_mobilenet_v2.tar.gz"
      "SSD MobileNet v2" ].

Definition offline : string → result response :=
  λ _, Raise (RequestException "ConnectionError").

Definition world_with_catalog : world :=
  mkWorld
    (list_to_map
       [ (["data"], Dir);
         (["data"; "models.csv"], File (Table catalog_example));
         (["data"; "base"], Dir);
         (["data"; "base"; "ssd_mobilenet_v2"], Dir);
         (["data"; "base"; "ssd_mobilenet_v2"; "pipeline.config"], File (Bytes "cfg")) ])
    offline [] [].



Definition world_offline : world :=
  mkWorld (list_to_map [(["data"], Dir)]) offline [] [].

Definition world_without_folders : world := mkWorld ∅ offline [] [].

Definition world_training_only : world :=
  mkWorld (list_to_map [(["training"], Dir)]) offline [] [].

(** The scenario of the spec: two subfolders for source [camA], each with
    a label map and one train record. *)
Definition world_two_bundles : world :=
  mkWorld
    (list_to_map
       [ (["tf"], Dir);
         (["tf"; "camA_1"], Dir);
         (["tf"; "camA_1"; "labelmap.pbtxt"], File (Bytes "item { id: 1 }"));
         (["tf"; "camA_1"; "a_train.record"], File (Bytes "r1"));
         (["tf"; "camA_2"], Dir);
         (["tf"; "camA_2"; "labelmap.pbtxt"], File (Bytes "item { id: 1 }"));
         (["tf"; "camA_2"; "b_train.record"], File (Bytes "r2"));
         (["out"], Dir) ])
    offline [] [].

(** The same two subfolders with label maps that differ. *)
Definition world_differing_bundles : world :=
  set_fs (<[ ["tf"; "camA_2"; "labelmap.pbtxt"] := File (Bytes "item { id: 2 }") ]>
            (fs world_two_bundles))
    world_two_bundles.

Definition template_example : string :=
  "model { ssd { num_classes: NUM_CLASSES } }
train_config {
  batch_size: TRAINING_BATCH_SIZE
  num_steps: TRAINING_EPOCH_COUNT
  fine_tune_checkpoint: 'PRE_TRAINED_MODEL_CHECKPOINT_PATH'
}
train_input_reader {
  label_map_path: 'LABEL_MAP_PATH'
  tf_record_input_reader { input_path: 'TRAIN_TF_RECORD_PATH' }
}
eval_input_reader {
  label_map_path: 'LABEL_MAP_PATH'
  tf_record_input_reader { input_path: 'VAL_TF_RECORD_PATH' }
}".

Definition world_with_folders : world :=
  mkWorld (list_to_map [(["training"], Dir); (["repo"], Dir)]) offline [] [].

(** ** Vocabulary for the properties beyond the claims *)

(** ** Names and paths *)

Module Names.

(** [sep] does not occur in [l]. *)
Definition free (sep : ascii) (l : list ascii) : bool :=
  forallb (λ d, negb (Ascii.eqb d sep)) l.

Definition lacks (c : ascii) (s : string) : bool := free c (Text.chars s).

(** The number of occurrences of [c] in [s]. *)
Definition count (c : ascii) (s : string) : nat :=
  length (List.filter (Ascii.eqb c) (Text.chars s)).

(** A name that a directory entry can have: not empty, without slash. *)
Definition entry_name (n : string) : bool :=
  negb (String.eqb n "") && lacks "/" n.

(** [l] is not empty and does not end with a slash. *)
Definition ends_plain (l : list ascii) : bool :=
  match rev l with
  | c :: _ => negb (Ascii.eqb c "/")
  | [] => false
  end.

(** No character that [glob] gives a meaning to. *)
Definition wildcard_free (s : string) : bool :=
  forallb (λ c, negb (Ascii.eqb c "*" || Ascii.eqb c "?" || Ascii.eqb c "["))
    (Text.chars s).

(** The path of a folder as the DAGs write it: not empty, no slash at
    the end, no wildcard. *)
Definition folder_path (p : string) : bool :=
  ends_plain (Text.chars p) && wildcard_free p.

(** A pattern for the entries of one folder: a name with [*] or [?],
    and without bracket. *)
Definition name_pattern (p : string) : bool :=
  entry_name p && glob.has_magic p && lacks "[" p.

(** Every entry of the file system has a path of entry names. *)
Definition well_named (w : world) : bool :=
  forallb (λ e : list string * node, forallb entry_name e.1) (map_to_list (fs w)).

End Names.

(** ** JSON files *)



(** ** Directories that are removed and created again *)

(** Every ancestor of the path [p] is a directory. *)
Definition within_directories (w : world) (p : string) : bool :=
  forallb (λ d, match fs w !! d with Some Dir => true | _ => false end)
    (os.prefixes (removelast (os.split_path p))).

(** The file system once the directory at [k] is removed with all that
    it holds, and created again: [k] is an empty directory, and the
    entries that are not below [k] are as before. *)
Definition emptied (k : list string) (m : gmap (list string) node)
  : gmap (list string) node :=
  <[k := Dir]> (filter (λ e : list string * node, ¬ k `prefix_of` e.1) m).

(** ** What [glob] finds *)

(** The list that [glob.glob(pathname)] returns in the world [w]. *)
Definition found (w : world) (pathname : string) : list string :=
  glob.iglob (S (String.length pathname)) w pathname.

(** ** Paths that are resolved as they are written *)

(** No component of the path is [.] or [..].  The model of the file
    system takes every component of a path for the name of an entry; for
    such a path the operating system does the same. *)
Definition dotless (p : string) : bool :=
  forallb (λ c, negb (String.eqb c ".") && negb (String.eqb c ".."))
    (os.split_path p).

(** A path that names an entry as it is written: not empty, no [.] or
    [..] among its components, and no slash at its end (after the name of
    a regular file, a slash makes the operating system refuse the
    path). *)
Definition literal_path (p : string) : bool :=
  dotless p && Names.ends_plain (Text.chars p).

(** ** Rows of the catalog *)

(** The fields of a row that are computed from the address of its link. *)
Definition address_fields (e : ModelEntry) : string * string * string :=
  (model_url e, model_file_name e, model_folder_name e).

(** ** Names that [pandas] reads back as text *)




(** * Verification *)

(** ** The training job dispatcher and [get_filename] *)

Lemma get_filename_with_extension (file_path : string) :
  file_ops.get_filename file_path true = Return (os_path.basename file_path).
Proof. reflexivity. Qed.

(** C10: for every path, [get_filename(file_path, with_extension=False)]
    raises a [TypeError], because [os.path.splitext] is given two
    arguments, and returns nothing; so the dispatcher's loop fails at the
    name of every descriptor file, and a non-empty list of descriptors
    ends the DAG file with that error. *)
Theorem get_filename_without_extension_raises :
  (∀ file_path : string,
     file_ops.get_filename file_path false
     = Raise (TypeError "splitext() takes 1 positional argument but 2 were given"))
  ∧ (∀ (folder zone : string) (gcp_url : string → result string) (now json_file : string),
       train_models_dag.tasks_for folder zone gcp_url now json_file
       = Raise (TypeError "splitext() takes 1 positional argument but 2 were given"))
  ∧ (∀ (folder zone : string) (gcp_url : string → result string) (now json_file : string)
       (rest : list string),
       train_models_dag.dispatch folder zone gcp_url now (json_file :: rest)
       = Raise (TypeError "splitext() takes 1 positional argument but 2 were given")).
Proof.
  split; [|split]; intros; reflexivity.
Qed.

(** ** Project lookup *)

Section ProjectLookup.
Import export_labeled_dataset.

Lemma first_project_named_found (projects : list project) (name : string) :
  (∃ p, p ∈ projects ∧ project_name p = name) →
  ∃ before p after,
    projects = before ++ p :: after
    ∧ project_name p = name
    ∧ (∀ q, q ∈ before → project_name q ≠ name)
    ∧ first_project_named projects name = Return (project_id p).
Proof.
  induction projects as [|q projects IH]; intros (p & Hin & Hname).
  - inversion Hin.
  - simpl. destruct (String.eqb_spec (project_name q) name) as [Heq|Hne].
    + exists [], q, projects. repeat split; auto. intros ? H; inversion H.
    + destruct IH as (before & p' & after & -> & Hn & Hfirst & Hres).
      * apply elem_of_cons in Hin as [->|Hin]; [congruence|eauto].
      * exists (q :: before), p', after. repeat split; auto.
        intros x Hx. apply elem_of_cons in Hx as [->|Hx]; auto.
Qed.

Lemma first_project_named_absent (projects : list project) (name : string) :
  (∀ p, p ∈ projects → project_name p ≠ name) →
  first_project_named projects name = Raise (ValueError "Project name not found").
Proof.
  induction projects as [|q projects IH]; intros Hall; simpl; [reflexivity|].
  destruct (String.eqb_spec (project_name q) name) as [Heq|Hne].
  - exfalso. apply (Hall q); [left|exact Heq].
  - apply IH. intros p Hp. apply Hall. now right.
Qed.

(** C7: for every project list that the labeling API returns and every
    name: if some project of the list has exactly that name, the
    resolution returns the ID of such a project (the first one in the
    list); if none has, it fails with the not-found condition of the
    code, a [ValueError] with the message "Project name not found". *)
Theorem get_specific_project_id_resolves
    (client : GraphQLClient) (projects : list project) (name : string) :
  __get_projects client = Return projects →
  ((∃ p, p ∈ projects ∧ project_name p = name) →
   ∃ before p after,
     projects = before ++ p :: after
     ∧ project_name p = name
     ∧ (∀ q, q ∈ before → project_name q ≠ name)
     ∧ __get_specific_project_id client name = Return (project_id p))
  ∧ ((∀ p, p ∈ projects → project_name p ≠ name) →
     __get_specific_project_id client name
     = Raise (ValueError "Project name not found")).
Proof.
  intros Hreply. unfold __get_specific_project_id. rewrite Hreply. simpl. split.
  - apply first_project_named_found.
  - apply first_project_named_absent.
Qed.

Lemma get_specific_project_id_resolves_witness :
  let projects :=
    [mkProject "p1" "camA"; mkProject "p2" "camB"; mkProject "p3" "camB"] in
  (∃ before p after,
     projects = before ++ p :: after
     ∧ project_name p = "camB"
     ∧ (∀ q, q ∈ before → project_name q ≠ "camB")
     ∧ __get_specific_project_id (mkClient (Return projects)) "camB"
       = Return (project_id p))
  ∧ __get_specific_project_id (mkClient (Return projects)) "camC"
    = Raise (ValueError "Project name not found").
Proof.
  intros projects. split.
  - apply (get_specific_project_id_resolves (mkClient (Return projects)) projects
             "camB" eq_refl).
    exists (mkProject "p2" "camB"). split; [set_solver|reflexivity].
  - apply (get_specific_project_id_resolves (mkClient (Return projects)) projects
             "camC" eq_refl).
    intros p Hp.
    repeat (apply elem_of_cons in Hp as [->|Hp]; [discriminate|]).
    inversion Hp.
Defined.

End ProjectLookup.

(** ** Worlds *)

Lemma only_new_dirs_refl (w : world) : only_new_dirs w w.
Proof. unfold only_new_dirs; auto. Qed.

Lemma only_new_dirs_trans (w1 w2 w3 : world) :
  only_new_dirs w1 w2 → only_new_dirs w2 w3 → only_new_dirs w1 w3.
Proof.
  intros (H1 & H2 & H3 & H4) (G1 & G2 & G3 & G4).
  repeat split; try congruence.
  intros k. destruct (H4 k) as [E|[E1 E2]], (G4 k) as [F|[F1 F2]].
  - left; congruence.
  - right; split; congruence.
  - right; split; congruence.
  - congruence.
Qed.

Lemma only_new_dirs_files (w w' : world) (k : list string) (c : content) :
  only_new_dirs w w' → (fs w' !! k = Some (File c) ↔ fs w !! k = Some (File c)).
Proof.
  intros (_ & _ & _ & H). destruct (H k) as [E|[E1 E2]]; rewrite ?E; [tauto|].
  rewrite E1, E2. split; discriminate.
Qed.

Lemma insert_dirs_lookup (ds : list (list string)) (m : gmap (list string) node)
    (k : list string) :
  (∀ d, d ∈ ds → m !! d = None ∨ m !! d = Some Dir) →
  foldl (λ m d, <[d := Dir]> m) m ds !! k = m !! k
  ∨ (m !! k = None ∧ foldl (λ m d, <[d := Dir]> m) m ds !! k = Some Dir).
Proof.
  revert m. induction ds as [|d ds IH]; intros m Hds; simpl; [now left|].
  destruct (IH (<[d := Dir]> m)) as [E|[E1 E2]].
  - intros d' Hd'. destruct (decide (d = d')) as [->|Hne].
    + right. apply lookup_insert_eq.
    + rewrite lookup_insert_ne by done. apply Hds. now right.
  - rewrite E. destruct (decide (d = k)) as [->|Hne].
    + rewrite lookup_insert_eq.
      destruct (Hds k) as [Hk|Hk]; [now left| |]; rewrite Hk; auto.
    + rewrite lookup_insert_ne by done. now left.
  - destruct (decide (d = k)) as [->|Hne].
    + rewrite lookup_insert_eq in E1. discriminate.
    + rewrite lookup_insert_ne in E1 by done. right. split; assumption.
Qed.

Lemma prefixes_cases (k d : list string) :
  d ∈ os.prefixes k → d ∈ os.prefixes (removelast k) ∨ (d = k ∧ k ≠ []).
Proof.
  unfold os.prefixes. intros Hd.
  apply list_elem_of_fmap in Hd as (n & -> & Hn).
  apply elem_of_seq in Hn.
  destruct (decide (n = length k)) as [->|Hne].
  - right. split; [apply firstn_all|]. destruct k; simpl in *; [lia|discriminate].
  - left. apply list_elem_of_fmap. exists n. split.
    + rewrite removelast_firstn_len, take_take. f_equal. lia.
    + apply elem_of_seq. rewrite removelast_firstn_len, length_take. lia.
Qed.

Lemma makedirs_effect (p : string) (w w' : world) (r : result unit) :
  os.makedirs p w = (r, w') → only_new_dirs w w'.
Proof.
  unfold os.makedirs.
  destruct (existsb _ _) eqn:Hfile.
  { intros [= _ <-]. apply only_new_dirs_refl. }
  destruct (os.node_at w p) eqn:Hnode.
  { intros [= _ <-]. apply only_new_dirs_refl. }
  destruct (String.eqb p "") eqn:Hp.
  { intros [= _ <-]. apply only_new_dirs_refl. }
  intros [= _ <-]. unfold only_new_dirs, set_fs; simpl. repeat split.
  intros k. apply insert_dirs_lookup.
  intros d Hd. apply prefixes_cases in Hd as [Hd|[-> Hk]].
  - destruct (fs w !! d) as [[|c]|] eqn:Hlook; auto.
    exfalso. apply Bool.not_true_iff_false in Hfile. apply Hfile.
    apply existsb_exists. exists d. split.
    + now apply list_elem_of_In.
    + now rewrite Hlook.
  - left. unfold os.node_at in Hnode. rewrite Hp in Hnode.
    destruct (os.split_path p); [congruence|exact Hnode].
Qed.

Lemma folder_exist_or_create_effect (p : string) (w w' : world) (r : result unit) :
  file_ops.folder_exist_or_create p w = (r, w') → only_new_dirs w w'.
Proof.
  unfold file_ops.folder_exist_or_create, bind, os.path_exists.
  destruct (bool_decide _); simpl.
  - intros [= _ <-]. apply only_new_dirs_refl.
  - apply makedirs_effect.
Qed.

Lemma load_world (p : string) (w : world) : (io.load p w).2 = w.
Proof. unfold io.load. now destruct (os.node_at w p) as [[|?]|]. Qed.

Lemma read_csv_world (p : string) (w : world) : (pd.read_csv p w).2 = w.
Proof.
  unfold pd.read_csv, bind. pose proof (load_world p w) as H.
  destruct (io.load p w) as [[c|e] w']; simpl in *; subst; [|reflexivity].
  now destruct c.
Qed.

(** ** Validation of the requested models *)


Lemma unique_elem (x : string) (xs : list string) : x ∈ pd.unique xs ↔ x ∈ xs.
Proof.
  induction xs as [|y xs IH]; simpl; [reflexivity|].
  rewrite !elem_of_cons, <- IH, !list_elem_of_In, filter_In, <- !list_elem_of_In.
  destruct (String.eqb_spec y x) as [->|Hne]; simpl; [tauto|].
  split; [tauto|]. intros [->|H]; [congruence|tauto].
Qed.

Section Validate.
Variable available : list string.



End Validate.




(** ** Catalog refresh *)

(** The loop over the links, when every link has an address. *)
Lemma parse_links_rows (ls : list link) (hrefs : list string) (data : list ModelEntry) :
  Forall2 (λ l h, prepare.getitem (attrs l) "href" = Return h) ls hrefs →
  prepare.parse_links ls data
  = Return
      (data ++
         ((λ lh : link * string, prepare.entry_of_link lh.1 lh.2) <$>
            List.filter (λ lh, Text.contains prepare.zoo_prefix lh.2) (zip ls hrefs))).
Proof.
  intros H. revert data. induction H as [|l h ls hrefs Hl _ IH]; intros data.
  - simpl. now rewrite app_nil_r.
  - cbn [prepare.parse_links zip zip_with List.filter]. rewrite Hl. cbn [result_bind snd].
    destruct (Text.contains prepare.zoo_prefix h); rewrite IH; [|reflexivity].
    rewrite fmap_cons, <- app_assoc. reflexivity.
Qed.

(** The addresses of the rows are the addresses that hold the prefix. *)
Lemma rows_urls (ls : list link) (hrefs : list string) :
  length ls = length hrefs →
  model_url <$>
    ((λ lh : link * string, prepare.entry_of_link lh.1 lh.2) <$>
       List.filter (λ lh, Text.contains prepare.zoo_prefix lh.2) (zip ls hrefs))
  = List.filter (Text.contains prepare.zoo_prefix) hrefs.
Proof.
  revert hrefs. induction ls as [|l ls IH]; intros [|h hrefs] Hlen;
    try discriminate; [reflexivity|].
  cbn [zip zip_with List.filter snd].
  destruct (Text.contains prepare.zoo_prefix h).
  - rewrite !fmap_cons. cbn [prepare.entry_of_link model_url fst snd].
    f_equal. apply IH. now injection Hlen.
  - apply IH. now injection Hlen.
Qed.





(** ** Writing the generated configuration *)

(** C8: when the write of a [pipeline.config] fails, the failure is logged
    and the exception that leaves [generate_model_config] is a
    [NameError] for the unbound name [e], not the [IOError] of the write.
    First the training folder does not exist; then the training folder
    exists, its file is written, and the model repo folder does not
    exist. *)
Theorem generate_model_config_write_failure :
  io.open_w "training/pipeline.config" world_without_folders
  = (Raise (OSError "FileNotFoundError" "training/pipeline.config"), world_without_folders)
  ∧ prepare.generate_model_config "training" "repo" "model_2020" "num_classes: NUM_CLASSES"
      "3" "gs://bucket" "8" "10" world_without_folders
    = (Raise (NameError "e"),
       mkWorld ∅ offline []
         [(ERROR,
           "An error has been raised while trying to save the model config to a file on disk")])
  ∧ (prepare.generate_model_config "training" "repo" "model_2020" "num_classes: NUM_CLASSES"
       "3" "gs://bucket" "8" "10" world_training_only).1
    = Raise (NameError "e")
  ∧ os.node_at
      (prepare.generate_model_config "training" "repo" "model_2020"
         "num_classes: NUM_CLASSES" "3" "gs://bucket" "8" "10" world_training_only).2
      "training/pipeline.config"
    = Some (File (Bytes "num_classes: 3")).
Proof. split; [|split; [|split]]; vm_compute; reflexivity. Qed.

(** The same holds for every input: an [IOError] of the first write is
    replaced by the [NameError]. *)
Lemma generate_model_config_first_write_fails
    (model_training_folder model_repo_folder model_folder_ts model_config_template
       num_classes bucket_url training_batch_size training_epoch_count : string)
    (text : string) (e : exn) (w w1 : world) :
  prepare.config_text model_folder_ts model_config_template num_classes bucket_url
    training_batch_size training_epoch_count = Return text →
  io.open_w (model_training_folder +:+ "/pipeline.config") w = (Raise e, w1) →
  is_IOError e = true →
  (prepare.generate_model_config model_training_folder model_repo_folder model_folder_ts
     model_config_template num_classes bucket_url training_batch_size
     training_epoch_count w).1
  = Raise (NameError "e").
Proof.
  intros Htext Hopen Hio.
  unfold prepare.generate_model_config, bind, lift. rewrite Htext.
  cbn [for_each]. unfold bind, try_except. rewrite Hopen, Hio. reflexivity.
Qed.

(** ** The assembly operations with [file_ops] as it is written *)

(** None of the four helpers is among the names that [file_ops.py]
    defines. *)
Lemma file_ops_lacks_helpers :
  file_ops.defines "get_directory_subfolders_subset" = false
  ∧ file_ops.defines "get_subfolders_in_directory" = false
  ∧ file_ops.defines "get_subfolders_names_in_directory" = false
  ∧ file_ops.defines "copy_files_from_folder" = false
  ∧ file_ops.defines "folder_exist_or_create" = true
  ∧ file_ops.defines "file_exist" = true.
Proof. repeat split; reflexivity. Qed.

(** C2: with [file_ops] as written, [compare_label_map_file] gives no
    verdict and no "insufficient data" report for any input: the lookup
    of [get_directory_subfolders_subset] raises [AttributeError] before
    any subfolder is looked at. *)
Theorem compare_label_map_file_as_written
    (base_tf_record_folder video_source : string) (w : world) :
  prepare.compare_label_map_file file_ops.as_written base_tf_record_folder video_source w
  = (Raise (AttributeError "get_directory_subfolders_subset"), w).
Proof. reflexivity. Qed.

Lemma copy_images_to_output_as_written
    (labelbox_output_folder output_folder video_source : string) (w : world) :
  prepare.copy_images_to_output file_ops.as_written labelbox_output_folder output_folder
    video_source w
  = (Raise (AttributeError "get_directory_subfolders_subset"), w).
Proof. reflexivity. Qed.

Lemma merge_prologue_effect (destination : string) (w w' : world) (r : result unit) :
  merge_prologue destination w = (r, w') → only_new_dirs w w'.
Proof.
  unfold merge_prologue, bind.
  destruct (file_ops.folder_exist_or_create (destination +:+ "/train") w)
    as [[[]|e] w1] eqn:H1.
  - intros H2. eapply only_new_dirs_trans; eapply folder_exist_or_create_effect; eauto.
  - intros [= _ <-]. eapply folder_exist_or_create_effect; eauto.
Qed.

Lemma copy_tf_records_to_training_folder_as_written
    (tf_records_folder destination video_source : string) (w : world) :
  prepare.copy_tf_records_to_training_folder file_ops.as_written tf_records_folder
    destination video_source w
  = match merge_prologue destination w with
    | (Return _, w') => (Raise (AttributeError "get_directory_subfolders_subset"), w')
    | (Raise e, w') => (Raise e, w')
    end.
Proof.
  unfold prepare.copy_tf_records_to_training_folder, merge_prologue, bind.
  destruct (file_ops.folder_exist_or_create (destination +:+ "/train") w) as [[[]|e] w1];
    [|reflexivity].
  destruct (file_ops.folder_exist_or_create (destination +:+ "/val") w1) as [[[]|e] w2];
    reflexivity.
Qed.


Lemma folder_exist_or_create_raises (p : string) (w w' : world) (e : exn) :
  file_ops.folder_exist_or_create p w = (Raise e, w') → is_IOError e = true.
Proof.
  unfold file_ops.folder_exist_or_create, bind, os.path_exists.
  destruct (bool_decide _); simpl; [discriminate|].
  unfold os.makedirs.
  destruct (existsb _ _); [now intros [= <- _]|].
  destruct (os.node_at w p); [now intros [= <- _]|].
  destruct (String.eqb p ""); [now intros [= <- _]|discriminate].
Qed.

Lemma merge_prologue_raises (destination : string) (w w' : world) (e : exn) :
  merge_prologue destination w = (Raise e, w') → is_IOError e = true.
Proof.
  unfold merge_prologue, bind.
  destruct (file_ops.folder_exist_or_create (destination +:+ "/train") w)
    as [[[]|e1] w1] eqn:H1.
  - apply folder_exist_or_create_raises.
  - intros [= <- _]. eapply folder_exist_or_create_raises; eauto.
Qed.

(** C3: with [file_ops] as written, the training-variant merge copies no
    record and writes no label map, for any input: it ends with an
    exception that is never the [IndexError] of a missing label map (it
    is the [AttributeError] of the missing helper, or the [OSError] of a
    destination folder that could not be created), and the world it
    leaves differs from the one it found by new directories at most. *)
Theorem copy_tf_records_to_training_folder_copies_nothing
    (tf_records_folder model_training_tf_records_folder video_source : string)
    (w : world) :
  ∃ e w',
    prepare.copy_tf_records_to_training_folder file_ops.as_written tf_records_folder
      model_training_tf_records_folder video_source w = (Raise e, w')
    ∧ (e = AttributeError "get_directory_subfolders_subset" ∨ is_IOError e = true)
    ∧ only_new_dirs w w'
    ∧ ∀ k c, fs w' !! k = Some (File c) ↔ fs w !! k = Some (File c).
Proof.
  rewrite copy_tf_records_to_training_folder_as_written.
  destruct (merge_prologue model_training_tf_records_folder w) as [[[]|e] w'] eqn:H.
  - exists (AttributeError "get_directory_subfolders_subset"), w'.
    pose proof (merge_prologue_effect _ _ _ _ H) as Hdirs.
    split; [reflexivity|]. split; [now left|]. split; [exact Hdirs|].
    intros k c. now apply only_new_dirs_files.
  - exists e, w'. pose proof (merge_prologue_effect _ _ _ _ H) as Hdirs.
    pose proof (merge_prologue_raises _ _ _ _ H) as He.
    split; [reflexivity|]. split; [now right|]. split; [exact Hdirs|].
    intros k c. now apply only_new_dirs_files.
Qed.

Lemma copy_tf_records_to_training_folder_scenario :
  prepare.copy_tf_records_to_training_folder file_ops.as_written "tf" "out" "camA"
    world_two_bundles
  = (Raise (AttributeError "get_directory_subfolders_subset"),
     set_fs (<[ ["out"; "val"] := Dir ]> (<[ ["out"; "train"] := Dir ]> (fs world_two_bundles)))
       world_two_bundles).
Proof. vm_compute. reflexivity. Qed.

Lemma compare_label_map_file_scenario :
  prepare.compare_label_map_file file_ops.as_written "tf" "camA" world_two_bundles
  = (Raise (AttributeError "get_directory_subfolders_subset"), world_two_bundles).
Proof. reflexivity. Qed.







(** ** Re-running the base model sync *)


Lemma sync_model_present (base_model_folder : string) (subfolders : list string)
    (models : list ModelEntry) (w : world) :
  (∀ m, m ∈ models → str_in (model_folder_name m) subfolders = true) →
  for_each models (prepare.sync_model base_model_folder subfolders) w
  = (Return tt,
     mkWorld (fs w) (http w) (requested w)
       (logged w ++ ((λ _, (INFO, "All base models are already present")) <$> models))).
Proof.
  revert w. induction models as [|m models IH]; intros w Hall.
  - simpl. rewrite app_nil_r. now destruct w.
  - cbn [for_each]. unfold bind, prepare.sync_model at 1.
    rewrite (Hall m) by now left. cbn [negb log].
    rewrite IH by (intros; apply Hall; now right).
    cbn [fs http requested logged fmap list_fmap]. rewrite <- app_assoc. reflexivity.
Qed.

(** C4: re-running the sync on a models directory that already holds a
    subfolder named [model_folder_name] for every selected catalog entry
    downloads nothing, creates no folder and leaves the directory as it
    is: the file system and the list of requests are unchanged.  This
    holds with [file_ops] as written and with any [file_ops] whose
    [get_subfolders_names_in_directory] lists the existing subfolders; in
    the second case every selected entry is skipped with the log line
    "All base models are already present". *)
Theorem download_and_extract_base_model_skips_present
    (ns : file_ops.helpers) (base_model_csv base_model_folder : string)
    (required_base_models : option (list string)) (w : world) :
  (∀ h, file_ops.get_subfolders_names_in_directory ns = Some h →
        ∀ w0, h base_model_folder w0 = (Return (subfolder_names w0 base_model_folder), w0)) →
  (∀ rows m,
     pd.read_csv base_model_csv w = (Return rows, w) →
     m ∈ prepare.select_models required_base_models rows →
     str_in (model_folder_name m) (subfolder_names w base_model_folder) = true) →
  let out :=
    prepare.download_and_extract_base_model ns base_model_csv base_model_folder
      required_base_models w in
  fs out.2 = fs w
  ∧ requested out.2 = requested w
  ∧ (∀ h rows,
       file_ops.get_subfolders_names_in_directory ns = Some h →
       pd.read_csv base_model_csv w = (Return rows, w) →
       out.1 = Return tt
       ∧ logged out.2
         = logged w
             ++ ((λ _, (INFO, "All base models are already present"))
                   <$> prepare.select_models required_base_models rows)).
Proof.
  intros Hhelper Hpresent out. subst out.
  unfold prepare.download_and_extract_base_model, bind.
  pose proof (read_csv_world base_model_csv w) as Hw.
  destruct (pd.read_csv base_model_csv w) as [[rows|e] w0] eqn:Hread;
    simpl in Hw; subst w0.
  2: { split; [|split]; [reflexivity|reflexivity|intros ? ? _ [=]]. }
  destruct (file_ops.get_subfolders_names_in_directory ns) as [h|] eqn:Hattr.
  2: { split; [|split]; [reflexivity|reflexivity|intros ? ? [=]]. }
  cbn [file_ops.getattr]. unfold ret. cbv beta iota.
  rewrite (Hhelper h eq_refl w).
  rewrite sync_model_present by (intros m Hm; eapply Hpresent; eauto).
  cbn [fst snd fs requested logged].
  split; [|split]; [reflexivity|reflexivity|].
  intros h' rows' _ [= <-]. split; reflexivity.
Qed.

Lemma download_and_extract_base_model_skips_present_witness :
  let out :=
    prepare.download_and_extract_base_model file_ops_completed
      "data/models.csv" "data/base" (Some ["SSD MobileNet v2"]) world_with_catalog in
  out.1 = Return tt
  ∧ fs out.2 = fs world_with_catalog
  ∧ requested out.2 = []
  ∧ logged out.2 = [(INFO, "All base models are already present")].
Proof.
  assert (pd.read_csv "data/models.csv" world_with_catalog
          = (Return catalog_example, world_with_catalog)) as Hread
    by (vm_compute; reflexivity).
  destruct (download_and_extract_base_model_skips_present file_ops_completed
              "data/models.csv" "data/base" (Some ["SSD MobileNet v2"])
              world_with_catalog) as (Hfs & Hreq & Hskip).
  - intros h [= <-] w0. reflexivity.
  - intros rows m Hrows Hm. rewrite Hread in Hrows. injection Hrows as <-.
    apply list_elem_of_singleton in Hm as ->. vm_compute. reflexivity.
  - destruct (Hskip _ catalog_example eq_refl Hread) as (Hout & Hlog).
    cbv zeta. rewrite Hout, Hfs, Hreq, Hlog. repeat split.
Defined.

(** ** The assembly operations once the helper exists

    With [get_directory_subfolders_subset] supplied as the spec describes
    it, the bodies of the comparison and of the merge do what the spec
    says on its scenarios. *)

Lemma compare_label_map_file_completed_match :
  (prepare.compare_label_map_file file_ops_completed "tf" "camA" world_two_bundles).1
  = Return (Some true).
Proof. vm_compute. reflexivity. Qed.

Lemma compare_label_map_file_completed_mismatch :
  (prepare.compare_label_map_file file_ops_completed "tf" "camA" world_differing_bundles).1
  = Return (Some false).
Proof. vm_compute. reflexivity. Qed.

Lemma compare_label_map_file_completed_insufficient :
  prepare.compare_label_map_file file_ops_completed "tf" "camA_1" world_two_bundles
  = (Return None,
     mkWorld (fs world_two_bundles) offline []
       [(WARNING, "There were not enough dataset to compare i.g : Less than two")]).
Proof. vm_compute. reflexivity. Qed.

Lemma copy_tf_records_to_training_folder_completed :
  let out := prepare.copy_tf_records_to_training_folder file_ops_completed "tf" "out"
               "camA" world_two_bundles in
  out.1 = Return tt
  ∧ os.listdir out.2 "out/train" = ["b_train.record"; "a_train.record"]
  ∧ os.listdir out.2 "out/val" = []
  ∧ os.node_at out.2 "out/labelmap.pbtxt" = Some (File (Bytes "item { id: 1 }")).
Proof. cbv zeta. split; [|split; [|split]]; vm_compute; reflexivity. Qed.

Lemma copy_tf_records_to_training_folder_completed_no_label_map :
  (prepare.copy_tf_records_to_training_folder file_ops_completed "tf" "out" "camB"
     world_two_bundles).1
  = Raise (IndexError "list index out of range").
Proof. vm_compute. reflexivity. Qed.

(** ** Token substitution *)

Module Substitution.
Import Text Tokens Occurrences.

(** *** Occurrences *)

Lemma prefixb_spec (p s : list ascii) : prefixb p s = true ↔ ∃ r, s = p ++ r.
Proof.
  revert s. induction p as [|a p IH]; intros s; simpl.
  - split; eauto.
  - destruct s as [|b s].
    + split; [discriminate|]. intros (r & Hr). discriminate.
    + rewrite andb_true_iff, Ascii.eqb_eq, IH. split.
      * intros (-> & r & ->). eauto.
      * intros (r & [= -> ->]). eauto.
Qed.

Lemma prefixb_app (p r : list ascii) : prefixb p (p ++ r) = true.
Proof. apply prefixb_spec. eauto. Qed.

Lemma occursb_spec (t s : list ascii) : occursb t s = true ↔ occurs t s.
Proof.
  unfold occurs. induction s as [|c s IH]; simpl.
  - rewrite orb_false_r, prefixb_spec. split.
    + intros (r & Hr). exists [], r. exact Hr.
    + intros (p & q & H). symmetry in H. apply app_eq_nil in H as (-> & H).
      eauto.
  - rewrite orb_true_iff, prefixb_spec, IH. split.
    + intros [(r & ->)|(p & q & ->)]; [exists [], r|exists (c :: p), q]; reflexivity.
    + intros ([|c' p] & q & H); simpl in H.
      * left. eauto.
      * right. injection H as -> ->. eauto.
Qed.

Lemma not_occursb (t s : list ascii) : occursb t s = false ↔ ¬ occurs t s.
Proof. rewrite <- occursb_spec. destruct (occursb t s); split; congruence. Qed.

(** An occurrence of [t] in a text that has, somewhere, a character that
    [t] lacks lies on one side of that character. *)
Lemma occurrence_avoids (c : ascii) (t : list ascii) :
  c ∉ t →
  ∀ l1 l2 p q,
    l1 ++ c :: l2 = p ++ t ++ q →
    (∃ r, l1 = p ++ t ++ r) ∨ (∃ r, p = l1 ++ c :: r).
Proof.
  intros Hc l1. induction l1 as [|a l1 IH]; intros l2 p q H.
  - destruct p as [|b p]; simpl in H.
    + destruct t as [|d t]; simpl in H.
      * left. exists []. reflexivity.
      * injection H as -> _. exfalso. apply Hc. now left.
    + injection H as -> _. right. exists p. reflexivity.
  - destruct p as [|b p]; simpl in H.
    + left. clear IH. revert a l1 H. induction t as [|d t IHt]; intros a l1 H.
      * eexists. reflexivity.
      * simpl in H. injection H as <- H.
        assert (c ∉ t) as Hc' by (intros Hin; apply Hc; now right).
        destruct l1 as [|a' l1]; simpl in H.
        -- destruct t as [|d' t]; simpl in H.
           ++ exists []. reflexivity.
           ++ injection H as -> _. exfalso. apply Hc'. now left.
        -- destruct (IHt Hc' a' l1 H) as (r & Hr). simpl in Hr. rewrite Hr.
           exists r. reflexivity.
    + injection H as <- H. destruct (IH l2 p q H) as [(r & ->)|(r & ->)].
      * left. exists r. reflexivity.
      * right. exists r. reflexivity.
Qed.

(** *** Tokens against inert values *)

Lemma tokenlike_inv (t : list ascii) :
  tokenlike t = true →
  (∃ c t', t = c :: t' ∧ is_upper c = true)
  ∧ (∃ t' c, t = t' ++ [c] ∧ is_upper c = true)
  ∧ ∀ c, c ∈ t → token_char c = true.
Proof.
  unfold tokenlike. rewrite !andb_true_iff. intros ((Hhd & Hall) & Hlast).
  split; [|split].
  - destruct t as [|c t']; [discriminate|eauto].
  - destruct (last t) as [c|] eqn:E; [|discriminate].
    apply last_Some in E as (t' & ->). eauto.
  - intros c Hc. rewrite forallb_forall in Hall. apply Hall. now apply list_elem_of_In.
Qed.

Lemma tokenlike_nonempty (t : list ascii) : tokenlike t = true → t ≠ [].
Proof. now destruct t. Qed.

Lemma edges_clear_inv (v : list ascii) :
  edges_clear v = true →
  (∃ c v', v = c :: v' ∧ token_char c = false)
  ∧ (∃ v' c, v = v' ++ [c] ∧ token_char c = false).
Proof.
  unfold edges_clear. rewrite andb_true_iff. intros (Hhd & Hlast). split.
  - destruct v as [|c v']; [discriminate|]. exists c, v'. split; [reflexivity|].
    now apply negb_true_iff.
  - destruct (last v) as [c|] eqn:E; [|discriminate].
    apply last_Some in E as (v' & ->). exists v', c. split; [reflexivity|].
    now apply negb_true_iff.
Qed.

Lemma inert_inv (tokens : list (list ascii)) (v : list ascii) :
  inert tokens v = true →
  edges_clear v = true ∧ ∀ t, t ∈ tokens → ¬ occurs t v.
Proof.
  unfold inert. rewrite andb_true_iff, forallb_forall. intros (Hedges & Hall).
  split; [exact Hedges|]. intros t Ht. apply not_occursb, negb_true_iff, Hall.
  now apply list_elem_of_In.
Qed.

(** A token never straddles a value that begins and ends with characters
    foreign to tokens and holds no occurrence of the token: an occurrence
    in [o ++ v ++ y] lies within [o] or past [v]. *)
Lemma occurrence_around_inert (t v : list ascii) :
  tokenlike t = true → edges_clear v = true → ¬ occurs t v →
  ∀ o y p q,
    o ++ v ++ y = p ++ t ++ q →
    (∃ r, o = p ++ t ++ r) ∨ (∃ r, p = o ++ v ++ r).
Proof.
  intros Ht Hv Hnone o y p q H.
  destruct (tokenlike_inv t Ht) as (_ & _ & Hchars).
  assert (∀ c, token_char c = false → c ∉ t) as Hforeign.
  { intros c Hc Hin. apply Hchars in Hin. congruence. }
  destruct (edges_clear_inv v Hv) as ((c1 & v' & Hv1 & Hc1) & (v0 & c2 & Hv2 & Hc2)).
  rewrite Hv1 in H. simpl in H.
  destruct (occurrence_avoids c1 t (Hforeign c1 Hc1) _ _ _ _ H) as [Hleft|(r & Hr)];
    [now left|].
  right. subst p. rewrite <- app_assoc in H. simpl in H.
  apply app_inv_head in H. injection H as H.
  destruct v0 as [|d v0].
  - (* [v] is the single character [c1] *)
    rewrite Hv1 in Hv2. simpl in Hv2. injection Hv2 as _ ->.
    exists r. rewrite Hv1. reflexivity.
  - rewrite Hv1 in Hv2. simpl in Hv2. injection Hv2 as <- ->.
    rewrite <- app_assoc in H. simpl in H.
    destruct (occurrence_avoids c2 t (Hforeign c2 Hc2) _ _ _ _ H) as [(r' & Hr')|(r' & Hr')].
    + exfalso. apply Hnone. exists (c1 :: r), (r' ++ [c2]).
      rewrite Hv1, Hr'. simpl. now rewrite <- !app_assoc.
    + exists r'. rewrite Hv1, Hr'. simpl. now rewrite <- !app_assoc.
Qed.

(** *** The scan *)

Lemma scan_skip (pat v x s : list ascii) :
  scan pat v (length x) (x ++ s) = scan pat v 0 s.
Proof. induction x as [|c x IH]; [reflexivity|exact IH]. Qed.

Lemma replace_all_nil (pat v : list ascii) : pat ≠ [] → replace_all pat v [] = [].
Proof. now destruct pat. Qed.

Lemma replace_all_match (pat v s : list ascii) :
  pat ≠ [] → replace_all pat v (pat ++ s) = v ++ replace_all pat v s.
Proof.
  destruct pat as [|a pat]; [congruence|]. intros _.
  pose proof (prefixb_app (a :: pat) s) as Hpre.
  unfold replace_all. cbn [app scan] in *. rewrite Hpre.
  replace (length (a :: pat) - 1) with (length pat) by (simpl; lia).
  rewrite scan_skip. reflexivity.
Qed.

Lemma replace_all_step (pat v : list ascii) (c : ascii) (s : list ascii) :
  pat ≠ [] → prefixb pat (c :: s) = false →
  replace_all pat v (c :: s) = c :: replace_all pat v s.
Proof.
  destruct pat as [|a pat]; [congruence|]. intros _ H.
  unfold replace_all. cbn [scan]. rewrite H. reflexivity.
Qed.

(** The two cases of the scan, as an induction principle on the text. *)
Lemma scan_ind (pat : list ascii) (P : list ascii → Prop) :
  pat ≠ [] →
  P [] →
  (∀ s, P s → P (pat ++ s)) →
  (∀ c s, prefixb pat (c :: s) = false → P s → P (c :: s)) →
  ∀ s, P s.
Proof.
  intros Hpat Hnil Hmatch Hstep s.
  remember (length s) as n eqn:Hn. revert s Hn.
  induction n as [n IH] using lt_wf_ind. intros s ->.
  destruct s as [|c s]; [exact Hnil|].
  destruct (prefixb pat (c :: s)) eqn:Hpre.
  - apply prefixb_spec in Hpre as (r & Hr). rewrite Hr. apply Hmatch.
    apply (IH (length r)); [|reflexivity].
    rewrite Hr, length_app. destruct pat; [congruence|simpl; lia].
  - apply Hstep; [exact Hpre|]. apply (IH (length s)); [simpl; lia|reflexivity].
Qed.

(** *** Substitution removes the token and brings none back *)

(** If every occurrence of [t] in [o ++ s] starts in [s] and [t] is the
    pattern, then no occurrence of [t] is left once [s] has been
    rewritten. *)
Lemma replace_all_clears (pat v t : list ascii) :
  tokenlike pat = true → tokenlike t = true →
  edges_clear v = true → ¬ occurs t v →
  ∀ s o,
    (∀ p q, o ++ s = p ++ t ++ q → (length o <= length p)%nat ∧ t = pat) →
    ¬ occurs t (o ++ replace_all pat v s).
Proof.
  intros Hpat Ht Hv Hnone.
  pose proof (tokenlike_nonempty pat Hpat) as Hne.
  pose proof (tokenlike_nonempty t Ht) as Htne.
  intros s. pattern s. apply (scan_ind pat); [exact Hne| | |]; clear s.
  - intros o Hocc (p & q & H). rewrite replace_all_nil in H by exact Hne.
    destruct (Hocc p q H) as (Hlen & _).
    apply (f_equal length) in H. rewrite !length_app in H. simpl in H.
    destruct t; [congruence|simpl in H; lia].
  - intros s IH o Hocc. rewrite replace_all_match by exact Hne.
    rewrite app_assoc. apply IH. intros p q H. rewrite <- app_assoc in H.
    destruct (occurrence_around_inert t v Ht Hv Hnone o s p q H) as [(r & Hr)|(r & Hr)].
    + exfalso. destruct (Hocc p (r ++ pat ++ s)) as (Hlen & _).
      { rewrite Hr, <- !app_assoc. reflexivity. }
      rewrite Hr, !length_app in Hlen. destruct t; [congruence|simpl in Hlen; lia].
    + split; [rewrite Hr, !length_app; lia|].
      subst p. rewrite <- !app_assoc in H. do 2 apply app_inv_head in H.
      destruct (Hocc (o ++ pat ++ r) q) as (_ & Heq); [|exact Heq].
      rewrite H, <- !app_assoc. reflexivity.
  - intros c s Hpre IH o Hocc. rewrite replace_all_step by assumption.
    change (o ++ c :: replace_all pat v s) with (o ++ [c] ++ replace_all pat v s).
    rewrite app_assoc. apply IH. intros p q H. rewrite <- app_assoc in H. simpl in H.
    destruct (Hocc p q H) as (Hlen & Heq). split; [|exact Heq].
    rewrite length_app. simpl.
    destruct (decide (length p = length o)) as [Hsame|]; [|lia].
    exfalso. apply app_inj_1 in H as (-> & H); [|now symmetry].
    subst t. rewrite (proj2 (prefixb_spec pat (c :: s))) in Hpre; [discriminate|eauto].
Qed.

Lemma replace_all_removes (pat v s : list ascii) :
  tokenlike pat = true → edges_clear v = true → ¬ occurs pat v →
  ¬ occurs pat (replace_all pat v s).
Proof.
  intros Hpat Hv Hnone. apply (replace_all_clears pat v pat Hpat Hpat Hv Hnone s []).
  intros p q _. split; [simpl; lia|reflexivity].
Qed.

Lemma replace_all_keeps_absent (pat v t s : list ascii) :
  tokenlike pat = true → tokenlike t = true →
  edges_clear v = true → ¬ occurs t v →
  ¬ occurs t s → ¬ occurs t (replace_all pat v s).
Proof.
  intros Hpat Ht Hv Hnone Habsent.
  apply (replace_all_clears pat v t Hpat Ht Hv Hnone s []).
  intros p q H. exfalso. apply Habsent. exists p, q. exact H.
Qed.

(** *** Substitution on the two sides of a cut *)

Lemma replace_all_cut (pat v b : list ascii) :
  pat ≠ [] →
  ∀ a, clean_cut pat a b →
       replace_all pat v (a ++ b) = replace_all pat v a ++ replace_all pat v b.
Proof.
  intros Hne a. pattern a. apply (scan_ind pat); [exact Hne| | |]; clear a.
  - intros _. now rewrite replace_all_nil.
  - intros a IH Hcut. rewrite <- app_assoc, !replace_all_match by exact Hne.
    rewrite IH, app_assoc; [reflexivity|].
    intros p q H.
    { 
      destruct (Hcut (pat ++ p) q) as [(r & Hr)|(r & Hr)].
      * rewrite <- !app_assoc, H. reflexivity.
      * left. exists r. rewrite <- !app_assoc in Hr. now apply app_inv_head in Hr.
      * right. exists r. rewrite <- !app_assoc in Hr. now apply app_inv_head in Hr. }
  - intros c a Hpre IH Hcut.
    assert (prefixb pat (c :: a ++ b) = false) as Hpre'.
    { destruct (prefixb pat (c :: a ++ b)) eqn:E; [|reflexivity].
      apply prefixb_spec in E as (r & Hr).
      destruct (Hcut [] r) as [(r' & Hr')|(r' & Hr')]; [exact Hr| |discriminate].
      simpl in Hr'. rewrite (proj2 (prefixb_spec pat (c :: a))) in Hpre; eauto. }
    simpl. rewrite !replace_all_step by assumption. rewrite IH; [reflexivity|].
    intros p q H. destruct (Hcut (c :: p) q) as [(r & Hr)|(r & Hr)].
    + simpl. now rewrite H.
    + left. exists r. now injection Hr.
    + right. exists r. now injection Hr.
Qed.

Lemma replace_all_absent (pat v s : list ascii) :
  pat ≠ [] → ¬ occurs pat s → replace_all pat v s = s.
Proof.
  intros Hne. induction s as [|c s IH]; intros Habsent.
  - now apply replace_all_nil.
  - rewrite replace_all_step, IH; [reflexivity| |exact Hne|].
    + intros (p & q & ->). apply Habsent. now exists (c :: p), q.
    + destruct (prefixb pat (c :: s)) eqn:E; [|reflexivity].
      apply prefixb_spec in E as (r & Hr). exfalso. apply Habsent. now exists [], r.
Qed.

Lemma replace_all_self (pat v : list ascii) : pat ≠ [] → replace_all pat v pat = v.
Proof.
  intros Hne. rewrite <- (app_nil_r pat) at 2.
  rewrite replace_all_match, replace_all_nil, app_nil_r by exact Hne. reflexivity.
Qed.

(** *** Values that were inserted stay *)

Lemma replace_all_keeps_inert (pat v w s : list ascii) :
  tokenlike pat = true → edges_clear w = true → ¬ occurs pat w →
  occurs w s → occurs w (replace_all pat v s).
Proof.
  intros Hpat Hw Hnone (p & q & ->).
  pose proof (tokenlike_nonempty pat Hpat) as Hne.
  rewrite replace_all_cut, replace_all_cut; [| assumption | | assumption |].
  - rewrite (replace_all_absent pat v w Hne Hnone).
    now exists (replace_all pat v p), (replace_all pat v q).
  - intros p' q' H.
    destruct (occurrence_around_inert pat w Hpat Hw Hnone [] q p' q' H) as [(r & Hr)|(r & Hr)].
    + symmetry in Hr. apply app_eq_nil in Hr as (_ & Hr).
      apply app_eq_nil in Hr as (-> & _). congruence.
    + right. exists r. exact Hr.
  - intros p' q' H.
    destruct (occurrence_around_inert pat w Hpat Hw Hnone p q p' q' H) as [(r & Hr)|(r & Hr)].
    + left. eauto.
    + right. exists (w ++ r). exact Hr.
Qed.

(** *** Delimited occurrences *)

Lemma delimited_from_sound (t : list ascii) :
  ∀ s o b,
    (b = true → ends_clear o) →
    delimited_from b t s = true →
    ∃ p q, o ++ s = p ++ t ++ q ∧ ends_clear p ∧ next_clear q = true.
Proof.
  assert (∀ s o b, (b = true → ends_clear o) →
                   b && prefixb t s && next_clear (drop (length t) s) = true →
                   ∃ p q, o ++ s = p ++ t ++ q ∧ ends_clear p ∧ next_clear q = true)
    as Hhere.
  { intros s o b Hb H. apply andb_true_iff in H as (H & Hnext).
    apply andb_true_iff in H as (-> & Hpre).
    apply prefixb_spec in Hpre as (r & ->). rewrite drop_app_length in Hnext.
    exists o, r. auto. }
  induction s as [|c s IH]; intros o b Hb H; simpl in H; apply orb_true_iff in H.
  - destruct H as [H|H]; [|discriminate]. now apply (Hhere [] o b).
  - destruct H as [H|H]; [now apply (Hhere (c :: s) o b)|].
    assert (negb (token_char c) = true → ends_clear (o ++ [c])) as Hc.
    { intros Hc d Hd. rewrite last_snoc in Hd. injection Hd as <-.
      now apply negb_true_iff. }
    destruct (IH (o ++ [c]) _ Hc H) as (p & q & Heq & Hp & Hq).
    exists p, q. rewrite <- Heq, <- app_assoc. auto.
Qed.

Lemma delimited_sound (token template : string) :
  delimited token template = true → delimited_in (chars token) (chars template).
Proof.
  intros H. apply (delimited_from_sound _ _ [] true); [|exact H].
  intros _ c Hc. discriminate.
Qed.

Lemma clear_char_not_in_token (pat : list ascii) (d : ascii) :
  tokenlike pat = true → token_char d = false → d ∉ pat.
Proof.
  intros Hpat Hd Hin. destruct (tokenlike_inv pat Hpat) as (_ & _ & Hchars).
  rewrite (Hchars d Hin) in Hd. discriminate.
Qed.

Lemma cut_after_clear_end (pat p b : list ascii) :
  tokenlike pat = true → ends_clear p → clean_cut pat p b.
Proof.
  intros Hpat Hp p' q H. destruct p as [|d p0 _] using rev_ind.
  - right. now exists p'.
  - assert (token_char d = false) as Hd by (apply Hp, last_snoc).
    rewrite <- app_assoc in H. simpl in H.
    destruct (occurrence_avoids d pat (clear_char_not_in_token pat d Hpat Hd) _ _ _ _ H)
      as [(r & ->)|(r & ->)].
    + left. exists (r ++ [d]). now rewrite <- !app_assoc.
    + right. exists r. now rewrite <- app_assoc.
Qed.

Lemma cut_before_clear_start (pat a q : list ascii) :
  tokenlike pat = true → next_clear q = true → clean_cut pat a q.
Proof.
  intros Hpat Hq p' q' H. destruct q as [|e q0].
  - left. exists q'. now rewrite app_nil_r in H.
  - simpl in Hq. apply negb_true_iff in Hq.
    destruct (occurrence_avoids e pat (clear_char_not_in_token pat e Hpat Hq) _ _ _ _ H)
      as [(r & ->)|(r & ->)]; [left|right]; eauto.
Qed.

Lemma replace_all_clear_char (pat v : list ascii) (d : ascii) :
  tokenlike pat = true → token_char d = false → replace_all pat v [d] = [d].
Proof.
  intros Hpat Hd. apply replace_all_absent; [now apply tokenlike_nonempty|].
  intros (p & q & H).
  destruct (tokenlike_inv pat Hpat) as ((c & t' & -> & _) & _ & Hchars).
  assert (c ∈ [d]) as Hin by (rewrite H; apply elem_of_app; right; now left).
  apply list_elem_of_singleton in Hin as ->.
  rewrite Hchars in Hd; [discriminate|now left].
Qed.

Lemma replace_all_ends_clear (pat v p : list ascii) :
  tokenlike pat = true → ends_clear p → ends_clear (replace_all pat v p).
Proof.
  intros Hpat Hp. pose proof (tokenlike_nonempty pat Hpat) as Hne.
  destruct p as [|d p0 _] using rev_ind.
  - now rewrite replace_all_nil.
  - assert (token_char d = false) as Hd by (apply Hp, last_snoc).
    rewrite replace_all_cut;
      [|exact Hne
       |apply cut_before_clear_start; [exact Hpat|simpl; now apply negb_true_iff]].
    rewrite replace_all_clear_char by assumption.
    intros c Hc. rewrite last_snoc in Hc. now injection Hc as <-.
Qed.

Lemma replace_all_next_clear (pat v q : list ascii) :
  tokenlike pat = true → next_clear q = true → next_clear (replace_all pat v q) = true.
Proof.
  intros Hpat Hq. pose proof (tokenlike_nonempty pat Hpat) as Hne.
  destruct q as [|e q0]; [now rewrite replace_all_nil|].
  rewrite replace_all_step; [exact Hq|exact Hne|].
  destruct (prefixb pat (e :: q0)) eqn:E; [|reflexivity].
  apply prefixb_spec in E as (r & Hr).
  simpl in Hq. apply negb_true_iff in Hq.
  exfalso. apply (clear_char_not_in_token pat e Hpat Hq).
  destruct pat as [|c pat]; [congruence|]. injection Hr as -> _. now left.
Qed.

(** Substituting another token leaves a delimited occurrence delimited. *)
Lemma replace_all_keeps_delimited (pat v t s : list ascii) :
  tokenlike pat = true → ¬ occurs pat t →
  delimited_in t s → delimited_in t (replace_all pat v s).
Proof.
  intros Hpat Hout (p & q & -> & Hp & Hq).
  pose proof (tokenlike_nonempty pat Hpat) as Hne.
  exists (replace_all pat v p), (replace_all pat v q).
  rewrite (replace_all_cut pat v (t ++ q) Hne p (cut_after_clear_end pat p _ Hpat Hp)).
  rewrite (replace_all_cut pat v q Hne t (cut_before_clear_start pat t q Hpat Hq)).
  rewrite (replace_all_absent pat v t Hne Hout).
  split; [reflexivity|]. split.
  - now apply replace_all_ends_clear.
  - now apply replace_all_next_clear.
Qed.

(** Substituting a token that has a delimited occurrence inserts the
    value. *)
Lemma replace_all_inserts (pat v s : list ascii) :
  tokenlike pat = true → delimited_in pat s → occurs v (replace_all pat v s).
Proof.
  intros Hpat (p & q & -> & Hp & Hq).
  pose proof (tokenlike_nonempty pat Hpat) as Hne.
  rewrite (replace_all_cut pat v (pat ++ q) Hne p (cut_after_clear_end pat p _ Hpat Hp)).
  rewrite (replace_all_cut pat v q Hne pat (cut_before_clear_start pat pat q Hpat Hq)).
  rewrite (replace_all_self pat v Hne).
  now exists (replace_all pat v p), (replace_all pat v q).
Qed.

(** *** The chain of substitutions *)

Lemma well_formed_cons tokens t v subs :
  well_formed tokens ((t, v) :: subs) →
  tokenlike t = true ∧ t ∈ tokens ∧ inert tokens v = true ∧ well_formed tokens subs.
Proof.
  intros H. destruct (H t v) as (Ht & Hin & Hv); [now left|].
  split; [exact Ht|]. split; [exact Hin|]. split; [exact Hv|].
  intros t' v' Hin'. apply H. now right.
Qed.

Lemma chain_keeps_inert tokens (subs : list (list ascii * list ascii)) (w : list ascii) :
  well_formed tokens subs → inert tokens w = true →
  ∀ s, occurs w s → occurs w (chain subs s).
Proof.
  intros Hsubs Hw. destruct (inert_inv tokens w Hw) as (Hedges & Hnone).
  induction subs as [|[t v] subs IH]; intros s Hs; [exact Hs|].
  apply well_formed_cons in Hsubs as (Ht & Hin & Hv & Hsubs).
  simpl. apply IH; [exact Hsubs|]. apply replace_all_keeps_inert; auto.
Qed.

Lemma chain_keeps_absent tokens (subs : list (list ascii * list ascii)) (t : list ascii) :
  well_formed tokens subs → tokenlike t = true → t ∈ tokens →
  ∀ s, ¬ occurs t s → ¬ occurs t (chain subs s).
Proof.
  intros Hsubs Ht Hin. induction subs as [|[t' v] subs IH]; intros s Hs; [exact Hs|].
  apply well_formed_cons in Hsubs as (Ht' & Hin' & Hv & Hsubs).
  destruct (inert_inv tokens v Hv) as (Hedges & Hnone).
  simpl. apply IH; [exact Hsubs|]. apply replace_all_keeps_absent; auto.
Qed.

(** After the chain no token is left and every value is in the text,
    provided the tokens do not occur in one another, the values are inert
    and every token has a delimited occurrence in the template. *)
Lemma chain_spec tokens (subs : list (list ascii * list ascii)) :
  well_formed tokens subs →
  independent (fst <$> subs) = true →
  ∀ s,
    (∀ t v, (t, v) ∈ subs → delimited_in t s) →
    ∀ t v, (t, v) ∈ subs →
           ¬ occurs t (chain subs s) ∧ occurs v (chain subs s).
Proof.
  induction subs as [|[t0 v0] subs IH]; intros Hsubs Hind s Hdel t v Hin.
  - inversion Hin.
  - apply well_formed_cons in Hsubs as (Ht0 & Hin0 & Hv0 & Hsubs).
    destruct (inert_inv tokens v0 Hv0) as (Hedges & Hnone).
    simpl in Hind. apply andb_true_iff in Hind as (Hfirst & Hind).
    rewrite forallb_forall in Hfirst.
    cbn [chain]. apply elem_of_cons in Hin as [[= -> ->]|Hin].
    + split.
      * apply (chain_keeps_absent tokens); [assumption..|].
        apply replace_all_removes; auto.
      * apply (chain_keeps_inert tokens); [assumption..|].
        apply replace_all_inserts; [assumption|]. apply (Hdel t0 v0). now left.
    + apply IH; try assumption. intros t' v' Hin'.
      apply replace_all_keeps_delimited; [assumption| |].
      * apply not_occursb, negb_true_iff, Hfirst.
        apply list_elem_of_In, list_elem_of_fmap. now exists (t', v').
      * apply (Hdel t' v'). now right.
Qed.

End Substitution.

(** ** From texts to strings *)

Module ConfigText.
Import Text Tokens Occurrences Substitution.

Lemma chars_text (l : list ascii) : chars (text l) = l.
Proof. apply String.list_ascii_of_string_of_list_ascii. Qed.

Lemma text_chars (s : string) : text (chars s) = s.
Proof. apply String.string_of_list_ascii_of_string. Qed.

Lemma chars_app (a b : string) : chars (a +:+ b) = chars a ++ chars b.
Proof. induction a as [|c a IH]; simpl; [reflexivity|]. now rewrite <- IH. Qed.

Lemma contains_true (needle hay : string) :
  contains needle hay = true ↔ occurs (chars needle) (chars hay).
Proof. apply occursb_spec. Qed.

Lemma contains_false (needle hay : string) :
  contains needle hay = false ↔ ¬ occurs (chars needle) (chars hay).
Proof. apply not_occursb. Qed.

(** A replacement without backslash is its own expansion. *)
Lemma expand_plain (m repl : list ascii) :
  plain repl = true → re.expand re.Plain m repl = Return repl.
Proof.
  induction repl as [|c repl IH]; intros H; [reflexivity|].
  simpl in H. apply andb_true_iff in H as (Hc & H).
  cbn [re.expand]. rewrite Hc, (IH H). reflexivity.
Qed.

Lemma sub_plain (pattern repl s : string) :
  plain (chars repl) = true →
  re.sub pattern repl s
  = Return (text (replace_all (chars pattern) (chars repl) (chars s))).
Proof. intros H. unfold re.sub. now rewrite expand_plain. Qed.

Lemma fill_chain (subs : list (string * string)) :
  (∀ t v, (t, v) ∈ subs → plain (chars v) = true) →
  ∀ template,
    prepare.fill subs template = Return (text (chain (as_chars subs) (chars template))).
Proof.
  induction subs as [|[t v] subs IH]; intros Hplain template.
  - simpl. now rewrite text_chars.
  - cbn [prepare.fill]. rewrite sub_plain by (apply (Hplain t v); now left).
    cbn [result_bind]. rewrite IH by (intros t' v' Hin; apply (Hplain t' v'); now right).
    simpl. now rewrite chars_text.
Qed.

Lemma result_bind_ext {A B} (r : result A) (k k' : A → result B) :
  (∀ a, k a = k' a) → result_bind r k = result_bind r k'.
Proof. intros H. destruct r; simpl; [apply H|reflexivity]. Qed.

Lemma result_bind_Return {A} (r : result A) : result_bind r Return = r.
Proof. now destruct r. Qed.

(** The seven calls of [generate_model_config] are the chain over the
    tokens and their values. *)
Lemma config_text_fill
    (model_folder_ts template num_classes bucket_url batch epoch : string) :
  prepare.config_text model_folder_ts template num_classes bucket_url batch epoch
  = prepare.fill
      (zip prepare.tokens
         (prepare.substitutions model_folder_ts num_classes bucket_url batch epoch))
      template.
Proof.
  unfold prepare.config_text, prepare.tokens, prepare.substitutions.
  cbn [zip zip_with prepare.fill].
  repeat (apply result_bind_ext; intros ?).
  symmetry. apply result_bind_Return.
Qed.

Lemma token_texts_tokenlike : ∀ t, t ∈ token_texts → tokenlike t = true.
Proof.
  intros t Ht. unfold token_texts, prepare.tokens in Ht. cbn [fmap list_fmap] in Ht.
  repeat (apply elem_of_cons in Ht as [->|Ht]; [reflexivity|]).
  inversion Ht.
Qed.

Lemma holds_no_token_spec (s : string) :
  holds_no_token s = true → ∀ t, t ∈ token_texts → ¬ occurs t (chars s).
Proof.
  unfold holds_no_token. rewrite forallb_forall. intros H t Ht.
  apply not_occursb, negb_true_iff, H. now apply list_elem_of_In.
Qed.

(** A token that occurs in a path occurs in one of its three parts. *)
Lemma path_lacks_token (t b f rest : list ascii) :
  tokenlike t = true →
  ¬ occurs t b → ¬ occurs t f → ¬ occurs t rest →
  ¬ occurs t (b ++ "/"%char :: f ++ "/"%char :: rest).
Proof.
  intros Ht Hb Hf Hrest (p & q & H).
  assert ("/"%char ∉ t) as Hslash.
  { intros Hin. destruct (tokenlike_inv t Ht) as (_ & _ & Hchars).
    apply Hchars in Hin. discriminate. }
  destruct (occurrence_avoids _ t Hslash _ _ _ _ H) as [(r & Hr)|(r & Hr)].
  - apply Hb. now exists p, r.
  - subst p. rewrite <- app_assoc in H. simpl in H.
    apply app_inv_head in H. injection H as H.
    destruct (occurrence_avoids _ t Hslash _ _ _ _ H) as [(r' & Hr')|(r' & Hr')].
    + apply Hf. now exists r, r'.
    + subst r. rewrite <- app_assoc in H. simpl in H.
      apply app_inv_head in H. injection H as H.
      apply Hrest. now exists r', q.
Qed.

(** The four paths are safe values when the bucket URL and the folder
    name are safe and the rest of the path is. *)
Lemma path_value_safe (bucket_url model_folder_ts rest : string) :
  bucket_safe bucket_url = true → folder_safe model_folder_ts = true →
  folder_safe rest = true →
  match last (chars rest) with Some c => negb (token_char c) | None => false end = true →
  value_safe (bucket_url +:+ "/" +:+ model_folder_ts +:+ String "/" rest) = true.
Proof.
  unfold bucket_safe, folder_safe, value_safe, inert, edges_clear.
  rewrite !andb_true_iff.
  intros ((Hfirst & Hb) & Hbp) (Hf & Hfp) (Hr & Hrp) Hlast.
  rewrite !chars_app.
  change (chars "/") with ["/"%char].
  change (chars (String "/" rest)) with ("/"%char :: chars rest).
  split; [split; [split|]|].
  - destruct (chars bucket_url); [discriminate|exact Hfirst].
  - destruct (last (chars rest)) as [c|] eqn:E; [|discriminate].
    apply last_Some in E as (l & ->).
    change ("/"%char :: l ++ [c]) with (("/"%char :: l) ++ [c]).
    rewrite !app_assoc, last_snoc. exact Hlast.
  - apply forallb_forall. intros t Ht. apply list_elem_of_In in Ht.
    apply negb_true_iff, not_occursb.
    apply (path_lacks_token t (chars bucket_url) (chars model_folder_ts) (chars rest)).
    + now apply token_texts_tokenlike.
    + now apply holds_no_token_spec.
    + now apply holds_no_token_spec.
    + now apply holds_no_token_spec.
  - unfold plain in *. rewrite !forallb_app, Hbp, Hfp. simpl. exact Hrp.
Qed.

Lemma substitutions_safe (model_folder_ts num_classes bucket_url batch epoch : string) :
  bucket_safe bucket_url = true → folder_safe model_folder_ts = true →
  value_safe num_classes = true → value_safe batch = true → value_safe epoch = true →
  ∀ v, v ∈ prepare.substitutions model_folder_ts num_classes bucket_url batch epoch →
       value_safe v = true.
Proof.
  intros Hb Ht Hn Hbs He v Hv. unfold prepare.substitutions in Hv.
  repeat (apply elem_of_cons in Hv as [->|Hv];
          [first [assumption
                 | apply path_value_safe;
                   [assumption|assumption|vm_compute; reflexivity..]]|]).
  inversion Hv.
Qed.

Lemma tokens_tokenlike : ∀ t, t ∈ prepare.tokens → tokenlike (chars t) = true.
Proof.
  intros t Ht. unfold prepare.tokens in Ht.
  repeat (apply elem_of_cons in Ht as [->|Ht]; [reflexivity|]).
  inversion Ht.
Qed.

Lemma tokens_independent : independent (chars <$> prepare.tokens) = true.
Proof. vm_compute. reflexivity. Qed.

Lemma elem_of_zip {A B} (x : A) (y : B) (xs : list A) (ys : list B) :
  (x, y) ∈ zip xs ys → x ∈ xs ∧ y ∈ ys.
Proof.
  revert ys. induction xs as [|a xs IH]; intros [|b ys] H; simpl in H;
    try (now inversion H).
  apply elem_of_cons in H as [[= -> ->]|H].
  - split; now left.
  - destruct (IH ys H). split; now right.
Qed.

Lemma zip_covers {A B} (xs : list A) (ys : list B) :
  length xs = length ys →
  (∀ x, x ∈ xs → ∃ y, (x, y) ∈ zip xs ys) ∧ (∀ y, y ∈ ys → ∃ x, (x, y) ∈ zip xs ys).
Proof.
  revert ys. induction xs as [|a xs IH]; intros [|b ys] Hlen; try discriminate.
  - split; intros ? H; inversion H.
  - injection Hlen as Hlen. destruct (IH ys Hlen) as (Hl & Hr). split.
    + intros x Hx. apply elem_of_cons in Hx as [->|Hx].
      * exists b. now left.
      * destruct (Hl x Hx) as (y & Hy). exists y. now right.
    + intros y Hy. apply elem_of_cons in Hy as [->|Hy].
      * exists a. now left.
      * destruct (Hr y Hy) as (x & Hx). exists x. now right.
Qed.

(** The text of the configuration has no token left and holds every
    substituted value. *)
Lemma config_text_spec
    (model_folder_ts template num_classes bucket_url batch epoch : string) :
  bucket_safe bucket_url = true → folder_safe model_folder_ts = true →
  value_safe num_classes = true → value_safe batch = true → value_safe epoch = true →
  (∀ token, token ∈ prepare.tokens → delimited token template = true) →
  ∃ out,
    prepare.config_text model_folder_ts template num_classes bucket_url batch epoch
    = Return out
    ∧ (∀ token, token ∈ prepare.tokens → contains token out = false)
    ∧ (∀ value,
         value ∈ prepare.substitutions model_folder_ts num_classes bucket_url batch epoch →
         contains value out = true).
Proof.
  intros Hb Ht Hn Hbs He Hdel.
  set (values := prepare.substitutions model_folder_ts num_classes bucket_url batch epoch).
  pose proof (substitutions_safe _ _ _ _ _ Hb Ht Hn Hbs He) as Hsafe. fold values in Hsafe.
  set (subs := zip prepare.tokens values).
  assert (∀ t v, (t, v) ∈ subs → t ∈ prepare.tokens ∧ v ∈ values) as Hzip
    by (intros t v; apply elem_of_zip).
  assert (well_formed token_texts (as_chars subs)) as Hwf.
  { intros t v Hin. apply list_elem_of_fmap in Hin as ([t' v'] & [= -> ->] & Hin).
    apply Hzip in Hin as (Htok & Hval). split; [now apply tokens_tokenlike|].
    split; [apply list_elem_of_fmap; now exists t'|].
    apply Hsafe in Hval. unfold value_safe in Hval. now apply andb_true_iff in Hval. }
  assert (independent (fst <$> as_chars subs) = true) as Hind
    by (vm_compute; reflexivity).
  assert (∀ t v, (t, v) ∈ as_chars subs → delimited_in t (chars template)) as Hdel'.
  { intros t v Hin. apply list_elem_of_fmap in Hin as ([t' v'] & [= -> ->] & Hin).
    apply Hzip in Hin as (Htok & _). apply delimited_sound, Hdel, Htok. }
  pose proof (chain_spec token_texts (as_chars subs) Hwf Hind (chars template) Hdel')
    as Hspec.
  exists (text (chain (as_chars subs) (chars template))). split; [|split].
  - rewrite config_text_fill. apply fill_chain. intros t v Hin.
    apply Hzip in Hin as (_ & Hval). apply Hsafe in Hval.
    unfold value_safe in Hval. now apply andb_true_iff in Hval.
  - intros token Htok. apply contains_false. rewrite chars_text.
    destruct (proj1 (zip_covers prepare.tokens values eq_refl) token Htok) as (v & Hin).
    apply (Hspec (chars token) (chars v)).
    apply list_elem_of_fmap. now exists (token, v).
  - intros value Hval. apply contains_true. rewrite chars_text.
    destruct (proj2 (zip_covers prepare.tokens values eq_refl) value Hval) as (t & Hin).
    apply (Hspec (chars t) (chars value)).
    apply list_elem_of_fmap. now exists (t, value).
Qed.

End ConfigText.

(** ** Writing the configuration *)

Module ConfigFiles.
Import Text.

Lemma split_on_app (sep : ascii) (x y acc : list ascii) :
  split_on sep acc (x ++ sep :: y) = split_on sep acc x ++ split_on sep [] y.
Proof.
  revert acc. induction x as [|c x IH]; intros acc; simpl.
  - now rewrite Ascii.eqb_refl.
  - destruct (Ascii.eqb c sep); simpl; now rewrite IH.
Qed.

Lemma filter_app_list {A} (f : A → bool) (l1 l2 : list A) :
  List.filter f (l1 ++ l2) = List.filter f l1 ++ List.filter f l2.
Proof. induction l1 as [|a l1 IH]; simpl; [reflexivity|]. destruct (f a); simpl; now rewrite IH. Qed.

(** The configuration file is the entry [pipeline.config] of its folder. *)
Lemma split_path_config_file (folder : string) :
  os.split_path (config_file folder) = os.split_path folder ++ ["pipeline.config"].
Proof.
  unfold os.split_path, config_file.
  rewrite ConfigText.chars_app.
  change (chars "/pipeline.config") with ("/"%char :: chars "pipeline.config").
  rewrite split_on_app, fmap_app, filter_app_list. reflexivity.
Qed.

Lemma config_file_not_empty (folder : string) : String.eqb (config_file folder) "" = false.
Proof. unfold config_file. now destruct folder. Qed.

Lemma node_at_config_file (w : world) (folder : string) :
  os.node_at w (config_file folder)
  = fs w !! (os.split_path folder ++ ["pipeline.config"]).
Proof.
  unfold os.node_at. rewrite config_file_not_empty, split_path_config_file.
  now destruct (os.split_path folder).
Qed.

Lemma parent_of_config_file (w : world) (folder : string) :
  os.node_at w folder = Some Dir →
  os.parent_error w (config_file folder) (os.split_path (config_file folder)) = None.
Proof.
  intros Hdir. unfold os.parent_error, os.parent_state.
  rewrite split_path_config_file, removelast_last.
  unfold os.node_at in Hdir. destruct (String.eqb folder ""); [discriminate|].
  destruct (os.split_path folder); [reflexivity|]. now rewrite Hdir.
Qed.

Lemma holds_config_spec (w : world) (folder : string) :
  holds_config w folder = true ↔
  os.node_at w folder = Some Dir ∧ fs w !! config_key folder ≠ Some Dir.
Proof.
  unfold holds_config. rewrite node_at_config_file. fold (config_key folder).
  destruct (os.node_at w folder) as [[|c]|]; [|split; [discriminate|intros [[=] _]]..].
  destruct (fs w !! config_key folder) as [[|c]|]; split; try discriminate; auto.
  intros (_ & H). congruence.
Qed.

(** Storing the configuration of a folder that can hold it. *)
Lemma store_config (w : world) (folder : string) (c : content) :
  holds_config w folder = true →
  io.store (config_file folder) c w
  = (Return tt, set_fs (<[config_key folder := File c]> (fs w)) w).
Proof.
  intros H. apply holds_config_spec in H as (Hdir & Hfile).
  unfold io.store. rewrite (parent_of_config_file w folder Hdir), node_at_config_file.
  rewrite config_file_not_empty, split_path_config_file. fold (config_key folder).
  destruct (fs w !! config_key folder) as [[|c']|]; [congruence|reflexivity..].
Qed.

Lemma load_config (w : world) (folder : string) (c : content) :
  fs w !! config_key folder = Some (File c) →
  io.load (config_file folder) w = (Return c, w).
Proof. intros H. unfold io.load. rewrite node_at_config_file. fold (config_key folder). now rewrite H. Qed.

Lemma config_key_not_folder (folder : string) : config_key folder ≠ os.split_path folder.
Proof.
  unfold config_key. intros H. apply (f_equal length) in H.
  rewrite length_app in H. simpl in H. lia.
Qed.

(** Writing a file leaves the directories directories, and the files
    that could be written writable. *)
Lemma holds_config_after_store (w : world) (k : list string) (c : content)
    (folder : string) :
  fs w !! k ≠ Some Dir →
  holds_config w folder = true →
  holds_config (set_fs (<[k := File c]> (fs w)) w) folder = true.
Proof.
  intros Hk H. apply holds_config_spec in H as (Hdir & Hfile).
  apply holds_config_spec. split.
  - unfold os.node_at in *. destruct (String.eqb folder ""); [discriminate|].
    destruct (os.split_path folder) as [|a l] eqn:E; [reflexivity|].
    simpl. rewrite lookup_insert_ne; [exact Hdir|]. congruence.
  - simpl. destruct (decide (k = config_key folder)) as [->|Hne].
    + rewrite lookup_insert_eq. discriminate.
    + now rewrite lookup_insert_ne.
Qed.

Lemma holds_config_log (w : world) (folder : string) (l : list (level * string)) :
  holds_config (mkWorld (fs w) (http w) (requested w) l) folder = holds_config w folder.
Proof. reflexivity. Qed.

Lemma write_config_spec (w : world) (folder text : string) :
  holds_config w folder = true →
  write_config text folder w
  = (Return tt,
     mkWorld (<[config_key folder := File (Bytes text)]> (fs w)) (http w) (requested w)
       (logged w
          ++ [(INFO, "Model config file has been created successfully at "
                       +:+ config_file folder)])).
Proof.
  intros H. unfold write_config, bind, io.open_w.
  rewrite (store_config w folder _ H).
  set (w1 := set_fs _ w).
  assert (holds_config w1 folder = true) as H1.
  { apply holds_config_after_store; [|exact H].
    apply holds_config_spec in H as (_ & H). exact H. }
  unfold io.write, bind.
  rewrite (load_config w1 folder (Bytes "")) by apply lookup_insert_eq.
  rewrite (store_config w1 folder _ H1).
  unfold log, w1, set_fs. cbn [fs http requested logged].
  rewrite insert_insert_eq. reflexivity.
Qed.

End ConfigFiles.

(** ** Config generation *)

Section GenerateModelConfig.
Import ConfigFiles.

Lemma read_config (w : world) (folder text : string) :
  fs w !! config_key folder = Some (File (Bytes text)) →
  io.read_text (config_file folder) w = (Return text, w).
Proof. intros H. unfold io.read_text, bind. now rewrite (load_config w folder _ H). Qed.

(** With the text of the configuration computed, and two folders that
    can hold it, [generate_model_config] writes that text to both. *)
Lemma generate_model_config_writes
    (model_training_folder model_repo_folder model_folder_ts model_config_template
       num_classes bucket_url training_batch_size training_epoch_count : string)
    (text : string) (w : world) :
  prepare.config_text model_folder_ts model_config_template num_classes bucket_url
    training_batch_size training_epoch_count = Return text →
  holds_config w model_training_folder = true →
  holds_config w model_repo_folder = true →
  ∃ w',
    prepare.generate_model_config model_training_folder model_repo_folder model_folder_ts
      model_config_template num_classes bucket_url training_batch_size
      training_epoch_count w = (Return tt, w')
    ∧ fs w' = <[config_key model_repo_folder := File (Bytes text)]>
                (<[config_key model_training_folder := File (Bytes text)]> (fs w))
    ∧ requested w' = requested w.
Proof.
  intros Htext Htrain Hrepo.
  pose proof (write_config_spec w model_training_folder text Htrain) as Hfirst.
  set (w1 := mkWorld _ _ _ _) in Hfirst.
  assert (holds_config w1 model_repo_folder = true) as Hrepo1.
  { apply (holds_config_after_store w (config_key model_training_folder)
             (Bytes text) model_repo_folder); [|exact Hrepo].
    apply holds_config_spec in Htrain as (_ & H). exact H. }
  pose proof (write_config_spec w1 model_repo_folder text Hrepo1) as Hsecond.
  unfold write_config, config_file in Hfirst, Hsecond.
  unfold prepare.generate_model_config, lift.
  unfold bind at 1. rewrite Htext.
  unfold bind at 1. cbn [for_each].
  unfold bind at 1. unfold try_except at 1. rewrite Hfirst.
  unfold bind at 1. unfold try_except at 1. rewrite Hsecond.
  eexists. split; [reflexivity|]. split; reflexivity.
Qed.

(** C1, amended: for a template in which each of the seven tokens occurs
    between characters that are neither upper-case letters nor
    underscores (or at an end of the text), and for inputs that hold no
    token and no backslash (the bucket URL beginning, and the three
    numbers beginning and ending, with a character that is neither an
    upper-case letter nor an underscore), the generated text has no
    occurrence of any token and contains the seven substituted values
    verbatim; and, when both folders exist and neither [pipeline.config]
    is a directory, the call returns normally with that same text in the
    [pipeline.config] of the training tree and of the model repo tree. *)
Theorem generate_model_config_fills_template
    (model_training_folder model_repo_folder model_folder_ts model_config_template
       num_classes bucket_url training_batch_size training_epoch_count : string)
    (w : world) :
  Tokens.bucket_safe bucket_url = true →
  Tokens.folder_safe model_folder_ts = true →
  Tokens.value_safe num_classes = true →
  Tokens.value_safe training_batch_size = true →
  Tokens.value_safe training_epoch_count = true →
  (∀ token, token ∈ prepare.tokens →
            Tokens.delimited token model_config_template = true) →
  holds_config w model_training_folder = true →
  holds_config w model_repo_folder = true →
  ∃ text w',
    prepare.config_text model_folder_ts model_config_template num_classes bucket_url
      training_batch_size training_epoch_count = Return text
    ∧ prepare.generate_model_config model_training_folder model_repo_folder
        model_folder_ts model_config_template num_classes bucket_url
        training_batch_size training_epoch_count w = (Return tt, w')
    ∧ io.read_text (model_training_folder +:+ "/pipeline.config") w' = (Return text, w')
    ∧ io.read_text (model_repo_folder +:+ "/pipeline.config") w' = (Return text, w')
    ∧ (∀ token, token ∈ prepare.tokens → Text.contains token text = false)
    ∧ (∀ value,
         value ∈ prepare.substitutions model_folder_ts num_classes bucket_url
                   training_batch_size training_epoch_count →
         Text.contains value text = true).
Proof.
  intros Hb Ht Hn Hbs He Hdel Htrain Hrepo.
  destruct (ConfigText.config_text_spec model_folder_ts model_config_template
              num_classes bucket_url training_batch_size training_epoch_count
              Hb Ht Hn Hbs He Hdel) as (text & Htext & Hnone & Hall).
  destruct (generate_model_config_writes model_training_folder model_repo_folder
              model_folder_ts model_config_template num_classes bucket_url
              training_batch_size training_epoch_count text w Htext Htrain Hrepo)
    as (w' & Hrun & Hfs & _).
  exists text, w'. repeat (split; [assumption|]). split; [|split; [|split]]; try assumption.
  - apply (read_config w' model_training_folder text). rewrite Hfs.
    destruct (decide (config_key model_repo_folder = config_key model_training_folder))
      as [->|Hne].
    + apply lookup_insert_eq.
    + rewrite lookup_insert_ne by exact Hne. apply lookup_insert_eq.
  - apply (read_config w' model_repo_folder text). rewrite Hfs. apply lookup_insert_eq.
Qed.

End GenerateModelConfig.

Lemma generate_model_config_fills_template_witness :
  ∃ text w',
    prepare.config_text "ssd_2020-01-24T10:30" template_example "3" "gs://bucket" "8" "10"
    = Return text
    ∧ prepare.generate_model_config "training" "repo" "ssd_2020-01-24T10:30"
        template_example "3" "gs://bucket" "8" "10" world_with_folders = (Return tt, w')
    ∧ io.read_text ("training" +:+ "/pipeline.config") w' = (Return text, w')
    ∧ io.read_text ("repo" +:+ "/pipeline.config") w' = (Return text, w')
    ∧ (∀ token, token ∈ prepare.tokens → Text.contains token text = false)
    ∧ (∀ value,
         value ∈ prepare.substitutions "ssd_2020-01-24T10:30" "3" "gs://bucket" "8" "10" →
         Text.contains value text = true).
Proof.
  apply (generate_model_config_fills_template "training" "repo" "ssd_2020-01-24T10:30"
           template_example "3" "gs://bucket" "8" "10" world_with_folders);
    [vm_compute; reflexivity..| |vm_compute; reflexivity|vm_compute; reflexivity].
  intros token Htoken. unfold prepare.tokens in Htoken.
  repeat (apply elem_of_cons in Htoken as [->|Htoken]; [vm_compute; reflexivity|]).
  inversion Htoken.
Defined.

(** A folder name that holds a token: the template has the seven tokens,
    each between blanks or quotes, and the generated text still has
    [NUM_CLASSES] in it, inside the four paths. *)
Lemma generate_model_config_token_in_folder_name :
  forallb (λ token, Text.contains token template_example) prepare.tokens = true
  ∧ ∃ text,
      prepare.config_text "NUM_CLASSES_run" template_example "3" "gs://bucket" "8" "10"
      = Return text
      ∧ Text.contains "NUM_CLASSES" text = true
      ∧ Text.contains "gs://bucket/NUM_CLASSES_run/model/base/model.ckpt" text = true.
Proof.
  split; [vm_compute; reflexivity|].
  eexists. split; [vm_compute; reflexivity|]. split; vm_compute; reflexivity.
Qed.

(** Two tokens that share a character: the template has the seven tokens
    as substrings, but [TRAIN_TF_RECORD_PATH] is replaced first and takes
    the last letter of [TRAINING_EPOCH_COUNT] with it; the epoch count
    never enters the text. *)
Lemma generate_model_config_overlapping_tokens :
  let template :=
    "NUM_CLASSES PRE_TRAINED_MODEL_CHECKPOINT_PATH LABEL_MAP_PATH VAL_TF_RECORD_PATH TRAINING_BATCH_SIZE TRAINING_EPOCH_COUNTRAIN_TF_RECORD_PATH" in
  forallb (λ token, Text.contains token template) prepare.tokens = true
  ∧ ∃ text,
      prepare.config_text "run" template "3" "gs://bucket" "8" "77777" = Return text
      ∧ Text.contains "77777" text = false
      ∧ Text.contains "TRAINING_EPOCH_COUN" text = true.
Proof.
  split; [vm_compute; reflexivity|].
  eexists. split; [vm_compute; reflexivity|]. split; vm_compute; reflexivity.
Qed.

(** A backslash in a value: [re.sub] reads [\n] in the replacement as a
    line feed, so the path is not in the text as it was given. *)
Lemma generate_model_config_backslash_in_value :
  ∃ text,
    prepare.config_text "run\new" template_example "3" "gs://bucket" "8" "10"
    = Return text
    ∧ Text.contains "gs://bucket/run\new/model/base/model.ckpt" text = false.
Proof. eexists. split; vm_compute; reflexivity. Qed.

(** * Properties beyond the claims *)

(** ** Texts, names and paths *)

Module PathText.
Import Text Names.

Lemma text_app (a b : list ascii) : text (a ++ b) = text a +:+ text b.
Proof. unfold text. induction a as [|c a IH]; simpl; [reflexivity|]. now rewrite IH. Qed.

Lemma chars_inj (a b : string) : chars a = chars b → a = b.
Proof. intros H. rewrite <- (ConfigText.text_chars a), <- (ConfigText.text_chars b). now rewrite H. Qed.

Lemma chars_empty (s : string) : chars s = [] ↔ s = "".
Proof. destruct s; simpl; split; congruence. Qed.

Lemma free_app (sep : ascii) (a b : list ascii) :
  free sep (a ++ b) = free sep a && free sep b.
Proof. apply forallb_app. Qed.

Lemma free_rev (sep : ascii) (a : list ascii) : free sep (rev a) = free sep a.
Proof.
  induction a as [|c a IH]; [reflexivity|].
  simpl. rewrite free_app, IH. simpl. rewrite andb_true_r. apply andb_comm.
Qed.

Lemma lacks_app (c : ascii) (a b : string) :
  lacks c (a +:+ b) = lacks c a && lacks c b.
Proof. unfold lacks. rewrite ConfigText.chars_app. apply free_app. Qed.

(** *** The last field and the fields of a text *)

Lemma after_last_free (sep : ascii) (acc s : list ascii) :
  free sep s = true → after_last sep acc s = rev acc ++ s.
Proof.
  revert acc. induction s as [|c s IH]; intros acc H; simpl.
  - now rewrite app_nil_r.
  - simpl in H. apply andb_true_iff in H as (Hc & H).
    apply negb_true_iff in Hc. rewrite Hc, IH by exact H.
    simpl. now rewrite <- app_assoc.
Qed.

Lemma after_last_app (sep : ascii) (acc x y : list ascii) :
  after_last sep acc (x ++ sep :: y) = after_last sep [] y.
Proof.
  revert acc. induction x as [|c x IH]; intros acc; simpl.
  - now rewrite Ascii.eqb_refl.
  - destruct (Ascii.eqb c sep); apply IH.
Qed.


Lemma split_on_free (sep : ascii) (acc s : list ascii) :
  free sep s = true → split_on sep acc s = [rev acc ++ s].
Proof.
  revert acc. induction s as [|c s IH]; intros acc H; simpl.
  - now rewrite app_nil_r.
  - simpl in H. apply andb_true_iff in H as (Hc & H).
    apply negb_true_iff in Hc. rewrite Hc, IH by exact H.
    simpl. now rewrite <- app_assoc.
Qed.

Lemma split_on_length (sep : ascii) (acc s : list ascii) :
  length (split_on sep acc s) = S (length (List.filter (Ascii.eqb sep) s)).
Proof.
  revert acc. induction s as [|c s IH]; intros acc; simpl; [reflexivity|].
  rewrite (Ascii.eqb_sym sep c). destruct (Ascii.eqb c sep); simpl; now rewrite IH.
Qed.

Lemma str_split_length (sep : ascii) (s : string) :
  length (str_split sep s) = S (count sep s).
Proof. unfold str_split, count. rewrite length_fmap. apply split_on_length. Qed.

Lemma free_count (sep : ascii) (l : list ascii) :
  free sep l = true ↔ length (List.filter (Ascii.eqb sep) l) = 0.
Proof.
  induction l as [|c l IH]; simpl; [tauto|].
  rewrite (Ascii.eqb_sym sep c). destruct (Ascii.eqb c sep); simpl; [|exact IH].
  split; discriminate.
Qed.

(** Joining names with a separator that they lack, and splitting the
    result, gives the names back. *)
Lemma str_split_concat (sep : ascii) (n : string) (names : list string) :
  (∀ x, x ∈ n :: names → lacks sep x = true) →
  str_split sep (String.concat (String sep "") (n :: names)) = n :: names.
Proof.
  unfold str_split. revert n. induction names as [|m names IH]; intros n Hall.
  - simpl. rewrite split_on_free by (apply Hall; now left).
    simpl. now rewrite ConfigText.text_chars.
  - change (String.concat (String sep "") (n :: m :: names))
      with (n +:+ String sep (String.concat (String sep "") (m :: names))).
    rewrite ConfigText.chars_app.
    change (chars (String sep ?s)) with (sep :: chars s).
    rewrite ConfigFiles.split_on_app, fmap_app, IH by (intros x Hx; apply Hall; now right).
    rewrite split_on_free by (apply Hall; now left).
    simpl. now rewrite ConfigText.text_chars.
Qed.

(** *** [os.path.split], [basename], [join] *)

Lemma basename_app (x t : list ascii) :
  free "/" t = true → os_path.basename (text (x ++ "/"%char :: t)) = text t.
Proof.
  intros H. unfold os_path.basename, last_field.
  now rewrite ConfigText.chars_text, after_last_app, after_last_free.
Qed.

Lemma basename_free (t : string) : lacks "/" t = true → os_path.basename t = t.
Proof.
  intros H. unfold os_path.basename, last_field.
  rewrite after_last_free by exact H. apply ConfigText.text_chars.
Qed.


Lemma split_tail (x t : list ascii) :
  free "/" t = true → (os_path.split (text (x ++ "/"%char :: t))).2 = text t.
Proof.
  intros H. unfold os_path.split. cbn [snd].
  now rewrite ConfigText.chars_text, after_last_app, after_last_free.
Qed.

Lemma ends_plain_inv (x : list ascii) :
  ends_plain x = true → ∃ y c, x = y ++ [c] ∧ Ascii.eqb c "/" = false.
Proof.
  unfold ends_plain. destruct (rev x) as [|c r] eqn:E; [discriminate|].
  intros H. apply negb_true_iff in H. exists (rev r), c. split; [|exact H].
  rewrite <- (rev_involutive x), E. reflexivity.
Qed.

Lemma ends_plain_app (x y : list ascii) :
  y ≠ [] → ends_plain (x ++ y) = ends_plain y.
Proof.
  intros Hy. unfold ends_plain. rewrite rev_app_distr.
  destruct (rev y) as [|c r] eqn:E; [|reflexivity].
  apply (f_equal (@rev _)) in E. rewrite rev_involutive in E. contradiction.
Qed.

Lemma ends_plain_entry (n : string) : entry_name n = true → ends_plain (chars n) = true.
Proof.
  unfold entry_name, lacks. intros H. apply andb_true_iff in H as (Hne & Hfree).
  unfold ends_plain. rewrite <- free_rev in Hfree.
  destruct (rev (chars n)) as [|c r] eqn:E.
  - apply (f_equal (@rev _)) in E. rewrite rev_involutive in E.
    apply chars_empty in E. subst n. discriminate.
  - simpl in Hfree. now apply andb_true_iff in Hfree as (-> & _).
Qed.

(** The head of a path whose last slash follows a plain end. *)
Lemma split_plain (x t : list ascii) :
  ends_plain x = true → free "/" t = true →
  os_path.split (text (x ++ "/"%char :: t)) = (text x, text t).
Proof.
  intros Hx Ht. unfold os_path.split.
  rewrite ConfigText.chars_text, after_last_app, after_last_free by exact Ht. simpl rev. cbn [app].
  replace (length (x ++ "/"%char :: t) - length t) with (length (x ++ ["/"%char]))
    by (rewrite !length_app; simpl; lia).
  replace (x ++ "/"%char :: t) with ((x ++ ["/"%char]) ++ t)
    by (now rewrite <- app_assoc).
  rewrite take_app_length.
  apply ends_plain_inv in Hx as (y & c & -> & Hc).
  assert (forallb (λ c0, Ascii.eqb c0 "/") ((y ++ [c]) ++ ["/"%char]) = false) as ->.
  { rewrite !forallb_app. simpl. rewrite Hc. simpl. now rewrite andb_false_r. }
  rewrite !rev_app_distr. simpl. rewrite Hc. simpl.
  now rewrite rev_involutive.
Qed.

Lemma join_plain (a b : string) :
  ends_plain (chars a) = true → lacks "/" b = true →
  os_path.join a b = a +:+ "/" +:+ b.
Proof.
  intros Ha Hb. unfold os_path.join.
  assert (prefixb ["/"%char] (chars b) = false) as ->.
  { unfold lacks in Hb. destruct (chars b) as [|c r]; [reflexivity|].
    unfold free in Hb. cbn [forallb] in Hb.
    apply andb_true_iff in Hb as (Hc & _). apply negb_true_iff in Hc.
    cbn [prefixb]. rewrite Ascii.eqb_sym, Hc. reflexivity. }
  assert (String.eqb a "" = false) as ->.
  { destruct a; [discriminate|reflexivity]. }
  unfold ends_plain in Ha. destruct (rev (chars a)) as [|c r]; [discriminate|].
  apply negb_true_iff in Ha. cbn [prefixb]. rewrite Ascii.eqb_sym, Ha. reflexivity.
Qed.

Lemma chars_slash (a b : string) :
  chars (a +:+ "/" +:+ b) = chars a ++ "/"%char :: chars b.
Proof. now rewrite ConfigText.chars_app. Qed.

Lemma path_text (a b : string) : a +:+ "/" +:+ b = text (chars a ++ "/"%char :: chars b).
Proof. now rewrite <- chars_slash, ConfigText.text_chars. Qed.

Lemma lacks_concat (c sep : ascii) (names : list string) :
  Ascii.eqb sep c = false →
  (∀ x, x ∈ names → lacks c x = true) →
  lacks c (String.concat (String sep "") names) = true.
Proof.
  intros Hsep. induction names as [|n names IH]; intros Hall; [reflexivity|].
  destruct names as [|m names]; [apply Hall; now left|].
  change (String.concat (String sep "") (n :: m :: names))
    with (n +:+ String sep (String.concat (String sep "") (m :: names))).
  rewrite lacks_app, (Hall n) by now left.
  unfold lacks. change (chars (String sep ?s)) with (sep :: chars s).
  unfold free. cbn [forallb]. rewrite Hsep. apply IH.
  intros x Hx. apply Hall. now right.
Qed.

(** *** [os.path.splitext] *)

Lemma cut_ext_no_dot (acc l : list ascii) :
  free "." l = true → os_path.cut_ext acc l = None.
Proof.
  revert acc. induction l as [|c l IH]; intros acc H; [reflexivity|].
  unfold free in H. cbn [forallb] in H. apply andb_true_iff in H as (Hc & H).
  apply negb_true_iff in Hc. cbn [os_path.cut_ext]. rewrite Hc.
  destruct (Ascii.eqb c "/"); [reflexivity|]. now apply IH.
Qed.

Lemma cut_ext_at_dot (acc l r : list ascii) :
  free "." l = true → free "/" l = true →
  os_path.cut_ext acc (l ++ "."%char :: r) = Some (rev r, "."%char :: rev l ++ acc).
Proof.
  revert acc. induction l as [|c l IH]; intros acc Hdot Hslash; [reflexivity|].
  unfold free in Hdot, Hslash. cbn [forallb] in Hdot, Hslash.
  apply andb_true_iff in Hdot as (Hc1 & Hdot).
  apply andb_true_iff in Hslash as (Hc2 & Hslash).
  apply negb_true_iff in Hc1, Hc2.
  cbn [app os_path.cut_ext]. rewrite Hc1, Hc2, IH by assumption.
  cbn [rev]. now rewrite <- app_assoc.
Qed.

(** A path whose extension [e] follows a name that does not consist of
    dots. *)
Lemma splitext_name (x e : list ascii) :
  free "." e = true → free "/" e = true →
  forallb (λ c, Ascii.eqb c ".") (after_last "/" [] x) = false →
  os_path.splitext_str (text (x ++ "."%char :: e)) = (text x, text ("."%char :: e)).
Proof.
  intros Hdot Hslash Hname. unfold os_path.splitext_str.
  rewrite ConfigText.chars_text, rev_app_distr. cbn [rev]. rewrite <- app_assoc. cbn [app].
  rewrite cut_ext_at_dot by (now rewrite free_rev).
  rewrite !rev_involutive, app_nil_r, Hname. reflexivity.
Qed.

Lemma splitext_no_dot (p : string) :
  lacks "." p = true → os_path.splitext_str p = (p, "").
Proof.
  intros H. unfold os_path.splitext_str.
  rewrite cut_ext_no_dot; [reflexivity|]. now rewrite free_rev.
Qed.

Lemma item_fmap {A B} (f : A → B) (xs : list A) (i : nat) :
  item (f <$> xs) i = result_bind (item xs i) (λ x, Return (f x)).
Proof. unfold item. rewrite list_lookup_fmap. now destruct (xs !! i). Qed.

Lemma item_is_Return {A} (xs : list A) (i : nat) :
  (i < length xs)%nat → ∃ x, item xs i = Return x.
Proof.
  intros H. unfold item. destruct (lookup_lt_is_Some_2 xs i H) as (x & ->). eauto.
Qed.

Lemma item_is_Raise {A} (xs : list A) (i : nat) :
  (length xs <= i)%nat → item xs i = Raise (IndexError "list index out of range").
Proof. intros H. unfold item. now rewrite lookup_ge_None_2. Qed.

(** The folder of the entry [f] of [d/n] is [n]. *)
Lemma parent_of_entry (d n f : string) :
  entry_name n = true → lacks "/" f = true →
  file_ops.get_parent_folder_name (d +:+ "/" +:+ n +:+ "/" +:+ f) = n.
Proof.
  intros Hn Hf. unfold file_ops.get_parent_folder_name.
  assert (d +:+ "/" +:+ n +:+ "/" +:+ f
          = text ((chars d ++ "/"%char :: chars n) ++ "/"%char :: chars f)) as ->.
  { apply chars_inj. rewrite ConfigText.chars_text, !chars_slash, <- app_assoc. reflexivity. }
  rewrite split_plain; [| |exact Hf].
  2: { change ("/"%char :: chars n) with (["/"%char] ++ chars n).
       rewrite !ends_plain_app; [now apply ends_plain_entry|..];
         destruct n; discriminate. }
  cbn [fst]. rewrite split_tail.
  - apply ConfigText.text_chars.
  - apply andb_true_iff in Hn as (_ & Hn). exact Hn.
Qed.

End PathText.

(** ** [file_ops]: names from paths *)

Section FileOpsNames.
Import Text Names PathText.

(** X1: the folder that holds the last component of a path: for the path
    of a directory written with a slash at the end it is the directory
    itself, without that slash it is its parent, and a path without
    slash has none. *)
Theorem get_parent_folder_name_spec :
  (∀ d n f : string,
     entry_name n = true → lacks "/" f = true →
     file_ops.get_parent_folder_name (d +:+ "/" +:+ n +:+ "/" +:+ f) = n)
  ∧ (∀ p : string, lacks "/" p = true → file_ops.get_parent_folder_name p = "").
Proof.
  split.
  - apply parent_of_entry.
  - intros p Hp. unfold file_ops.get_parent_folder_name, os_path.split.
    cbn [fst snd]. rewrite (after_last_free "/" [] (chars p)) by exact Hp.
    simpl rev. cbn [app]. rewrite Nat.sub_diag. reflexivity.
Qed.

Lemma get_parent_folder_name_spec_witness :
  file_ops.get_parent_folder_name "data/tf_records/camA_1/" = "camA_1"
  ∧ file_ops.get_parent_folder_name "data/tf_records/camA_1/a_train.record" = "camA_1"
  ∧ file_ops.get_parent_folder_name "camA_1" = "".
Proof.
  split; [|split].
  - apply (proj1 get_parent_folder_name_spec "data/tf_records" "camA_1" ""); reflexivity.
  - apply (proj1 get_parent_folder_name_spec "data/tf_records" "camA_1" "a_train.record");
      reflexivity.
  - apply (proj2 get_parent_folder_name_spec "camA_1"); reflexivity.
Defined.

End FileOpsNames.

Section FileOpsFields.
Import Text Names PathText.

Lemma underscore_name_not_dots (names : list string) (a b : string) :
  forallb (λ c, Ascii.eqb c ".")
    (chars (String.concat "_" (a :: b :: names))) = false.
Proof.
  change (String.concat "_" (a :: b :: names))
    with (a +:+ String "_" (String.concat "_" (b :: names))).
  rewrite ConfigText.chars_app, forallb_app.
  change (chars (String "_" ?s)) with ("_"%char :: chars s).
  cbn [forallb]. change (Ascii.eqb "_" ".") with false.
  now rewrite andb_false_r.
Qed.

(** X2: a file named [ontology_object_...] with an extension, in any
    folder: the first field of its name is the ontology and the second
    is the object. *)
Theorem ontology_and_object_of_file_name
    (dir ext ontology object : string) (more : list string) :
  (∀ x, x ∈ ontology :: object :: more → lacks "_" x = true ∧ lacks "/" x = true) →
  lacks "." ext = true → lacks "/" ext = true →
  let file_path :=
    dir +:+ "/" +:+ String.concat "_" (ontology :: object :: more) +:+ "." +:+ ext in
  file_ops.get_ontology_name_from_file file_path = Return ontology
  ∧ file_ops.get_object_name_from_file file_path = Return object.
Proof.
  intros Hnames Hdot Hslash file_path.
  set (names := ontology :: object :: more) in *.
  assert (lacks "/" (String.concat "_" names) = true) as Hstem.
  { apply lacks_concat; [reflexivity|]. intros x Hx. now apply Hnames. }
  assert ((os_path.splitext_str (os_path.basename file_path)).1
          = String.concat "_" names) as Hfile.
  { subst file_path. rewrite path_text, basename_app.
    2: { rewrite ConfigText.chars_app. change (chars ("." +:+ ext)) with ("."%char :: chars ext).
         rewrite free_app. unfold lacks in Hstem. rewrite Hstem.
         unfold free. cbn [forallb]. exact Hslash. }
    rewrite ConfigText.chars_app. change (chars ("." +:+ ext)) with ("."%char :: chars ext).
    rewrite splitext_name; [apply ConfigText.text_chars|exact Hdot|exact Hslash|].
    rewrite after_last_free by exact Hstem. apply underscore_name_not_dots. }
  unfold file_ops.get_ontology_name_from_file, file_ops.get_object_name_from_file.
  cbn [os_path.splitext result_bind]. rewrite Hfile. subst names.
  rewrite str_split_concat by (intros x Hx; now apply Hnames).
  split; reflexivity.
Qed.

Lemma ontology_and_object_of_file_name_witness :
  file_ops.get_ontology_name_from_file "annotations/fish_salmon_0001.xml" = Return "fish"
  ∧ file_ops.get_object_name_from_file "annotations/fish_salmon_0001.xml"
    = Return "salmon".
Proof.
  apply (ontology_and_object_of_file_name "annotations" "xml" "fish" "salmon" ["0001"]);
    [|reflexivity|reflexivity].
  intros x Hx. repeat (apply elem_of_cons in Hx as [->|Hx]; [split; reflexivity|]).
  inversion Hx.
Defined.

(** X3: the object name is the second field of the file name without its
    extension: a name without underscore has none and the lookup raises
    [IndexError], whatever the folders are called; with an underscore it
    returns.  The ontology name is the first field and always exists. *)
Theorem get_object_name_from_file_needs_underscore (file_path : string) :
  let filename := (os_path.splitext_str (os_path.basename file_path)).1 in
  (lacks "_" filename = true →
   file_ops.get_object_name_from_file file_path
   = Raise (IndexError "list index out of range"))
  ∧ (lacks "_" filename = false →
     ∃ object, file_ops.get_object_name_from_file file_path = Return object)
  ∧ (∃ ontology, file_ops.get_ontology_name_from_file file_path = Return ontology).
Proof.
  intros filename.
  unfold file_ops.get_ontology_name_from_file, file_ops.get_object_name_from_file.
  cbn [os_path.splitext result_bind]. fold filename.
  pose proof (str_split_length "_" filename) as Hlen.
  split; [|split].
  - intros H. apply item_is_Raise. rewrite Hlen.
    apply free_count in H. unfold count. rewrite H. lia.
  - intros H. apply item_is_Return. rewrite Hlen.
    destruct (count "_" filename) eqn:E; [|lia].
    apply free_count in E. unfold lacks in H. congruence.
  - apply item_is_Return. lia.
Qed.

Lemma get_object_name_from_file_needs_underscore_witness :
  file_ops.get_object_name_from_file "my_annotations/frame0001.xml_old"
  = Raise (IndexError "list index out of range")
  ∧ ∃ object, file_ops.get_object_name_from_file "annotations/fish_salmon.xml"
              = Return object.
Proof.
  split.
  - apply (proj1 (get_object_name_from_file_needs_underscore
                    "my_annotations/frame0001.xml_old")).
    reflexivity.
  - apply (proj1 (proj2 (get_object_name_from_file_needs_underscore
                           "annotations/fish_salmon.xml"))).
    reflexivity.
Defined.

(** X4: a storage link [scheme://bucket/dataset/image] is mapped to
    [images_path/dataset/image]; what follows the image in the link is
    dropped. *)
Theorem gcs_path_to_local_path_components
    (images_path c0 c1 c2 dataset image : string) (more : list string) :
  ends_plain (chars images_path) = true →
  entry_name dataset = true →
  (∀ x, x ∈ c0 :: c1 :: c2 :: image :: more → lacks "/" x = true) →
  file_ops.gcs_path_to_local_path images_path
    (String.concat "/" (c0 :: c1 :: c2 :: dataset :: image :: more))
  = Return (images_path +:+ "/" +:+ dataset +:+ "/" +:+ image).
Proof.
  intros Himages Hdataset Hfree.
  assert (lacks "/" dataset = true) as Hd
    by (now apply andb_true_iff in Hdataset as (_ & ?)).
  unfold file_ops.gcs_path_to_local_path.
  rewrite str_split_concat.
  2: { intros x Hx. repeat (apply elem_of_cons in Hx as [->|Hx]; [try exact Hd|]);
       try (apply Hfree; set_solver). }
  cbn [item lookup list_lookup result_bind os_path.join_all foldl].
  rewrite (join_plain images_path dataset Himages Hd).
  rewrite join_plain.
  - f_equal. apply chars_inj. rewrite !chars_slash, <- app_assoc. reflexivity.
  - rewrite chars_slash.
    change ("/"%char :: chars dataset) with (["/"%char] ++ chars dataset).
    rewrite !ends_plain_app; [now apply ends_plain_entry|..].
    + destruct dataset; discriminate.
    + destruct dataset; discriminate.
  - apply Hfree. set_solver.
Qed.

Lemma gcs_path_to_local_path_components_witness :
  file_ops.gcs_path_to_local_path "/usr/local/airflow/data/images"
    "gs://bucket/dataset_1/frame_0001.jpg/extra"
  = Return "/usr/local/airflow/data/images/dataset_1/frame_0001.jpg".
Proof.
  apply (gcs_path_to_local_path_components "/usr/local/airflow/data/images"
           "gs:" "" "bucket" "dataset_1" "frame_0001.jpg" ["extra"]);
    [reflexivity|reflexivity|].
  intros x Hx. repeat (apply elem_of_cons in Hx as [->|Hx]; [reflexivity|]).
  inversion Hx.
Defined.

(** X5: the link needs five fields between slashes: with fewer than four
    slashes the conversion raises [IndexError], with four or more it
    returns a path. *)
Theorem gcs_path_to_local_path_needs_four_slashes (images_path gcs_path : string) :
  ((count "/" gcs_path < 4)%nat →
   file_ops.gcs_path_to_local_path images_path gcs_path
   = Raise (IndexError "list index out of range"))
  ∧ ((4 <= count "/" gcs_path)%nat →
     ∃ local_path,
       file_ops.gcs_path_to_local_path images_path gcs_path = Return local_path).
Proof.
  unfold file_ops.gcs_path_to_local_path.
  pose proof (str_split_length "/" gcs_path) as Hlen.
  split; intros H.
  - destruct (decide (count "/" gcs_path < 3)%nat) as [Hlt|Hge].
    + rewrite (item_is_Raise _ 3) by lia. reflexivity.
    + destruct (item_is_Return (str_split "/" gcs_path) 3) as (x & ->); [lia|].
      cbn [result_bind]. rewrite (item_is_Raise _ 4) by lia. reflexivity.
  - destruct (item_is_Return (str_split "/" gcs_path) 3) as (x & ->); [lia|].
    destruct (item_is_Return (str_split "/" gcs_path) 4) as (y & ->); [lia|].
    cbn [result_bind]. eauto.
Qed.

Lemma gcs_path_to_local_path_needs_four_slashes_witness :
  file_ops.gcs_path_to_local_path "images" "gs://bucket/frame_0001.jpg"
  = Raise (IndexError "list index out of range")
  ∧ ∃ local_path,
      file_ops.gcs_path_to_local_path "images" "gs://bucket/dataset/frame_0001.jpg"
      = Return local_path.
Proof.
  split.
  - apply (proj1 (gcs_path_to_local_path_needs_four_slashes
                    "images" "gs://bucket/frame_0001.jpg")).
    vm_compute. lia.
  - apply (proj2 (gcs_path_to_local_path_needs_four_slashes
                    "images" "gs://bucket/dataset/frame_0001.jpg")).
    vm_compute. lia.
Defined.

(** X6: the source feed of a TFRecord folder is the first field of its
    name.  A path without [.] and [..] components that is not a
    directory raises [ValueError] and changes nothing; a directory
    written with a slash at the end has the empty name, so its feed is
    the empty text. *)
Theorem get_source_feed_from_folder_name_spec (w : world) :
  (∀ dir_path,
     dotless dir_path = true →
     os.node_at w dir_path ≠ Some Dir →
     file_ops.get_source_feed_from_folder_name dir_path w
     = (Raise (ValueError ("The specified path is not a directory: " +:+ dir_path)), w))
  ∧ (∀ d feed more,
       (∀ x, x ∈ feed :: more → lacks "_" x = true ∧ lacks "/" x = true) →
       os.node_at w (d +:+ "/" +:+ String.concat "_" (feed :: more)) = Some Dir →
       file_ops.get_source_feed_from_folder_name
         (d +:+ "/" +:+ String.concat "_" (feed :: more)) w
       = (Return feed, w))
  ∧ (∀ d,
       os.node_at w (d +:+ "/") = Some Dir →
       file_ops.get_source_feed_from_folder_name (d +:+ "/") w = (Return "", w)).
Proof.
  unfold file_ops.get_source_feed_from_folder_name, bind, os.path_isdir.
  split; [|split].
  - intros dir_path _ H. destruct (os.node_at w dir_path) as [[|c]|]; [congruence|..];
      reflexivity.
  - intros d feed more Hnames ->. unfold lift.
    rewrite path_text, basename_app.
    2: { apply lacks_concat; [reflexivity|]. intros x Hx. now apply Hnames. }
    rewrite ConfigText.text_chars, str_split_concat by (intros x Hx; now apply Hnames).
    reflexivity.
  - intros d ->. unfold lift.
    replace (d +:+ "/") with (text (chars d ++ "/"%char :: [])).
    2: { apply chars_inj. now rewrite ConfigText.chars_text, ConfigText.chars_app. }
    rewrite basename_app by reflexivity. reflexivity.
Qed.

Lemma get_source_feed_from_folder_name_spec_witness :
  let w := mkWorld (list_to_map [(["tf"], Dir); (["tf"; "camA_2020_1"], Dir)])
             offline [] [] in
  file_ops.get_source_feed_from_folder_name "tf/camB_1" w
  = (Raise (ValueError "The specified path is not a directory: tf/camB_1"), w)
  ∧ file_ops.get_source_feed_from_folder_name "tf/camA_2020_1" w = (Return "camA", w)
  ∧ file_ops.get_source_feed_from_folder_name "tf/camA_2020_1/" w = (Return "", w).
Proof.
  intros w. split; [|split].
  - apply (proj1 (get_source_feed_from_folder_name_spec w) "tf/camB_1");
      [reflexivity|]. vm_compute. discriminate.
  - apply (proj1 (proj2 (get_source_feed_from_folder_name_spec w))
             "tf" "camA" ["2020"; "1"]).
    + intros x Hx. repeat (apply elem_of_cons in Hx as [->|Hx]; [split; reflexivity|]).
      inversion Hx.
    + vm_compute. reflexivity.
  - apply (proj2 (proj2 (get_source_feed_from_folder_name_spec w)) "tf/camA_2020_1").
    vm_compute. reflexivity.
Defined.

End FileOpsFields.

(** ** Folders, listings and patterns *)

Module Listing.
Import Text Names PathText.

Lemma entry_name_inv (n : string) :
  entry_name n = true → n ≠ "" ∧ lacks "/" n = true.
Proof.
  unfold entry_name. intros H. apply andb_true_iff in H as (Hne & H).
  split; [|exact H]. intros ->. discriminate.
Qed.

(** The entry [n] of the folder [d]. *)
Lemma split_path_entry (d n : string) :
  entry_name n = true →
  os.split_path (d +:+ "/" +:+ n) = os.split_path d ++ [n].
Proof.
  intros H. apply entry_name_inv in H as (Hne & Hfree).
  unfold os.split_path.
  rewrite chars_slash, ConfigFiles.split_on_app, fmap_app, ConfigFiles.filter_app_list.
  rewrite (split_on_free "/" [] (chars n)) by exact Hfree.
  cbn [rev app fmap list_fmap List.filter]. rewrite ConfigText.text_chars.
  destruct (String.eqb_spec n ""); [contradiction|reflexivity].
Qed.

Lemma node_at_entry (w : world) (d n : string) :
  entry_name n = true →
  os.node_at w (d +:+ "/" +:+ n) = fs w !! (os.split_path d ++ [n]).
Proof.
  intros H. unfold os.node_at. rewrite split_path_entry by exact H.
  assert (String.eqb (d +:+ "/" +:+ n) "" = false) as -> by (now destruct d).
  now destruct (os.split_path d).
Qed.

Lemma removelast_last_inv {A} (l k : list A) (x : A) :
  removelast l = k → last l = Some x → l = k ++ [x].
Proof.
  intros Hk Hx. apply last_Some in Hx as (l' & ->).
  rewrite removelast_last in Hk. now subst.
Qed.

(** What [os.listdir] lists: the entries whose path is that of the
    folder and one more name. *)
Lemma elem_of_listdir (w : world) (d n : string) :
  n ∈ os.listdir w d ↔ is_Some (fs w !! (os.split_path d ++ [n])).
Proof.
  unfold os.listdir. rewrite list_elem_of_omap. split.
  - intros ((k & x) & Hin & Hn). cbn [fst] in Hn.
    destruct (bool_decide_reflect (removelast k = os.split_path d)) as [Hk|]; [|discriminate].
    apply elem_of_map_to_list in Hin.
    rewrite <- (removelast_last_inv _ _ _ Hk Hn). eauto.
  - intros (x & Hx). exists (os.split_path d ++ [n], x). split.
    + now apply elem_of_map_to_list.
    + cbn [fst]. rewrite removelast_last, bool_decide_eq_true_2 by reflexivity.
      apply last_snoc.
Qed.

Lemma well_named_key (w : world) (k : list string) (n : string) :
  well_named w = true → is_Some (fs w !! k) → n ∈ k → entry_name n = true.
Proof.
  unfold well_named. rewrite forallb_forall. intros Hw (x & Hx) Hn.
  specialize (Hw (k, x)). cbn [fst] in Hw.
  assert (forallb entry_name k = true) as Hk.
  { apply Hw. apply list_elem_of_In. now apply elem_of_map_to_list. }
  rewrite forallb_forall in Hk. apply Hk. now apply list_elem_of_In.
Qed.

Lemma listdir_entry_name (w : world) (d n : string) :
  well_named w = true → n ∈ os.listdir w d → entry_name n = true.
Proof.
  intros Hw Hn. apply elem_of_listdir in Hn.
  apply (well_named_key w _ n Hw Hn). set_solver.
Qed.

Lemma glob1_entry_name (w : world) (d pat n : string) :
  well_named w = true → n ∈ glob.glob1 w d pat → entry_name n = true.
Proof.
  unfold glob.glob1. intros Hw Hn.
  apply list_elem_of_In, filter_In in Hn as (Hn & _).
  apply list_elem_of_In in Hn. now apply listdir_entry_name in Hn.
Qed.

(** *** Patterns *)

Lemma wildcard_free_no_magic (s : string) :
  wildcard_free s = true → glob.has_magic s = false.
Proof.
  unfold wildcard_free, glob.has_magic, glob.is_magic.
  induction (chars s) as [|c l IH]; [reflexivity|].
  cbn [forallb existsb]. intros H. apply andb_true_iff in H as (Hc & H).
  rewrite (IH H), orb_false_r.
  apply negb_true_iff in Hc. apply orb_false_iff in Hc as (Hc & _).
  exact Hc.
Qed.

Lemma has_magic_app (a b : string) :
  glob.has_magic (a +:+ b) = glob.has_magic a || glob.has_magic b.
Proof. unfold glob.has_magic. rewrite ConfigText.chars_app. apply existsb_app. Qed.

Lemma folder_path_inv (dir : string) :
  folder_path dir = true →
  ends_plain (chars dir) = true ∧ glob.has_magic dir = false ∧ String.eqb dir "" = false.
Proof.
  unfold folder_path. intros H. apply andb_true_iff in H as (He & Hw).
  split; [exact He|]. split; [now apply wildcard_free_no_magic|].
  destruct dir; [discriminate|reflexivity].
Qed.

Lemma name_pattern_inv (pat : string) :
  name_pattern pat = true → lacks "/" pat = true ∧ glob.has_magic pat = true.
Proof.
  unfold name_pattern. intros H.
  apply andb_true_iff in H as (H & _). apply andb_true_iff in H as (He & Hm).
  apply entry_name_inv in He as (_ & He). auto.
Qed.

Lemma split_folder_entry (dir n : string) :
  ends_plain (chars dir) = true → lacks "/" n = true →
  os_path.split (dir +:+ "/" +:+ n) = (dir, n).
Proof.
  intros Hd Hn. rewrite path_text, split_plain by assumption.
  now rewrite !ConfigText.text_chars.
Qed.

(** The matches of a pattern for the entries of one folder. *)
Lemma iglob_folder_pattern (fuel : nat) (w : world) (dir pat : string) :
  folder_path dir = true → name_pattern pat = true →
  glob.iglob (S fuel) w (dir +:+ "/" +:+ pat)
  = os_path.join dir <$> glob.glob1 w dir pat.
Proof.
  intros Hdir Hpat.
  apply folder_path_inv in Hdir as (Hend & Hmagic & Hne).
  apply name_pattern_inv in Hpat as (Hfree & Hpm).
  cbn [glob.iglob]. rewrite split_folder_entry by assumption.
  rewrite !has_magic_app, Hpm, !orb_true_r. cbn [negb].
  rewrite Hne, Hmagic, andb_false_r. cbn [flat_map]. apply app_nil_r.
Qed.

Lemma join_entry (dir n : string) :
  ends_plain (chars dir) = true → lacks "/" n = true →
  os_path.join dir n = dir +:+ "/" +:+ n.
Proof. apply join_plain. Qed.

Lemma fmap_join_entries (dir : string) (names : list string) :
  ends_plain (chars dir) = true →
  (∀ n, n ∈ names → entry_name n = true) →
  os_path.join dir <$> names = (λ n, dir +:+ "/" +:+ n) <$> names.
Proof.
  intros Hd Hall. apply list_fmap_ext. intros i n Hn.
  apply join_plain; [exact Hd|].
  apply list_elem_of_lookup_2 in Hn. now apply Hall, entry_name_inv in Hn.
Qed.

Lemma string_length_chars (s : string) : String.length s = length (chars s).
Proof. induction s as [|c s IH]; simpl; [reflexivity|]. now rewrite IH. Qed.

(** *** Suffix patterns *)

Lemma ends_with_spec (suffix s : string) :
  shutil.ends_with suffix s = true ↔ ∃ p, chars s = p ++ chars suffix.
Proof.
  unfold shutil.ends_with. rewrite Substitution.prefixb_spec. split.
  - intros (r & Hr). exists (rev r).
    rewrite <- (rev_involutive (chars s)), Hr, rev_app_distr.
    now rewrite rev_involutive.
  - intros (p & ->). exists (rev p). apply rev_app_distr.
Qed.

(** A text without [*] and [?] matches itself only. *)
Lemma fnmatch_literal (lit n : list ascii) :
  existsb glob.is_magic lit = false →
  glob.fnmatch lit n = true ↔ n = lit.
Proof.
  revert n. induction lit as [|c lit IH]; intros n Hlit.
  - destruct n; simpl; split; congruence.
  - cbn [existsb] in Hlit. apply orb_false_iff in Hlit as (Hc & Hlit).
    unfold glob.is_magic in Hc. apply orb_false_iff in Hc as (Hstar & Hq).
    cbn [glob.fnmatch]. rewrite Hstar.
    destruct n as [|d n]; [split; discriminate|].
    rewrite Hq. cbn [orb]. rewrite andb_true_iff, (IH n Hlit), Ascii.eqb_eq.
    split; [intros (-> & ->); reflexivity|intros [= -> ->]; auto].
Qed.

(** [*] followed by such a text matches the names that end with it. *)
Lemma fnmatch_star_suffix (lit n : list ascii) :
  existsb glob.is_magic lit = false →
  glob.fnmatch ("*"%char :: lit) n = true ↔ ∃ p, n = p ++ lit.
Proof.
  intros Hlit. cbn [glob.fnmatch]. change (Ascii.eqb "*" "*") with true. cbv iota.
  induction n as [|d n IH].
  - rewrite orb_false_r, (fnmatch_literal lit [] Hlit). split.
    + intros <-. now exists [].
    + intros (p & Hp). symmetry in Hp. apply app_eq_nil in Hp as (_ & ->). reflexivity.
  - rewrite orb_true_iff, (fnmatch_literal lit (d :: n) Hlit), IH. split.
    + intros [<-|(p & ->)]; [now exists []|now exists (d :: p)].
    + intros ([|c p] & Hp).
      * left. exact Hp.
      * right. injection Hp as -> ->. eauto.
Qed.

Lemma fnmatch_suffix_pattern (suffix n : string) :
  glob.has_magic suffix = false →
  glob.fnmatch (chars ("*" +:+ suffix)) (chars n) = shutil.ends_with suffix n.
Proof.
  intros Hs. apply eq_true_iff_eq.
  change (chars ("*" +:+ suffix)) with ("*"%char :: chars suffix).
  rewrite (fnmatch_star_suffix _ _ Hs), ends_with_spec. reflexivity.
Qed.

Lemma fnmatch_star (n : list ascii) : glob.fnmatch ["*"%char] n = true.
Proof. apply (fnmatch_star_suffix [] n eq_refl). exists n. now rewrite app_nil_r. Qed.

End Listing.

(** ** [file_ops]: listings *)

Section FileOpsListings.
Import Text Names PathText Listing.

Lemma result_map_basename (dir : string) (names : list string) :
  ends_plain (chars dir) = true →
  (∀ n, n ∈ names → entry_name n = true) →
  result_map (λ f, file_ops.get_filename f true) (os_path.join dir <$> names)
  = Return names.
Proof.
  intros Hd. induction names as [|n names IH]; intros Hall; [reflexivity|].
  rewrite fmap_cons. cbn [result_map]. unfold file_ops.get_filename at 1.
  cbn [result_bind].
  rewrite IH by (intros; apply Hall; now right). cbn [result_bind].
  assert (entry_name n = true) as Hn by (apply Hall; now left).
  apply entry_name_inv in Hn as (_ & Hn).
  rewrite join_plain, path_text, basename_app, ConfigText.text_chars by assumption.
  reflexivity.
Qed.

(** X7: the names of the files of a folder that match a pattern, for a
    folder path without [.] and [..] components and a pattern with [*]
    and without [?]: the pattern is printed, and the names come back
    bare, as [glob] finds them among the entries of the folder (not
    hidden unless the pattern starts with a dot), the folder part that
    [glob] puts before each name taken off again. *)
Theorem get_filenames_in_directory_names (dir_path file_ext : string) (w : world) :
  well_named w = true → folder_path dir_path = true → dotless dir_path = true →
  name_pattern file_ext = true → lacks "?" file_ext = true →
  file_ops.get_filenames_in_directory dir_path file_ext w
  = (Return
       (List.filter
          (λ n, (glob.is_hidden file_ext || negb (glob.is_hidden n))
                && glob.fnmatch (chars file_ext) (chars n))
          (os.listdir w dir_path)),
     mkWorld (fs w) (http w) (requested w)
       (logged w ++ [(STDOUT, dir_path +:+ "/" +:+ file_ext)])).
Proof.
  intros Hw Hdir _ Hpat _.
  pose proof (folder_path_inv _ Hdir) as (Hend & _ & Hne).
  pose proof (name_pattern_inv _ Hpat) as (Hfree & _).
  unfold file_ops.get_filenames_in_directory, file_ops.get_files_in_directory,
    bind, print, log, glob.glob, lift.
  rewrite (join_plain dir_path file_ext Hend Hfree).
  rewrite iglob_folder_pattern by assumption.
  rewrite result_map_basename; [|exact Hend|].
  - unfold glob.glob1. rewrite Hne. reflexivity.
  - intros n Hn. eapply glob1_entry_name; [|exact Hn]. exact Hw.
Qed.

Lemma get_filenames_in_directory_names_witness :
  let w := mkWorld
             (list_to_map
                [ (["ann"], Dir); (["ann"; "a.xml"], File (Bytes "<a/>"));
                  (["ann"; "b.txt"], File (Bytes "b"));
                  (["ann"; ".c.xml"], File (Bytes "<c/>")) ])
             offline [] [] in
  (file_ops.get_filenames_in_directory "ann" "*.xml" w).1 = Return ["a.xml"].
Proof.
  intros w.
  rewrite (get_filenames_in_directory_names "ann" "*.xml" w); [|reflexivity..].
  vm_compute. reflexivity.
Defined.

End FileOpsListings.

Section SubFolders.
Import Text Names PathText Listing.

Lemma sub_folders_pathname (dir : string) :
  ends_plain (chars dir) = true →
  os_path.join (os_path.join dir "*") "" = (dir +:+ "/" +:+ "*") +:+ "/" +:+ "".
Proof.
  intros Hd. rewrite (join_plain dir "*" Hd eq_refl). apply join_plain; [|reflexivity].
  rewrite chars_slash. now rewrite ends_plain_app.
Qed.

(** The subfolder pattern [dir/*/]: the directories among the visible
    entries, each with a slash at its end. *)
Lemma iglob_sub_folders (fuel : nat) (w : world) (dir : string) :
  folder_path dir = true →
  glob.iglob (S (S fuel)) w ((dir +:+ "/" +:+ "*") +:+ "/" +:+ "")
  = flat_map
      (λ d, os_path.join d <$>
              match os.node_at w d with Some Dir => [""] | _ => [] end)
      (os_path.join dir <$> glob.glob1 w dir "*").
Proof.
  intros Hdir. pose proof (folder_path_inv _ Hdir) as (Hend & Hmagic & Hne).
  assert (ends_plain (chars (dir +:+ "/" +:+ "*")) = true) as Hstar.
  { rewrite chars_slash. now rewrite ends_plain_app. }
  remember (S fuel) as fuel' eqn:Hfuel.
  cbn [glob.iglob]. rewrite (split_folder_entry _ "" Hstar eq_refl).
  rewrite !has_magic_app. change (glob.has_magic "*") with true.
  rewrite !orb_true_r. cbn [negb orb].
  assert (String.eqb (dir +:+ "/" +:+ "*") "" = false) as -> by (now destruct dir).
  assert (String.eqb (dir +:+ "/" +:+ "*") ((dir +:+ "/" +:+ "*") +:+ "/" +:+ "") = false)
    as ->.
  { apply String.eqb_neq. intros H. apply (f_equal chars) in H.
    rewrite (chars_slash (dir +:+ "/" +:+ "*") "") in H.
    apply (f_equal length) in H. rewrite length_app in H. simpl in H. lia. }
  cbn [negb andb]. subst fuel'.
  rewrite (iglob_folder_pattern fuel w dir "*" Hdir eq_refl).
  change (glob.has_magic "") with false. cbv iota.
  unfold glob.glob0. change (String.eqb "" "") with true. cbv iota.
  reflexivity.
Qed.

Lemma sub_folders_of_entries (w : world) (dir : string) (l : list string) :
  ends_plain (chars dir) = true →
  (∀ n, n ∈ l → entry_name n = true) →
  flat_map
    (λ d, os_path.join d <$>
            match os.node_at w d with Some Dir => [""] | _ => [] end)
    (os_path.join dir <$> List.filter (λ n, negb (glob.is_hidden n)) l)
  = (λ n, dir +:+ "/" +:+ n +:+ "/") <$>
      List.filter (λ n, negb (glob.is_hidden n))
        (List.filter
           (λ n, match os.node_at w (os_path.join dir n) with
                 | Some Dir => true
                 | _ => false
                 end) l).
Proof.
  intros Hd. induction l as [|n l IH]; intros Hall; [reflexivity|].
  assert (entry_name n = true) as Hn by (apply Hall; now left).
  specialize (IH (λ x Hx, Hall x (list_elem_of_further _ _ _ Hx))).
  cbn [List.filter].
  destruct (glob.is_hidden n) eqn:Hhid; cbn [negb].
  - rewrite IH.
    destruct (os.node_at w (os_path.join dir n)) as [[|c]|]; [|reflexivity..].
    cbn [List.filter]. now rewrite Hhid.
  - rewrite fmap_cons. cbn [flat_map]. rewrite IH.
    destruct (os.node_at w (os_path.join dir n)) as [[|c]|]; [|reflexivity..].
    cbn [List.filter]. rewrite Hhid. cbn [negb]. rewrite !fmap_cons.
    cbn [fmap list_fmap app]. f_equal.
    apply entry_name_inv in Hn as (Hne & Hfree).
    rewrite (join_plain dir n Hd Hfree).
    rewrite join_plain; [|rewrite chars_slash|reflexivity].
    + apply chars_inj. rewrite !chars_slash, ConfigText.chars_app, <- app_assoc. reflexivity.
    + change ("/"%char :: chars n) with (["/"%char] ++ chars n).
      rewrite !ends_plain_app; [|destruct n; [contradiction|discriminate]..].
      apply ends_plain_entry. unfold entry_name. rewrite Hfree, andb_true_r.
      destruct n; [contradiction|reflexivity].
Qed.

(** X8: the subfolders of a folder, for a folder path without [.] and
    [..] components, are its visible directories, in the order of the
    listing, each as [dir_path/name/] with a slash at the end; on such a
    path [get_parent_folder_name] gives the name of the subfolder
    itself. *)
Theorem get_sub_folders_list_spec (dir_path : string) (w : world) :
  well_named w = true → folder_path dir_path = true → dotless dir_path = true →
  let names :=
    List.filter (λ n, negb (glob.is_hidden n)) (subfolder_names w dir_path) in
  file_ops.get_sub_folders_list dir_path w
  = (Return ((λ n, dir_path +:+ "/" +:+ n +:+ "/") <$> names), w)
  ∧ file_ops.get_parent_folder_name <$>
      ((λ n, dir_path +:+ "/" +:+ n +:+ "/") <$> names)
    = names.
Proof.
  intros Hw Hdir _ names.
  pose proof (folder_path_inv _ Hdir) as (Hend & _ & Hne).
  split.
  - unfold file_ops.get_sub_folders_list, glob.glob.
    rewrite (sub_folders_pathname _ Hend).
    assert (∃ fuel, String.length ((dir_path +:+ "/" +:+ "*") +:+ "/" +:+ "") = S fuel)
      as (fuel & ->).
    { rewrite string_length_chars, (chars_slash (dir_path +:+ "/" +:+ "*") ""),
        length_app. simpl. exists (length (chars (dir_path +:+ "/" +:+ "*"))). lia. }
    rewrite (iglob_sub_folders fuel w dir_path Hdir).
    unfold glob.glob1. rewrite Hne.
    rewrite (filter_ext _ (λ n, negb (glob.is_hidden n))).
    2: { intros n. change (glob.is_hidden "*") with false.
         change (chars "*") with ["*"%char]. rewrite fnmatch_star. apply andb_true_r. }
    rewrite (sub_folders_of_entries w dir_path _ Hend); [reflexivity|].
    intros n Hn. now apply (listdir_entry_name w dir_path).
  - rewrite <- list_fmap_compose. rewrite <- (list_fmap_id names) at 2.
    apply list_fmap_ext. intros i n Hn. cbn.
    apply list_elem_of_lookup_2 in Hn. subst names.
    apply list_elem_of_In, filter_In in Hn as (Hn & _).
    unfold subfolder_names in Hn. apply filter_In in Hn as (Hn & _).
    apply list_elem_of_In, (listdir_entry_name w dir_path n Hw) in Hn.
    apply (parent_of_entry dir_path n "" Hn eq_refl).
Qed.

Lemma get_sub_folders_list_spec_witness :
  let w := mkWorld
             (list_to_map
                [ (["tf"], Dir); (["tf"; "camA_1"], Dir); (["tf"; ".cache"], Dir);
                  (["tf"; "notes.txt"], File (Bytes "n")) ])
             offline [] [] in
  file_ops.get_sub_folders_list "tf" w = (Return ["tf/camA_1/"], w)
  ∧ file_ops.get_parent_folder_name <$> ["tf/camA_1/"] = ["camA_1"].
Proof.
  intros w.
  destruct (get_sub_folders_list_spec "tf" w eq_refl eq_refl eq_refl)
    as (Hlist & Hnames).
  split.
  - rewrite Hlist. vm_compute. reflexivity.
  - vm_compute. reflexivity.
Defined.

End SubFolders.

(** ** The training DAG when it is loaded *)

Section LoadDescriptors.
Import Text Names PathText Listing.

(** X9: the loop of the DAG file over the training descriptors: with no
    visible [*.json] entry in the trainable folder no task is created;
    with one or more, the name of the first descriptor cannot be
    computed and the [TypeError] of [get_filename] ends the loading of
    the DAG file, whatever the descriptors hold. *)
Theorem load_descriptors_outcome
    (research_folder zone : string) (get_gcp_training_data_url : string → result string)
    (now : string) (w : world) :
  let descriptors :=
    List.filter (λ n, negb (glob.is_hidden n) && shutil.ends_with ".json" n)
      (os.listdir w train_models_dag.AIRFLOW_TRAINABLE_FOLDER) in
  (descriptors = [] →
   train_models_dag.load_descriptors research_folder zone get_gcp_training_data_url now w
   = (Return [], w))
  ∧ (descriptors ≠ [] →
     train_models_dag.load_descriptors research_folder zone get_gcp_training_data_url
       now w
     = (Raise (TypeError "splitext() takes 1 positional argument but 2 were given"), w)).
Proof.
  intros descriptors.
  unfold train_models_dag.load_descriptors, bind, glob.glob, lift.
  change (train_models_dag.AIRFLOW_TRAINABLE_FOLDER +:+ "/*.json")
    with (train_models_dag.AIRFLOW_TRAINABLE_FOLDER +:+ "/" +:+ "*.json").
  rewrite iglob_folder_pattern by reflexivity.
  assert (glob.glob1 w train_models_dag.AIRFLOW_TRAINABLE_FOLDER "*.json" = descriptors)
    as ->.
  { unfold glob.glob1, descriptors.
    change (String.eqb train_models_dag.AIRFLOW_TRAINABLE_FOLDER "") with false.
    cbv iota. apply filter_ext. intros n.
    change (glob.is_hidden "*.json") with false. cbn [orb].
    f_equal. apply (fnmatch_suffix_pattern ".json" n eq_refl). }
  split.
  - intros ->. reflexivity.
  - intros Hne. destruct descriptors as [|n rest]; [congruence|]. reflexivity.
Qed.

Lemma load_descriptors_outcome_witness :
  let w := mkWorld
             (list_to_map
                [ (["usr"; "local"; "airflow"; "data"; "trainable"], Dir);
                  (["usr"; "local"; "airflow"; "data"; "trainable"; "ssd.json"],
                   File (Bytes "{}")) ])
             offline [] [] in
  train_models_dag.load_descriptors "/tf/research" "us-east1" (λ _, Return "gs://bucket")
    "2020-01-24T10:30" world_without_folders
  = (Return [], world_without_folders)
  ∧ train_models_dag.load_descriptors "/tf/research" "us-east1" (λ _, Return "gs://bucket")
      "2020-01-24T10:30" w
    = (Raise (TypeError "splitext() takes 1 positional argument but 2 were given"), w).
Proof.
  intros w. split.
  - apply (proj1 (load_descriptors_outcome "/tf/research" "us-east1"
                    (λ _, Return "gs://bucket") "2020-01-24T10:30" world_without_folders)).
    vm_compute. reflexivity.
  - apply (proj2 (load_descriptors_outcome "/tf/research" "us-east1"
                    (λ _, Return "gs://bucket") "2020-01-24T10:30" w)).
    vm_compute. discriminate.
Defined.

End LoadDescriptors.

(** ** The label map generator *)

(** X10: [generate_labelmap_file] calls [file_ops.get_files_in_directory]
    with the directory only, and that function has a second parameter
    without default: for every input, and whatever the annotation files
    hold, the call raises [TypeError] before anything is read, printed
    or written. *)
Theorem generate_labelmap_file_raises
    (count_objects : string → M nat) (annotation_dir output_dir : string) (w : world) :
  export_labeled_dataset.generate_labelmap_file count_objects annotation_dir output_dir w
  = (Raise (TypeError
       "get_files_in_directory() missing 1 required positional argument: 'file_ext'"),
     w).
Proof. reflexivity. Qed.

(** ** Entries of folders: creating, writing and reading *)

Module Entries.
Import Text Names PathText Listing.

(** The key of [os.path.join(d, n)] is the key of [d] and the name
    [n]. *)
Lemma split_path_join (d n : string) :
  entry_name n = true →
  os.split_path (os_path.join d n) = os.split_path d ++ [n].
Proof.
  intros Hn. pose proof (entry_name_inv _ Hn) as (Hne & Hfree).
  unfold os_path.join.
  assert (prefixb ["/"%char] (chars n) = false) as ->.
  { unfold lacks in Hfree. destruct (chars n) as [|c r]; [reflexivity|].
    unfold free in Hfree. cbn [forallb] in Hfree.
    apply andb_true_iff in Hfree as (Hc & _). apply negb_true_iff in Hc.
    cbn [prefixb]. rewrite Ascii.eqb_sym, Hc. reflexivity. }
  destruct (String.eqb_spec d "") as [->|Hd].
  { unfold os.split_path. rewrite (split_on_free "/" [] (chars n)) by exact Hfree.
    cbn. rewrite ConfigText.text_chars. destruct (String.eqb_spec n ""); [contradiction|reflexivity]. }
  destruct (prefixb ["/"%char] (rev (chars d))) eqn:Hlast.
  - apply Substitution.prefixb_spec in Hlast as (r & Hr).
    apply (f_equal (@rev _)) in Hr. rewrite rev_involutive, rev_app_distr in Hr.
    cbn [rev app] in Hr.
    unfold os.split_path. rewrite ConfigText.chars_app, Hr, <- app_assoc. cbn [app].
    rewrite !ConfigFiles.split_on_app, !fmap_app, !ConfigFiles.filter_app_list.
    rewrite (split_on_free "/" [] (chars n)) by exact Hfree.
    cbn. rewrite ConfigText.text_chars, app_nil_r.
    destruct (String.eqb_spec n ""); [contradiction|reflexivity].
  - now apply split_path_entry.
Qed.

Lemma join_not_empty (d n : string) : n ≠ "" → String.eqb (os_path.join d n) "" = false.
Proof.
  intros Hn. unfold os_path.join.
  destruct (prefixb _ (chars n)); [now apply String.eqb_neq|].
  destruct (String.eqb d "") eqn:Hd; [now apply String.eqb_neq|].
  destruct (prefixb _ _); destruct d; try discriminate; reflexivity.
Qed.

Lemma node_at_join (w : world) (d n : string) :
  entry_name n = true →
  os.node_at w (os_path.join d n) = fs w !! (os.split_path d ++ [n]).
Proof.
  intros Hn. unfold os.node_at. rewrite split_path_join by exact Hn.
  rewrite join_not_empty by (now apply entry_name_inv in Hn).
  now destruct (os.split_path d).
Qed.

Lemma node_at_dir_key (w : world) (d : string) :
  os.node_at w d = Some Dir →
  os.split_path d = [] ∨ fs w !! os.split_path d = Some Dir.
Proof.
  unfold os.node_at. destruct (String.eqb d ""); [discriminate|].
  destruct (os.split_path d); auto.
Qed.

Lemma parent_of_join (w : world) (d n : string) :
  entry_name n = true → os.node_at w d = Some Dir →
  os.parent_error w (os_path.join d n) (os.split_path (os_path.join d n)) = None.
Proof.
  intros Hn Hd. unfold os.parent_error, os.parent_state.
  rewrite split_path_join, removelast_last by exact Hn.
  destruct (node_at_dir_key w d Hd) as [Hk|Hk];
    destruct (os.split_path d) as [|a l]; try reflexivity; try discriminate.
  now rewrite Hk.
Qed.

(** Storing the entry [n] of a directory [d], unless it is a directory
    itself. *)
Lemma store_join (w : world) (d n : string) (c : content) :
  entry_name n = true → os.node_at w d = Some Dir →
  fs w !! (os.split_path d ++ [n]) ≠ Some Dir →
  io.store (os_path.join d n) c w
  = (Return tt, set_fs (<[os.split_path d ++ [n] := File c]> (fs w)) w).
Proof.
  intros Hn Hd Hfree. unfold io.store.
  rewrite (parent_of_join w d n Hn Hd), (node_at_join w d n Hn).
  rewrite join_not_empty by (now apply entry_name_inv in Hn).
  rewrite split_path_join by exact Hn.
  destruct (fs w !! (os.split_path d ++ [n])) as [[|c']|]; [congruence|reflexivity..].
Qed.



(** A path that is a directory stays one when another path is set. *)
Lemma node_at_insert_ne (w : world) (p : string) (k : list string) (x : node) :
  os.split_path p ≠ k →
  os.node_at (set_fs (<[k := x]> (fs w)) w) p = os.node_at w p.
Proof.
  intros Hk. unfold os.node_at. destruct (String.eqb p ""); [reflexivity|].
  destruct (os.split_path p) as [|a l] eqn:E; [reflexivity|].
  cbn [fs set_fs]. now rewrite lookup_insert_ne.
Qed.

Lemma entry_key_not_folder {A} (k : list A) (n : A) : k ≠ k ++ [n].
Proof. intros H. apply (f_equal length) in H. rewrite length_app in H. simpl in H. lia. Qed.


(** The calls that depend on the file system only. *)
Lemma node_at_fs (w w' : world) (p : string) :
  fs w' = fs w → os.node_at w' p = os.node_at w p.
Proof. intros H. unfold os.node_at. now rewrite H. Qed.

(** The same for any path [p] that names the entry [n] of [d]. *)
Lemma split_path_not_empty (p : string) : os.split_path p ≠ [] → String.eqb p "" = false.
Proof. intros H. destruct p; [now contradiction H|reflexivity]. Qed.

Lemma node_at_key (w : world) (p : string) (k : list string) :
  os.split_path p = k → k ≠ [] → os.node_at w p = fs w !! k.
Proof.
  intros Hk Hne. unfold os.node_at.
  rewrite split_path_not_empty by (now rewrite Hk). rewrite Hk.
  now destruct k.
Qed.

Lemma store_at (w : world) (p d n : string) (c : content) :
  os.split_path p = os.split_path d ++ [n] →
  os.node_at w d = Some Dir →
  fs w !! (os.split_path d ++ [n]) ≠ Some Dir →
  io.store p c w
  = (Return tt, set_fs (<[os.split_path d ++ [n] := File c]> (fs w)) w).
Proof.
  intros Hp Hd Hfree. unfold io.store.
  rewrite (node_at_key w p _ Hp) by (now destruct (os.split_path d)).
  rewrite split_path_not_empty by (rewrite Hp; now destruct (os.split_path d)).
  unfold os.parent_error, os.parent_state. rewrite Hp, removelast_last.
  assert (match os.split_path d with [] => Some Dir | _ :: _ => fs w !! os.split_path d end
          = Some Dir) as Hparent.
  { destruct (node_at_dir_key w d Hd) as [Hk|Hk];
      destruct (os.split_path d) as [|a l]; try reflexivity; try discriminate. exact Hk. }
  destruct (fs w !! (os.split_path d ++ [n])) as [[|c']|]; [congruence|..];
    destruct (os.split_path d) as [|a l]; rewrite ?Hparent; reflexivity.
Qed.

Lemma node_at_after_insert (w w' : world) (p : string) (k : list string) (x : node) :
  fs w' = <[k := x]> (fs w) → os.split_path p ≠ k →
  os.node_at w' p = os.node_at w p.
Proof.
  intros Hw Hk. unfold os.node_at. destruct (String.eqb p ""); [reflexivity|].
  destruct (os.split_path p) as [|a l] eqn:E; [reflexivity|].
  rewrite Hw. now rewrite lookup_insert_ne.
Qed.

(** *** [os.makedirs] *)

Lemma foldl_insert_dirs_elem (ds : list (list string)) (m : gmap (list string) node)
    (k : list string) :
  k ∈ ds ∨ m !! k = Some Dir →
  foldl (λ m d, <[d := Dir]> m) m ds !! k = Some Dir.
Proof.
  revert m. induction ds as [|d ds IH]; intros m [H|H]; simpl.
  - inversion H.
  - exact H.
  - apply IH. apply elem_of_cons in H as [->|H]; [right; apply lookup_insert_eq|now left].
  - apply IH. right. destruct (decide (d = k)) as [->|Hne].
    + apply lookup_insert_eq.
    + now rewrite lookup_insert_ne.
Qed.

Lemma foldl_insert_dirs_other (ds : list (list string)) (m : gmap (list string) node)
    (k : list string) :
  k ∉ ds → foldl (λ m d, <[d := Dir]> m) m ds !! k = m !! k.
Proof.
  revert m. induction ds as [|d ds IH]; intros m H; simpl; [reflexivity|].
  apply not_elem_of_cons in H as (Hne & H).
  rewrite IH by exact H. now rewrite lookup_insert_ne.
Qed.

Lemma self_in_prefixes (k : list string) : k ≠ [] → k ∈ os.prefixes k.
Proof.
  intros Hk. unfold os.prefixes. apply list_elem_of_fmap. exists (length k). split.
  - symmetry. apply firstn_all.
  - apply elem_of_seq. destruct k; [contradiction|simpl; lia].
Qed.

(** [makedirs] touches the prefixes of its path only. *)
Lemma makedirs_keys (p : string) (w w' : world) (r : result unit) :
  os.makedirs p w = (r, w') →
  ∀ k, k ∉ os.prefixes (os.split_path p) → fs w' !! k = fs w !! k.
Proof.
  unfold os.makedirs.
  destruct (existsb _ _); [now intros [= _ <-]|].
  destruct (os.node_at w p); [now intros [= _ <-]|].
  destruct (String.eqb p ""); [now intros [= _ <-]|].
  intros [= _ <-] k Hk. cbn [fs set_fs]. now apply foldl_insert_dirs_other.
Qed.

Lemma folder_exist_or_create_keys (p : string) (w w' : world) (r : result unit) :
  file_ops.folder_exist_or_create p w = (r, w') →
  ∀ k, k ∉ os.prefixes (os.split_path p) → fs w' !! k = fs w !! k.
Proof.
  unfold file_ops.folder_exist_or_create, bind, os.path_exists.
  destruct (bool_decide _); cbn [negb].
  - now intros [= _ <-].
  - apply makedirs_keys.
Qed.

(** A sibling of the last name of a path is none of its prefixes. *)
Lemma sibling_not_prefix (k : list string) (a b : string) :
  a ≠ b → k ++ [a] ∉ os.prefixes (k ++ [b]).
Proof.
  intros Hab Hin. unfold os.prefixes in Hin.
  apply list_elem_of_fmap in Hin as (n & Hn & Hrange).
  apply elem_of_seq in Hrange. rewrite length_app in Hrange. simpl in Hrange.
  destruct (decide (n = length k + 1)) as [->|Hne].
  - rewrite firstn_all2 in Hn by (rewrite length_app; simpl; lia).
    apply app_inj_tail in Hn as (_ & Hn). contradiction.
  - apply (f_equal length) in Hn. rewrite length_take, !length_app in Hn.
    simpl in Hn. lia.
Qed.

Lemma only_new_dirs_dir (w w' : world) (p : string) :
  only_new_dirs w w' → os.node_at w p = Some Dir → os.node_at w' p = Some Dir.
Proof.
  intros (_ & _ & _ & H) Hp. unfold os.node_at in *.
  destruct (String.eqb p ""); [discriminate|].
  destruct (os.split_path p) as [|a l]; [reflexivity|].
  destruct (H (a :: l)) as [E|[E1 E2]]; congruence.
Qed.

End Entries.

(** ** The model catalog *)

Section Catalog.
Import Text Names PathText Listing Entries.

(** X11: the catalog has one row for each link of the page whose address
    holds the prefix of the model zoo, in the order of the page; the
    other links are skipped, and one line is logged.  The address, the
    file name and the folder name of a row are those computed from the
    address of its link. *)
Theorem parse_downloaded_model_file_list_rows
    (r : response) (hrefs : list string) (w : world) :
  Forall2 (λ l h, prepare.getitem (attrs l) "href" = Return h) (links r) hrefs →
  ∃ rows,
    prepare.__parse_downloaded_model_file_list_response r w
    = (Return rows,
       mkWorld (fs w) (http w) (requested w)
         (logged w ++ [(INFO, "Parsed all model data from the webpage " +:+ url r)]))
    ∧ Forall2
        (λ row (lh : link * string),
           address_fields row = address_fields (prepare.entry_of_link lh.1 lh.2))
        rows
        (List.filter (λ lh, Text.contains prepare.zoo_prefix lh.2) (zip (links r) hrefs))
    ∧ model_url <$> rows = List.filter (Text.contains prepare.zoo_prefix) hrefs.
Proof.
  intros H. eexists. split; [|split].
  - unfold prepare.__parse_downloaded_model_file_list_response, bind, lift.
    rewrite (parse_links_rows _ _ [] H). reflexivity.
  - cbn [app]. induction (List.filter _ (zip (links r) hrefs)) as [|lh lhs IH].
    + constructor.
    + rewrite fmap_cons. constructor; [reflexivity|exact IH].
  - apply rows_urls, (Forall2_length _ _ _ H).
Qed.

Lemma parse_downloaded_model_file_list_rows_witness :
  let zoo := "http://download.tensorflow.org/models/object_detection/ssd_2018_01_28.tar.gz" in
  let page :=
    mkResponse 200 "https://example.org/zoo.md"
      [ mkLink [("href", "https://example.org/about")] "About";
        mkLink [("href", zoo)] " SSD " ]
      (Bytes "") in
  ∃ row,
    (prepare.__parse_downloaded_model_file_list_response page world_offline).1
    = Return [row]
    ∧ address_fields row = (zoo, "ssd_2018_01_28.tar.gz", "ssd_2018_01_28").
Proof.
  intros zoo page.
  destruct (parse_downloaded_model_file_list_rows page ["https://example.org/about"; zoo]
              world_offline) as (rows & Hrun & Hrows & _).
  - repeat constructor.
  - apply Forall2_length in Hrows as Hlen.
    destruct rows as [|row [|row' rows]]; try discriminate Hlen.
    exists row. split; [now rewrite Hrun|].
    apply Forall2_cons_1 in Hrows as (Hrow & _). exact Hrow.
Defined.

Lemma zoo_prefix_slash :
  ∃ p, chars prepare.zoo_prefix = p ++ ["/"%char].
Proof.
  exists (chars "http://download.tensorflow.org/models/object_detection"). reflexivity.
Qed.

Lemma not_dots_app (a b : list ascii) :
  forallb (λ c, Ascii.eqb c ".") a = false →
  forallb (λ c, Ascii.eqb c ".") (a ++ b) = false.
Proof. intros H. now rewrite forallb_app, H. Qed.

(** X12: a link to [stem.e1.e2] in the model zoo, where the stem may hold
    dots but does not consist of dots: the file name is the last field
    of the address and the folder name is the stem, the file name
    without its last two extensions. *)
Theorem entry_of_link_names (l : link) (stem e1 e2 : string) :
  lacks "/" stem = true →
  forallb (λ c, Ascii.eqb c ".") (chars stem) = false →
  lacks "." e1 = true → lacks "/" e1 = true →
  lacks "." e2 = true → lacks "/" e2 = true →
  let file_name := stem +:+ "." +:+ e1 +:+ "." +:+ e2 in
  let entry := prepare.entry_of_link l (prepare.zoo_prefix +:+ file_name) in
  model_url entry = prepare.zoo_prefix +:+ file_name
  ∧ model_file_name entry = file_name
  ∧ model_folder_name entry = stem.
Proof.
  intros Hstem Hdots Hd1 Hs1 Hd2 Hs2 file_name entry.
  assert (lacks "/" file_name = true) as Hfile.
  { unfold file_name. rewrite !lacks_app, Hstem, Hs1, Hs2. reflexivity. }
  assert (last_field "/" (prepare.zoo_prefix +:+ file_name) = file_name) as Hlast.
  { unfold last_field. destruct zoo_prefix_slash as (p & Hp).
    rewrite ConfigText.chars_app, Hp, <- app_assoc. cbn [app].
    rewrite after_last_app, after_last_free by exact Hfile. apply ConfigText.text_chars. }
  split; [reflexivity|]. split.
  - exact Hlast.
  - unfold entry, prepare.entry_of_link. cbn [model_folder_name]. rewrite Hlast.
    rewrite (basename_free file_name Hfile).
    assert (file_name = text (chars (stem +:+ "." +:+ e1) ++ "."%char :: chars e2)) as ->.
    { apply chars_inj. unfold file_name.
      rewrite ConfigText.chars_text, !ConfigText.chars_app, <- !app_assoc. reflexivity. }
    rewrite splitext_name; [|exact Hd2|exact Hs2|].
    2: { rewrite after_last_free.
         - cbn [rev app]. rewrite ConfigText.chars_app. now apply not_dots_app.
         - fold (lacks "/" (stem +:+ "." +:+ e1)). rewrite !lacks_app, Hstem, Hs1.
           reflexivity. }
    cbn [fst]. rewrite ConfigText.text_chars.
    rewrite basename_free by (rewrite !lacks_app, Hstem, Hs1; reflexivity).
    assert (stem +:+ "." +:+ e1 = text (chars stem ++ "."%char :: chars e1)) as ->.
    { apply chars_inj. rewrite ConfigText.chars_text, !ConfigText.chars_app. reflexivity. }
    rewrite splitext_name; [|exact Hd1|exact Hs1|].
    + cbn [fst]. apply ConfigText.text_chars.
    + rewrite after_last_free by exact Hstem. exact Hdots.
Qed.

Lemma entry_of_link_names_witness :
  let entry :=
    prepare.entry_of_link (mkLink [] "SSD")
      "http://download.tensorflow.org/models/object_detection/ssd_v1_0.75_depth.tar.gz" in
  model_file_name entry = "ssd_v1_0.75_depth.tar.gz"
  ∧ model_folder_name entry = "ssd_v1_0.75_depth".
Proof.
  apply (entry_of_link_names (mkLink [] "SSD") "ssd_v1_0.75_depth" "tar" "gz");
    reflexivity.
Defined.

(** X13: a refresh that succeeds: the page was fetched, every link has an
    address, and the CSV is an entry of an existing folder, not a
    directory, and not called [.] or [..].  Then the CSV holds a table
    with one row for each address of the page that holds the prefix of
    the model zoo, whatever it held before, and nothing else changed in
    the file system; the branch that follows takes the positive task. *)
Theorem download_reference_model_list_as_csv_refreshes
    (u folder name positive negative : string) (r : response)
    (hrefs : list string) (w : world) :
  http w u = Return r →
  Forall2 (λ l h, prepare.getitem (attrs l) "href" = Return h) (links r) hrefs →
  entry_name name = true → dotless name = true →
  os.node_at w folder = Some Dir →
  os.node_at w (os_path.join folder name) ≠ Some Dir →
  let base_model_csv := os_path.join folder name in
  let out := prepare.download_reference_model_list_as_csv u base_model_csv w in
  out.1 = Return tt
  ∧ (∃ rows,
       fs out.2 = <[os.split_path base_model_csv := File (Table rows)]> (fs w)
       ∧ model_url <$> rows = List.filter (Text.contains prepare.zoo_prefix) hrefs)
  ∧ prepare.validate_reference_model_list_exist_or_create base_model_csv
      positive negative out.2
    = (Return positive, out.2).
Proof.
  intros Hnet Hrefs Hname _ Hfolder Hfree base_model_csv out.
  rewrite (node_at_join w folder name Hname) in Hfree.
  set (rows := (λ lh : link * string, prepare.entry_of_link lh.1 lh.2) <$>
                 List.filter (λ lh, Text.contains prepare.zoo_prefix lh.2)
                   (zip (links r) hrefs)).
  assert (out
          = (Return tt,
             mkWorld (<[os.split_path folder ++ [name] := File (Table rows)]> (fs w))
               (http w) (requested w ++ [u])
               ((logged w
                   ++ [(INFO, "Parsed all model data from the webpage " +:+ url r)])
                  ++ [(INFO, "Model list data saved to csv file")]))) as Hout.
  { unfold out, prepare.download_reference_model_list_as_csv, try_except, bind, requests_get,
      prepare.__parse_downloaded_model_file_list_response, bind, lift.
    rewrite Hnet, (parse_links_rows _ _ [] Hrefs). cbn [app]. fold rows.
    unfold log at 1. unfold ret, pd.to_csv.
    unfold base_model_csv. rewrite store_join; [reflexivity|exact Hname|exact Hfolder|].
    exact Hfree. }
  rewrite Hout. cbn [fst snd fs].
  split; [reflexivity|]. split.
  { exists rows. split.
    - unfold base_model_csv. now rewrite split_path_join.
    - apply rows_urls, (Forall2_length _ _ _ Hrefs). }
  unfold prepare.validate_reference_model_list_exist_or_create, bind,
    file_ops.file_exist, os.path_isfile.
  unfold base_model_csv. rewrite node_at_join by exact Hname. cbn [fs].
  rewrite lookup_insert_eq. reflexivity.
Qed.

Lemma download_reference_model_list_as_csv_refreshes_witness :
  let zoo := "http://download.tensorflow.org/models/object_detection/ssd_2018_01_28.tar.gz" in
  let page :=
    mkResponse 200 "https://example.org/zoo.md" [mkLink [("href", zoo)] "SSD"] (Bytes "") in
  let w := mkWorld (list_to_map [(["data"], Dir)]) (λ _, Return page) [] [] in
  let out := prepare.download_reference_model_list_as_csv "https://example.org/zoo.md"
               "data/models.csv" w in
  out.1 = Return tt
  ∧ prepare.validate_reference_model_list_exist_or_create "data/models.csv"
      "validate" "download" out.2
    = (Return "validate", out.2).
Proof.
  intros zoo page w out.
  destruct (download_reference_model_list_as_csv_refreshes "https://example.org/zoo.md"
              "data" "models.csv" "validate" "download" page [zoo] w)
    as (H1 & _ & H3); try reflexivity.
  - repeat constructor.
  - vm_compute. discriminate.
  - split; [exact H1|exact H3].
Defined.

End Catalog.

(** ** Folders that exist or are created *)

Section Folders.
Import Text Names PathText Listing Entries.

Lemma makedirs_creates (p : string) (w w' : world) :
  os.makedirs p w = (Return tt, w') → os.node_at w' p = Some Dir.
Proof.
  unfold os.makedirs.
  destruct (existsb _ _); [discriminate|].
  destruct (os.node_at w p) eqn:Hnode; [discriminate|].
  destruct (String.eqb p "") eqn:Hp; [discriminate|].
  intros [= <-]. unfold os.node_at in *. rewrite Hp in *.
  destruct (os.split_path p) as [|a l] eqn:Hk; [reflexivity|].
  cbn [fs set_fs]. apply foldl_insert_dirs_elem. left.
  now apply self_in_prefixes.
Qed.

(** X14: [create_training_folder] and
    [validate_model_presence_in_model_repo_or_create] take whatever is at
    the path for the folder: an existing regular file is left as it is
    and reported as the folder.  When the call returns, the path exists,
    the file system has at most gained directories, and a second call
    adds a log line and nothing else. *)
Theorem create_training_folder_outcomes (model_training_folder : string) (w : world) :
  literal_path model_training_folder = true →
  (∀ c, os.node_at w model_training_folder = Some (File c) →
        prepare.create_training_folder model_training_folder w
        = (Return tt,
           mkWorld (fs w) (http w) (requested w)
             (logged w ++ [(INFO, "Temporary training folder created")]))
        ∧ prepare.validate_model_presence_in_model_repo_or_create model_training_folder w
          = (Return tt,
             mkWorld (fs w) (http w) (requested w)
               (logged w ++ [(INFO, "Model directory present in model repository")])))
  ∧ (∀ w', prepare.create_training_folder model_training_folder w = (Return tt, w') →
           is_Some (os.node_at w' model_training_folder)
           ∧ (∀ k, fs w' !! k = fs w !! k ∨ (fs w !! k = None ∧ fs w' !! k = Some Dir))
           ∧ prepare.create_training_folder model_training_folder w'
             = (Return tt,
                mkWorld (fs w') (http w') (requested w')
                  (logged w' ++ [(INFO, "Temporary training folder created")]))).
Proof.
  intros _. split.
  - intros c Hfile.
    unfold prepare.create_training_folder,
      prepare.validate_model_presence_in_model_repo_or_create,
      file_ops.folder_exist_or_create, bind, os.path_exists.
    rewrite Hfile, bool_decide_eq_true_2 by eauto. split; reflexivity.
  - intros w'. unfold prepare.create_training_folder, bind.
    destruct (file_ops.folder_exist_or_create model_training_folder w)
      as [[[]|e] w1] eqn:Hcreate; [|discriminate].
    unfold log at 1. intros [= <-].
    pose proof (folder_exist_or_create_effect _ _ _ _ Hcreate) as (_ & _ & _ & Hdirs).
    assert (is_Some (os.node_at w1 model_training_folder)) as Hexists.
    { revert Hcreate. unfold file_ops.folder_exist_or_create, bind, os.path_exists.
      destruct (bool_decide_reflect (is_Some (os.node_at w model_training_folder)))
        as [Hyes|Hno]; cbn [negb].
      - now intros [= <-].
      - intros Hmk. apply makedirs_creates in Hmk. rewrite Hmk. eauto. }
    split; [exact Hexists|]. split; [exact Hdirs|].
    unfold file_ops.folder_exist_or_create, bind, os.path_exists.
    rewrite bool_decide_eq_true_2 by exact Hexists. reflexivity.
Qed.

Lemma create_training_folder_outcomes_witness :
  let w := mkWorld (list_to_map [(["training"], File (Bytes "notes"))]) offline [] [] in
  (prepare.create_training_folder "training" w).1 = Return tt
  ∧ os.node_at (prepare.create_training_folder "training" w).2 "training"
    = Some (File (Bytes "notes"))
  ∧ is_Some (os.node_at (prepare.create_training_folder "data/training"
                           world_without_folders).2 "data/training").
Proof.
  intros w.
  destruct (proj1 (create_training_folder_outcomes "training" w eq_refl)
              (Bytes "notes") eq_refl) as (Hfile & _).
  split; [now rewrite Hfile|]. split; [now rewrite Hfile|].
  destruct (prepare.create_training_folder "data/training" world_without_folders)
    as [r w'] eqn:Hrun.
  assert (r = Return tt) as -> by (apply (f_equal fst) in Hrun; vm_compute in Hrun; congruence).
  exact (proj1 (proj2 (create_training_folder_outcomes "data/training"
                         world_without_folders eq_refl) w' Hrun)).
Defined.

End Folders.

(** ** The base model sync, one entry of the catalog *)

Section SyncModel.
Import Text Names PathText Listing Entries.







End SyncModel.

(** ** The TFRecord merges *)

Section Merges.
Import Text Names PathText Listing Entries.

(** The world after the two destination folders exist: the destination
    is a directory still, and its label map entry is as before. *)
Lemma merge_prologue_keeps (destination : string) (w w1 : world) (n : string) :
  merge_prologue destination w = (Return tt, w1) →
  os.node_at w destination = Some Dir →
  n ≠ "train" → n ≠ "val" →
  os.node_at w1 destination = Some Dir
  ∧ fs w1 !! (os.split_path destination ++ [n])
    = fs w !! (os.split_path destination ++ [n]).
Proof.
  intros Hrun Hdir Htrain Hval. split.
  - eapply only_new_dirs_dir; [|exact Hdir]. eapply merge_prologue_effect. exact Hrun.
  - revert Hrun. unfold merge_prologue, bind.
    destruct (file_ops.folder_exist_or_create (destination +:+ "/train") w)
      as [[[]|e] w0] eqn:H1; [|discriminate].
    intros H2.
    rewrite (folder_exist_or_create_keys _ _ _ _ H2).
    + rewrite (folder_exist_or_create_keys _ _ _ _ H1); [reflexivity|].
      change (destination +:+ "/train") with (destination +:+ "/" +:+ "train").
      rewrite split_path_entry by reflexivity. now apply sibling_not_prefix.
    + change (destination +:+ "/val") with (destination +:+ "/" +:+ "val").
      rewrite split_path_entry by reflexivity. now apply sibling_not_prefix.
Qed.

(** The label map of a merge that found no label map: the file is
    opened, hence emptied, before the first label map is looked up. *)
Lemma write_first_labelmap_none (destination : string) (w : world) :
  os.node_at w destination = Some Dir →
  fs w !! (os.split_path destination ++ ["labelmap.pbtxt"]) ≠ Some Dir →
  prepare.write_first_labelmap (destination +:+ "/labelmap.pbtxt") [] w
  = (Raise (IndexError "list index out of range"),
     set_fs (<[os.split_path destination ++ ["labelmap.pbtxt"] := File (Bytes "")]> (fs w))
       w).
Proof.
  intros Hdir Hfree. unfold prepare.write_first_labelmap, bind, io.open_w.
  rewrite (store_at w _ destination "labelmap.pbtxt"); [reflexivity| |exact Hdir|exact Hfree].
  change (destination +:+ "/labelmap.pbtxt")
    with (destination +:+ "/" +:+ "labelmap.pbtxt").
  now apply split_path_entry.
Qed.

(** X17: a merge for a video source that no subfolder matches, with any
    implementation of the missing helper that then returns the empty
    list: once the two destination folders exist, the label map of the
    destination is opened for writing before the list of label maps is
    indexed, so both merges end with [IndexError] and leave an empty
    [labelmap.pbtxt], whatever that file held before. *)
Theorem merge_without_label_map_empties_it
    (ns : file_ops.helpers) (h : string → string → M (list string))
    (tf_records_folder destination video_source : string) (w : world) :
  file_ops.get_directory_subfolders_subset ns = Some h →
  (∀ w0, h tf_records_folder video_source w0 = (Return [], w0)) →
  os.node_at w destination = Some Dir →
  os.node_at w (destination +:+ "/labelmap.pbtxt") ≠ Some Dir →
  (merge_prologue destination w).1 = Return tt →
  let training :=
    prepare.copy_tf_records_to_training_folder ns tf_records_folder destination
      video_source w in
  let model_repo :=
    prepare.copy_tf_records_to_model_repo ns tf_records_folder destination
      video_source w in
  training.1 = Raise (IndexError "list index out of range")
  ∧ io.read_text (destination +:+ "/labelmap.pbtxt") training.2 = (Return "", training.2)
  ∧ model_repo.1 = Raise (IndexError "list index out of range")
  ∧ io.read_text (destination +:+ "/labelmap.pbtxt") model_repo.2
    = (Return "", model_repo.2).
Proof.
  intros Hattr Hnone Hdir Hfree Hprologue training model_repo.
  change (destination +:+ "/labelmap.pbtxt")
    with (destination +:+ "/" +:+ "labelmap.pbtxt") in *.
  rewrite node_at_entry in Hfree by reflexivity.
  destruct (merge_prologue destination w) as [r w1] eqn:Hrun.
  cbn [fst] in Hprologue. subst r.
  destruct (merge_prologue_keeps destination w w1 "labelmap.pbtxt" Hrun Hdir)
    as (Hdir1 & Hkey1); [discriminate..|].
  assert (fs w1 !! (os.split_path destination ++ ["labelmap.pbtxt"]) ≠ Some Dir) as Hfree1
    by (now rewrite Hkey1).
  assert (∀ w2, fs w2 = <[os.split_path destination ++ ["labelmap.pbtxt"]
                          := File (Bytes "")]> (fs w1) →
                io.read_text (destination +:+ "/" +:+ "labelmap.pbtxt") w2
                = (Return "", w2)) as Hread.
  { intros w2 Hw2. unfold io.read_text, bind, io.load.
    rewrite node_at_entry, Hw2, lookup_insert_eq by reflexivity. reflexivity. }
  assert (training
          = (Raise (IndexError "list index out of range"),
             set_fs (<[os.split_path destination ++ ["labelmap.pbtxt"]
                       := File (Bytes "")]> (fs w1)) w1)) as Htraining.
  { unfold training, prepare.copy_tf_records_to_training_folder.
    revert Hrun. unfold merge_prologue, bind.
    destruct (file_ops.folder_exist_or_create (destination +:+ "/train") w)
      as [[[]|e] w0]; [|discriminate].
    intros ->. rewrite Hattr. cbn [file_ops.getattr]. unfold ret at 1.
    rewrite Hnone. cbn [prepare.for_fold]. unfold ret at 1.
    cbn [prepare.copy_all for_each]. unfold ret at 1. unfold ret at 1.
    rewrite (write_first_labelmap_none destination w1 Hdir1 Hfree1). reflexivity. }
  assert (model_repo
          = (Raise (IndexError "list index out of range"),
             set_fs (<[os.split_path destination ++ ["labelmap.pbtxt"]
                       := File (Bytes "")]> (fs w1)) w1)) as Hrepo.
  { unfold model_repo, prepare.copy_tf_records_to_model_repo.
    revert Hrun. unfold merge_prologue, bind.
    destruct (file_ops.folder_exist_or_create (destination +:+ "/train") w)
      as [[[]|e] w0]; [|discriminate].
    intros ->. rewrite Hattr. cbn [file_ops.getattr]. unfold ret at 1.
    rewrite Hnone. cbn [prepare.for_fold]. unfold ret at 1.
    cbn [prepare.copy_all for_each]. unfold ret at 1. unfold ret at 1.
    rewrite (write_first_labelmap_none destination w1 Hdir1 Hfree1). reflexivity. }
  rewrite Htraining, Hrepo. cbn [fst snd].
  split; [reflexivity|]. split; [now apply Hread|].
  split; [reflexivity|]. now apply Hread.
Qed.

Lemma merge_without_label_map_empties_it_witness :
  let ns := file_ops.mkHelpers (Some (λ _ _ w0, (Return [], w0))) None None None in
  let w := mkWorld
             (list_to_map
                [ (["out"], Dir);
                  (["out"; "labelmap.pbtxt"], File (Bytes "item { id: 1 }")) ])
             offline [] [] in
  let training := prepare.copy_tf_records_to_training_folder ns "tf" "out" "camB" w in
  training.1 = Raise (IndexError "list index out of range")
  ∧ io.read_text "out/labelmap.pbtxt" training.2 = (Return "", training.2).
Proof.
  intros ns w training.
  destruct (merge_without_label_map_empties_it ns (λ _ _ w0, (Return [], w0))
              "tf" "out" "camB" w) as (H1 & H2 & _); try reflexivity.
  - vm_compute. discriminate.
  - split; [exact H1|exact H2].
Defined.

(** X18: records are copied under their file names: when two records of
    different bundles have the same name, the second copy replaces the
    first, and the destination holds one file with the content of the
    second record. *)
Theorem copy_all_same_name_last_wins
    (first second folder : string) (c1 c2 : content) (w : world) :
  os_path.basename first = os_path.basename second →
  entry_name (os_path.basename first) = true →
  os.node_at w folder = Some Dir →
  os.node_at w first = Some (File c1) →
  os.node_at w second = Some (File c2) →
  let target := os_path.join folder (os_path.basename first) in
  os.node_at w target = None →
  let out := prepare.copy_all [first; second] folder w in
  out.1 = Return tt
  ∧ fs out.2 = <[os.split_path target := File c2]> (fs w)
  ∧ io.load target out.2 = (Return c2, out.2).
Proof.
  intros Hsame Hname Hdir Hfirst Hsecond target Hfresh out.
  set (n := os_path.basename first) in *.
  set (k := os.split_path folder ++ [n]).
  assert (os.split_path target = k) as Hk by (now apply split_path_join).
  assert (fs w !! k = None) as Hnone.
  { unfold target in Hfresh. now rewrite node_at_join in Hfresh. }
  assert (∀ p c, os.node_at w p = Some (File c) → os.split_path p ≠ k) as Hother.
  { intros p c Hp Hpk. unfold os.node_at in Hp.
    destruct (String.eqb p ""); [discriminate|]. rewrite Hpk in Hp.
    unfold k in Hp. destruct (os.split_path folder); simpl in Hp;
      unfold k in Hnone; simpl in Hnone; congruence. }
  assert (∀ p c w', fs w' = fs w ∨ (∃ x, fs w' = <[k := x]> (fs w)) →
                    os.node_at w p = Some (File c) → io.load p w' = (Return c, w'))
    as Hload.
  { intros p c w' Hw' Hp. unfold io.load.
    destruct Hw' as [Hw'|(x & Hw')].
    - now rewrite (node_at_fs w w' p Hw'), Hp.
    - rewrite (node_at_after_insert w w' p k x Hw') by (eapply Hother; eauto).
      now rewrite Hp. }
  assert (out
          = (Return tt,
             mkWorld (<[k := File c2]> (fs w)) (http w) (requested w)
               ((logged w ++ [(INFO, "Copied " +:+ first +:+ " to " +:+ folder)])
                  ++ [(INFO, "Copied " +:+ second +:+ " to " +:+ folder)]))) as Hout.
  { unfold out, prepare.copy_all. cbn [for_each].
    unfold bind at 1. unfold bind at 1. unfold shutil.copy2 at 1.
    unfold bind at 1, os.path_isdir at 1. rewrite Hdir. fold n. fold target.
    rewrite bool_decide_eq_false_2 by (rewrite Hk; eapply Hother; eauto).
    unfold bind at 1. rewrite (Hload first c1 w) by auto.
    unfold target at 1. rewrite store_join; [|exact Hname|exact Hdir|].
    2: { fold k. rewrite Hnone. discriminate. }
    fold k. unfold log at 1. cbn [fs http requested logged set_fs].
    unfold bind at 1. unfold bind at 1. unfold shutil.copy2 at 1.
    unfold bind at 1, os.path_isdir at 1.
    rewrite (node_at_after_insert w _ folder k (File c1)) by
      (try reflexivity; apply entry_key_not_folder).
    rewrite Hdir. rewrite <- Hsame. fold n. fold target.
    rewrite bool_decide_eq_false_2 by (rewrite Hk; eapply Hother; eauto).
    unfold bind at 1. rewrite (Hload second c2) by (try exact Hsecond; right; eauto).
    unfold target at 1. rewrite store_join; [|exact Hname| |].
    2: { rewrite (node_at_after_insert w _ folder k (File c1)) by
           (try reflexivity; apply entry_key_not_folder). exact Hdir. }
    2: { cbn [fs]. fold k. rewrite lookup_insert_eq. discriminate. }
    fold k. unfold log at 1. cbn [fs http requested logged set_fs].
    rewrite insert_insert_eq. reflexivity. }
  rewrite Hout. cbn [fst snd fs]. rewrite Hk.
  split; [reflexivity|]. split; [reflexivity|].
  unfold io.load, target. rewrite node_at_join by exact Hname. cbn [fs]. fold k.
  now rewrite lookup_insert_eq.
Qed.

Lemma copy_all_same_name_last_wins_witness :
  let w := mkWorld
             (list_to_map
                [ (["tf"], Dir); (["tf"; "camA_1"], Dir); (["tf"; "camA_2"], Dir);
                  (["tf"; "camA_1"; "data_train.record"], File (Bytes "first"));
                  (["tf"; "camA_2"; "data_train.record"], File (Bytes "second"));
                  (["out"], Dir) ])
             offline [] [] in
  let out := prepare.copy_all
               ["tf/camA_1/data_train.record"; "tf/camA_2/data_train.record"] "out" w in
  out.1 = Return tt
  ∧ io.load "out/data_train.record" out.2 = (Return (Bytes "second"), out.2).
Proof.
  intros w out.
  destruct (copy_all_same_name_last_wins "tf/camA_1/data_train.record"
              "tf/camA_2/data_train.record" "out" (Bytes "first") (Bytes "second") w)
    as (H1 & _ & H3); try reflexivity.
  split; [exact H1|exact H3].
Defined.

End Merges.

(** ** The comparison of the label maps *)

Section CompareLabelMaps.
Import Text Names PathText Listing Entries.







End CompareLabelMaps.

(** ** Config generation: the edges *)

Section ConfigEdges.
Import Text Names PathText Tokens Substitution.

Lemma plain_app (a b : list ascii) : plain (a ++ b) = plain a && plain b.
Proof. apply forallb_app. Qed.

Lemma plain_path (bucket_url model_folder_ts rest : string) :
  plain (chars bucket_url) = true → plain (chars model_folder_ts) = true →
  plain (chars rest) = true →
  plain (chars (bucket_url +:+ "/" +:+ model_folder_ts +:+ rest)) = true.
Proof.
  intros Hb Hf Hr. rewrite !ConfigText.chars_app, !plain_app, Hb, Hf, Hr. reflexivity.
Qed.

(** A substitution whose token is not in the text. *)
Lemma sub_absent (token value template : string) :
  token ≠ "" → plain (chars value) = true →
  Text.contains token template = false →
  re.sub token value template = Return template.
Proof.
  intros Hne Hplain Habsent. rewrite ConfigText.sub_plain by exact Hplain.
  rewrite replace_all_absent.
  - now rewrite ConfigText.text_chars.
  - intros H. apply chars_empty in H. contradiction.
  - now apply ConfigText.contains_false.
Qed.

(** X20: a template that holds none of the seven tokens is the text of the
    configuration, for values without backslash; it is written as it is
    to both folders when these can hold the file. *)
Theorem generate_model_config_without_tokens
    (model_training_folder model_repo_folder model_folder_ts model_config_template
       num_classes bucket_url training_batch_size training_epoch_count : string)
    (w : world) :
  (∀ token, token ∈ prepare.tokens → Text.contains token model_config_template = false) →
  plain (chars model_folder_ts) = true → plain (chars num_classes) = true →
  plain (chars bucket_url) = true → plain (chars training_batch_size) = true →
  plain (chars training_epoch_count) = true →
  holds_config w model_training_folder = true →
  holds_config w model_repo_folder = true →
  prepare.config_text model_folder_ts model_config_template num_classes bucket_url
    training_batch_size training_epoch_count = Return model_config_template
  ∧ ∃ w',
      prepare.generate_model_config model_training_folder model_repo_folder
        model_folder_ts model_config_template num_classes bucket_url
        training_batch_size training_epoch_count w = (Return tt, w')
      ∧ io.read_text (model_training_folder +:+ "/pipeline.config") w'
        = (Return model_config_template, w')
      ∧ io.read_text (model_repo_folder +:+ "/pipeline.config") w'
        = (Return model_config_template, w').
Proof.
  intros Habsent Hf Hn Hb Hbs He Htrain Hrepo.
  assert (prepare.config_text model_folder_ts model_config_template num_classes
            bucket_url training_batch_size training_epoch_count
          = Return model_config_template) as Htext.
  { unfold prepare.config_text.
    repeat (rewrite sub_absent;
            [cbn [result_bind]
            |discriminate
            |first [assumption|apply plain_path; [assumption|assumption|reflexivity]]
            |apply Habsent; unfold prepare.tokens; set_solver]).
    reflexivity. }
  split; [exact Htext|].
  destruct (generate_model_config_writes model_training_folder model_repo_folder
              model_folder_ts model_config_template num_classes bucket_url
              training_batch_size training_epoch_count model_config_template w
              Htext Htrain Hrepo) as (w' & Hrun & Hfs & _).
  exists w'. split; [exact Hrun|].
  fold (config_file model_training_folder). fold (config_file model_repo_folder).
  split; apply read_config; rewrite Hfs.
  - destruct (decide (config_key model_repo_folder = config_key model_training_folder))
      as [->|Hne].
    + apply lookup_insert_eq.
    + rewrite lookup_insert_ne by exact Hne. apply lookup_insert_eq.
  - apply lookup_insert_eq.
Qed.

Lemma generate_model_config_without_tokens_witness :
  prepare.config_text "ssd_2020" "model { ssd { num_classes: 3 } }" "3" "gs://bucket"
    "8" "10"
  = Return "model { ssd { num_classes: 3 } }"
  ∧ ∃ w',
      prepare.generate_model_config "training" "repo" "ssd_2020"
        "model { ssd { num_classes: 3 } }" "3" "gs://bucket" "8" "10" world_with_folders
      = (Return tt, w')
      ∧ io.read_text "training/pipeline.config" w'
        = (Return "model { ssd { num_classes: 3 } }", w')
      ∧ io.read_text "repo/pipeline.config" w'
        = (Return "model { ssd { num_classes: 3 } }", w').
Proof.
  apply (generate_model_config_without_tokens "training" "repo" "ssd_2020"
           "model { ssd { num_classes: 3 } }" "3" "gs://bucket" "8" "10"
           world_with_folders); try reflexivity.
  intros token Hin. unfold prepare.tokens in Hin.
  repeat (apply elem_of_cons in Hin as [->|Hin]; [vm_compute; reflexivity|]).
  inversion Hin.
Defined.

(** The expansion of a replacement stops at a backslash that is followed
    by a letter which is no escape. *)
Lemma expand_bad_escape (m before after : list ascii) (c : ascii) :
  plain before = true →
  (is_upper c || is_lower c) = true →
  re.simple_escape c = None → Ascii.eqb c "g" = false →
  re.expand re.Plain m (before ++ re.backslash :: c :: after)
  = Raise (ReError "bad escape").
Proof.
  intros Hplain Hletter Hescape Hg.
  induction before as [|b before IH].
  - cbn [app re.expand]. rewrite Ascii.eqb_refl. cbn [negb]. rewrite Hg.
    assert (is_digit c = false) as Hdigit.
    { pose proof Hletter as HL. unfold is_upper, is_lower, code_in in HL.
      assert (65 <= nat_of_ascii c)%nat as Hcode.
      { apply orb_true_iff in HL as [HL|HL];
          apply andb_true_iff in HL as (H1 & _); apply Nat.leb_le in H1; lia. }
      unfold is_digit, code_in.
      rewrite (proj2 (Nat.leb_gt (nat_of_ascii c) 57)) by lia. apply andb_false_r. }
    assert (Ascii.eqb c "0" = false) as Hzero.
    { apply Ascii.eqb_neq. intros ->. discriminate. }
    rewrite Hzero, Hdigit, Hescape, Hletter. reflexivity.
  - cbn [plain forallb] in Hplain. unfold plain in Hplain. cbn [forallb] in Hplain.
    apply andb_true_iff in Hplain as (Hb & Hplain).
    cbn [app re.expand]. rewrite Hb, (IH Hplain). reflexivity.
Qed.

(** X21: a backslash before a letter that is no escape, in the bucket URL:
    [re.sub] rejects the replacement that holds it, at the second of
    the seven substitutions, before any file is opened; the error is the
    one of [re], and the world is as it was. *)
Theorem generate_model_config_bad_escape
    (model_training_folder model_repo_folder model_folder_ts model_config_template
       num_classes training_batch_size training_epoch_count before after : string)
    (c : ascii) (w : world) :
  plain (chars num_classes) = true →
  plain (chars before) = true →
  (is_upper c || is_lower c) = true →
  re.simple_escape c = None → Ascii.eqb c "g" = false →
  let bucket_url := before +:+ String re.backslash (String c after) in
  prepare.generate_model_config model_training_folder model_repo_folder model_folder_ts
    model_config_template num_classes bucket_url training_batch_size
    training_epoch_count w
  = (Raise (ReError "bad escape"), w).
Proof.
  intros Hn Hbefore Hletter Hescape Hg bucket_url.
  unfold prepare.generate_model_config, bind, lift, prepare.config_text.
  rewrite (ConfigText.sub_plain "NUM_CLASSES" num_classes) by exact Hn.
  cbn [result_bind]. unfold re.sub at 1. unfold bucket_url.
  rewrite (ConfigText.chars_app (before +:+ _)), (ConfigText.chars_app before).
  change (chars (String re.backslash (String c ?s)))
    with (re.backslash :: c :: chars s).
  rewrite <- app_assoc. cbn [app].
  rewrite expand_bad_escape by assumption. reflexivity.
Qed.

Lemma generate_model_config_bad_escape_witness :
  prepare.generate_model_config "training" "repo" "ssd_2020" template_example "3"
    ("C:" +:+ String re.backslash "data") "8" "10" world_with_folders
  = (Raise (ReError "bad escape"), world_with_folders).
Proof.
  apply (generate_model_config_bad_escape "training" "repo" "ssd_2020" template_example
           "3" "8" "10" "C:" "ata" "d" world_with_folders); reflexivity.
Defined.

End ConfigEdges.

(** ** [concat_json] *)

Section ConcatJson.
Import Text Names PathText Listing Entries.

Variable json : Type.
Variable json_load : string → result json.
Variable json_items : json → result (list json).
Variable json_dump : list json → string.








End ConcatJson.


(** ** The base model sync: a download that succeeds *)

Section SyncModelUnpacks.
Import Text Names PathText Listing Entries.

Lemma snoc_not_nil {A} (k : list A) (x : A) : k ++ [x] ≠ [].
Proof. now destruct k. Qed.









End SyncModelUnpacks.

(** ** The copies of the base model *)

Section CopyBaseModel.
Import Text Names PathText Listing Entries.




End CopyBaseModel.

(** ** Directories that are removed and created again *)

Module Recreate.
Import Text Names PathText Listing Entries.

Lemma lookup_emptied (k k' : list string) (m : gmap (list string) node) :
  emptied k m !! k'
  = if decide (k' = k) then Some Dir
    else if decide (k `prefix_of` k') then None else m !! k'.
Proof.
  unfold emptied. destruct (decide (k' = k)) as [->|Hne].
  - apply lookup_insert_eq.
  - rewrite lookup_insert_ne by (now apply not_eq_sym).
    destruct (decide (k `prefix_of` k')) as [Hp|Hp].
    + apply map_lookup_filter_None. right. intros x _ Hnot. now apply Hnot.
    + destruct (m !! k') as [x|] eqn:Hk.
      * apply map_lookup_filter_Some. split; [exact Hk|exact Hp].
      * apply map_lookup_filter_None. now left.
Qed.

Lemma prefixes_snoc (k : list string) (x : string) :
  os.prefixes (k ++ [x]) = os.prefixes k ++ [k ++ [x]].
Proof.
  unfold os.prefixes. rewrite length_app. simpl length.
  rewrite Nat.add_1_r, seq_S, fmap_app. cbn [fmap list_fmap]. f_equal.
  - apply list_fmap_ext. intros i n Hn. apply list_elem_of_lookup_2, elem_of_seq in Hn.
    rewrite take_app_le by lia. reflexivity.
  - f_equal. rewrite firstn_all2; [reflexivity|]. rewrite length_app. simpl. lia.
Qed.

Lemma prefixes_removelast (k : list string) :
  k ≠ [] → os.prefixes k = os.prefixes (removelast k) ++ [k].
Proof.
  intros Hk. destruct (exists_last Hk) as (k' & x & ->).
  rewrite removelast_last. apply prefixes_snoc.
Qed.

Lemma ancestor_shorter (k d : list string) :
  d ∈ os.prefixes (removelast k) → (length d < length k)%nat.
Proof.
  unfold os.prefixes. intros Hd. apply list_elem_of_fmap in Hd as (n & -> & Hn).
  apply elem_of_seq in Hn. rewrite removelast_firstn_len, length_take in Hn.
  rewrite length_take, removelast_firstn_len, length_take. lia.
Qed.

Lemma ancestor_not_below (k d : list string) :
  d ∈ os.prefixes (removelast k) → d ≠ k ∧ ¬ k `prefix_of` d.
Proof.
  intros Hd. apply ancestor_shorter in Hd. split.
  - intros ->. lia.
  - intros Hp. apply prefix_length in Hp. lia.
Qed.

Lemma within_directories_spec (w : world) (p : string) :
  within_directories w p = true ↔
  ∀ d, d ∈ os.prefixes (removelast (os.split_path p)) → fs w !! d = Some Dir.
Proof.
  unfold within_directories. rewrite forallb_forall. split.
  - intros H d Hd. apply list_elem_of_In, H in Hd.
    destruct (fs w !! d) as [[|c]|]; congruence.
  - intros H d Hd. apply list_elem_of_In, H in Hd. now rewrite Hd.
Qed.

(** The ancestors of a path are kept when the file system changes
    elsewhere. *)
Lemma within_directories_kept (w w' : world) (p : string) :
  (∀ d, (length d < length (os.split_path p))%nat → fs w !! d = Some Dir →
        fs w' !! d = Some Dir) →
  within_directories w p = true → within_directories w' p = true.
Proof.
  intros Hkept H. apply within_directories_spec. intros d Hd.
  apply Hkept; [now apply ancestor_shorter|].
  now apply (proj1 (within_directories_spec w p) H).
Qed.

Lemma foldl_insert_dirs_id (ds : list (list string)) (m : gmap (list string) node) :
  (∀ d, d ∈ ds → m !! d = Some Dir) → foldl (λ m d, <[d := Dir]> m) m ds = m.
Proof.
  induction ds as [|d ds IH]; intros H; simpl; [reflexivity|].
  rewrite insert_id by (apply H; now left). apply IH. intros; apply H; now right.
Qed.

(** [makedirs] for a path whose ancestors exist: the leaf is created. *)
Lemma makedirs_leaf (p : string) (w : world) :
  within_directories w p = true →
  os.node_at w p = None → os.split_path p ≠ [] →
  os.makedirs p w = (Return tt, set_fs (<[os.split_path p := Dir]> (fs w)) w).
Proof.
  intros Hwithin Hnone Hk. unfold os.makedirs.
  pose proof (proj1 (within_directories_spec w p) Hwithin) as Hdirs.
  assert (existsb (λ d, match fs w !! d with Some (File _) => true | _ => false end)
            (os.prefixes (removelast (os.split_path p))) = false) as ->.
  { apply Bool.not_true_iff_false. intros H. apply existsb_exists in H as (d & Hd & Hfile).
    apply list_elem_of_In, Hdirs in Hd. now rewrite Hd in Hfile. }
  rewrite Hnone, split_path_not_empty by exact Hk.
  rewrite prefixes_removelast by exact Hk. rewrite foldl_app.
  rewrite (foldl_insert_dirs_id (os.prefixes (removelast (os.split_path p))))
    by exact Hdirs.
  reflexivity.
Qed.

Lemma rmtree_dir (p : string) (w : world) :
  os.node_at w p = Some Dir → os.split_path p ≠ [] →
  shutil.rmtree p w
  = (Return tt,
     set_fs (filter (λ e : list string * node, ¬ os.split_path p `prefix_of` e.1) (fs w))
       w).
Proof.
  intros Hdir Hk. unfold shutil.rmtree. rewrite Hdir.
  now rewrite bool_decide_eq_false_2.
Qed.

(** Removing a directory with its content and creating it again. *)
Lemma rmtree_makedirs (p : string) (w : world) :
  within_directories w p = true →
  os.node_at w p = Some Dir → os.split_path p ≠ [] →
  ∃ w0,
    shutil.rmtree p w = (Return tt, w0)
    ∧ os.makedirs p w0 = (Return tt, set_fs (emptied (os.split_path p) (fs w)) w).
Proof.
  intros Hwithin Hdir Hk. eexists. split; [now apply rmtree_dir|].
  rewrite makedirs_leaf; [reflexivity| | |exact Hk].
  - apply (within_directories_kept w); [|exact Hwithin].
    intros d Hlen Hd. cbn [fs set_fs]. apply map_lookup_filter_Some. split; [exact Hd|].
    cbn [fst]. intros Hp. apply prefix_length in Hp. lia.
  - rewrite (node_at_key _ p _ eq_refl Hk). cbn [fs set_fs].
    apply map_lookup_filter_None. right. intros x _ Hnot. now apply Hnot.
Qed.

Lemma node_at_emptied (w w' : world) (p : string) :
  fs w' = emptied (os.split_path p) (fs w) → os.split_path p ≠ [] →
  os.node_at w' p = Some Dir.
Proof.
  intros Hfs Hk. rewrite (node_at_key _ p _ eq_refl Hk), Hfs, lookup_emptied.
  now rewrite decide_True.
Qed.

End Recreate.

(** ** The trainval file *)

Section Trainval.
Import Text Names PathText Listing Entries Recreate.

(** X25: the list of the annotation files when there is no annotation
    directory to walk: the directory, given by a path without [.] and
    [..] components, does not exist, or it lies inside the output
    directory, which is removed with all it holds before the
    annotations are listed.  [os.walk] gives nothing then and raises
    nothing: the call returns normally, the output directory is empty but
    for the trainval file, and that file is empty. *)
Theorem generate_trainval_file_without_annotations
    (annotation_dir output_dir name : string) (w : world) :
  within_directories w output_dir = true →
  os.node_at w output_dir = Some Dir →
  os.split_path output_dir ≠ [] →
  entry_name name = true → dotless name = true →
  dotless annotation_dir = true →
  os.node_at w annotation_dir ≠ Some Dir
  ∨ (os.split_path output_dir `prefix_of` os.split_path annotation_dir
     ∧ os.split_path annotation_dir ≠ os.split_path output_dir) →
  let output_file := os_path.join output_dir name in
  let out :=
    export_labeled_dataset.generate_trainval_file annotation_dir output_dir output_file w in
  out.1 = Return tt
  ∧ fs out.2
    = <[os.split_path output_file := File (Bytes "")]>
        (emptied (os.split_path output_dir) (fs w))
  ∧ io.read_text output_file out.2 = (Return "", out.2)
  ∧ os.node_at out.2 annotation_dir ≠ Some Dir.
Proof.
  intros Hwithin Hdir Hk Hname _ _ Hann output_file out.
  set (k := os.split_path output_dir) in *.
  assert (os.split_path output_file = k ++ [name]) as Hfile
    by (now apply split_path_join).
  destruct (rmtree_makedirs output_dir w Hwithin Hdir Hk) as (w0 & Hrm & Hmk).
  fold k in Hmk.
  set (w1 := set_fs (emptied k (fs w)) w) in *.
  set (w2 := set_fs (<[k ++ [name] := File (Bytes "")]> (fs w1)) w1).
  assert (os.node_at w1 output_dir = Some Dir) as Hdir1
    by (now apply (node_at_emptied w)).
  assert (io.open_w output_file w1 = (Return tt, w2)) as Hopen.
  { unfold io.open_w, output_file. rewrite store_join; [reflexivity|exact Hname|exact Hdir1|].
    fold k. cbn [fs w1 set_fs]. rewrite lookup_emptied.
    rewrite decide_False by apply not_eq_sym, entry_key_not_folder.
    rewrite decide_True by (now apply prefix_app_r). discriminate. }
  assert (os.node_at w2 annotation_dir ≠ Some Dir) as Hann2.
  { unfold os.node_at. destruct (String.eqb annotation_dir "") eqn:Hempty; [discriminate|].
    destruct (os.split_path annotation_dir) as [|a l] eqn:Hka.
    { exfalso. destruct Hann as [Hann|(Hp & Hne)].
      - apply Hann. unfold os.node_at. now rewrite Hempty, Hka.
      - apply prefix_nil_inv in Hp. congruence. }
    cbn [fs w2 set_fs]. rewrite <- Hka in *.
    destruct (decide (os.split_path annotation_dir = k ++ [name])) as [->|Hother].
    { rewrite lookup_insert_eq. discriminate. }
    rewrite lookup_insert_ne by (now apply not_eq_sym).
    cbn [fs w1 set_fs]. rewrite lookup_emptied.
    destruct (decide (os.split_path annotation_dir = k)) as [Heq|Hne].
    { exfalso. destruct Hann as [Hann|(_ & Hne)]; [|contradiction].
      apply Hann. unfold os.node_at in *. rewrite Hempty. rewrite Heq.
      destruct (String.eqb output_dir ""); [discriminate|]. fold k in Hdir.
      rewrite Hka in Heq. rewrite <- Heq. rewrite <- Heq in Hdir. exact Hdir. }
    destruct (decide (k `prefix_of` os.split_path annotation_dir)) as [Hp|Hp];
      [discriminate|].
    destruct Hann as [Hann|(Hp' & _)]; [|contradiction].
    intros Hlook. apply Hann. unfold os.node_at. rewrite Hempty, Hka.
    rewrite Hka in Hlook. exact Hlook. }
  assert (out = (Return tt, w2)) as Hout.
  { unfold out, export_labeled_dataset.generate_trainval_file.
    unfold bind at 1, os.path_exists at 1.
    rewrite Hdir, bool_decide_eq_true_2 by eauto.
    unfold bind at 1. rewrite Hrm.
    unfold bind at 1. rewrite Hmk.
    unfold bind at 1. rewrite Hopen.
    unfold bind at 1, os.walk at 1. cbn [os.walk_from].
    destruct (os.node_at w2 annotation_dir) as [[|c]|]; [congruence|reflexivity..]. }
  rewrite Hout. cbn [fst snd]. split; [reflexivity|]. split.
  { rewrite Hfile. reflexivity. }
  split; [|exact Hann2].
  unfold io.read_text, bind, io.load.
  rewrite (node_at_key w2 output_file _ Hfile) by apply snoc_not_nil.
  cbn [fs w2 set_fs]. now rewrite lookup_insert_eq.
Qed.

Lemma generate_trainval_file_without_annotations_witness :
  let w := mkWorld
             (list_to_map
                [ (["data"], Dir); (["data"; "project"], Dir);
                  (["data"; "project"; "annotations"], Dir);
                  (["data"; "project"; "annotations"; "frame_1.xml"],
                   File (Bytes "<annotation/>")) ])
             offline [] [] in
  let out :=
    export_labeled_dataset.generate_trainval_file "data/project/annotations"
      "data/project" "data/project/trainval.txt" w in
  out.1 = Return tt
  ∧ io.read_text "data/project/trainval.txt" out.2 = (Return "", out.2)
  ∧ os.node_at out.2 "data/project/annotations" ≠ Some Dir.
Proof.
  intros w out.
  destruct (generate_trainval_file_without_annotations "data/project/annotations"
              "data/project" "trainval.txt" w) as (H1 & _ & H3 & H4); try reflexivity.
  - discriminate.
  - right. split; [|discriminate]. exists ["annotations"]. reflexivity.
  - split; [exact H1|]. split; [exact H3|exact H4].
Defined.

End Trainval.

(** ** Fetching the labels of a project *)

Section FetchLabels.
Import Text Names PathText Listing Entries Recreate.
Import export_labeled_dataset.

Variable connect : string → string → GraphQLClient.
Variable export_reply : GraphQLClient → string → result export_job.
Variable urlopen : string → result string.
Variable json : Type.
Variable json_loads : string → result json.
Variable json_str : json → string.
Variable json_dump : json → string.

Lemma sibling_not_below (k : list string) (a b n : string) :
  a ≠ b → ¬ (k ++ [a; n]) `prefix_of` (k ++ [b; n]).
Proof.
  intros Hab (r & Hr). rewrite <- app_assoc in Hr.
  apply app_inv_head in Hr. injection Hr as ->. contradiction.
Qed.

(** X26: the labels are fetched again for a project whose input and output
    folders exist: the project is found, the export is announced, its
    payload is downloaded and loaded.  Both folders are removed with all
    that they hold and created again; the input folder then holds the
    dump of the labels under the name of the project, and nothing else;
    the output folder is empty; the rest of the file system is as
    before.  The removal of an earlier JSON file, which the code provides
    for, never happens: the folder has just been created. *)
Theorem fetch_project_labels_replaces_the_export
    (api_url api_key project_name output_folder project_id payload : string)
    (job : export_job) (labels : json) (w : world) :
  let client := connect api_url ("Bearer " +:+ api_key) in
  let folder := os_path.join_all output_folder ["input"; project_name] in
  let output := os_path.join_all output_folder ["output"; project_name] in
  let json_file := folder +:+ "/" +:+ project_name +:+ ".json" in
  __get_specific_project_id client project_name = Return project_id →
  export_reply client project_id = Return job →
  urlopen (downloadUrl job) = Return payload →
  json_loads payload = Return labels →
  entry_name project_name = true →
  within_directories w folder = true → os.node_at w folder = Some Dir →
  within_directories w output = true → os.node_at w output = Some Dir →
  let out :=
    fetch_project_labels connect export_reply urlopen json json_loads json_str json_dump
      api_url api_key project_name output_folder w in
  out.1 = Return tt
  ∧ fs out.2
    = <[os.split_path json_file := File (Bytes (json_dump labels))]>
        (emptied (os.split_path output) (emptied (os.split_path folder) (fs w)))
  ∧ io.read_text json_file out.2 = (Return (json_dump labels), out.2)
  ∧ (∀ k, (os.split_path folder `prefix_of` k ∨ os.split_path output `prefix_of` k) →
          k ≠ os.split_path folder → k ≠ os.split_path output →
          k ≠ os.split_path json_file →
          fs out.2 !! k = None)
  ∧ logged out.2
    = logged w ++ [(STDOUT, "Fetching payload ....."); (STDOUT, json_str labels)].
Proof.
  intros client folder output json_file Hid Hjob Hurl Hloads Hname
    Hwithin_in Hdir_in Hwithin_out Hdir_out out.
  set (root := os.split_path output_folder).
  assert (os.split_path folder = root ++ ["input"; project_name]) as Hki.
  { unfold folder, os_path.join_all. cbn [foldl].
    rewrite !split_path_join by (first [exact Hname|reflexivity]).
    now rewrite <- app_assoc. }
  assert (os.split_path output = root ++ ["output"; project_name]) as Hko.
  { unfold output, os_path.join_all. cbn [foldl].
    rewrite !split_path_join by (first [exact Hname|reflexivity]).
    now rewrite <- app_assoc. }
  set (ki := os.split_path folder) in *. set (ko := os.split_path output) in *.
  assert (ki ≠ []) as Hki_ne by (rewrite Hki; now destruct root).
  assert (ko ≠ []) as Hko_ne by (rewrite Hko; now destruct root).
  assert (ki ≠ ko) as Hdiff.
  { rewrite Hki, Hko. intros H. apply app_inv_head in H. discriminate. }
  assert (¬ ki `prefix_of` ko) as Hin_out
    by (rewrite Hki, Hko; now apply sibling_not_below).
  assert (¬ ko `prefix_of` ki) as Hout_in
    by (rewrite Hki, Hko; now apply sibling_not_below).
  assert (entry_name (project_name +:+ ".json") = true) as Hjson_name.
  { apply entry_name_inv in Hname as (Hne & Hfree). unfold entry_name.
    rewrite lacks_app, Hfree. destruct project_name; [contradiction|reflexivity]. }
  assert (os.split_path json_file = ki ++ [project_name +:+ ".json"]) as Hkj
    by (now apply split_path_entry).
  set (kj := os.split_path json_file) in *.
  (* the input folder *)
  set (print2 := mkWorld (fs w) (http w) (requested w)
                   ((logged w ++ [(STDOUT, "Fetching payload .....")])
                      ++ [(STDOUT, json_str labels)])).
  destruct (rmtree_makedirs folder print2 Hwithin_in Hdir_in Hki_ne)
    as (wb & Hrmp & Hmkp). fold ki in Hmkp. cbn [fs print2] in Hmkp.
  set (w1 := set_fs (emptied ki (fs w)) print2) in *.
  (* the output folder *)
  assert (within_directories w1 output = true) as Hwithin1.
  { apply (within_directories_kept w); [|exact Hwithin_out].
    intros d Hlen Hd. cbn [fs w1 set_fs]. rewrite lookup_emptied.
    fold ko in Hlen.
    assert (length ki = length ko) as Hsame
      by (rewrite Hki, Hko, !length_app; reflexivity).
    rewrite decide_False by (intros ->; lia).
    rewrite decide_False by (intros Hp; apply prefix_length in Hp; lia). exact Hd. }
  assert (os.node_at w1 output = Some Dir) as Hdir1.
  { rewrite (node_at_key w1 output ko eq_refl Hko_ne). cbn [fs w1 set_fs].
    rewrite lookup_emptied, decide_False, decide_False by (auto using not_eq_sym).
    now rewrite (node_at_key w output ko eq_refl Hko_ne) in Hdir_out. }
  destruct (rmtree_makedirs output w1 Hwithin1 Hdir1 Hko_ne) as (wc & Hrm2 & Hmk2).
  fold ko in Hmk2. cbn [fs w1 set_fs] in Hmk2.
  set (w2 := set_fs (emptied ko (emptied ki (fs w))) w1) in *.
  (* the JSON file *)
  assert (fs w2 !! ki = Some Dir) as Hfolder2.
  { cbn [fs w2 set_fs]. rewrite lookup_emptied, decide_False, decide_False by assumption.
    rewrite lookup_emptied. now rewrite decide_True. }
  assert (fs w2 !! kj = None) as Hfresh.
  { cbn [fs w2 set_fs]. rewrite lookup_emptied.
    rewrite decide_False
      by (rewrite Hkj, Hki, Hko; intros H; apply (f_equal length) in H;
          rewrite !length_app in H; simpl in H; lia).
    destruct (decide (ko `prefix_of` kj)); [reflexivity|].
    rewrite lookup_emptied, decide_False
      by (rewrite Hkj; apply not_eq_sym, entry_key_not_folder).
    rewrite decide_True; [reflexivity|]. rewrite Hkj. now apply prefix_app_r. }
  assert (os.node_at w2 folder = Some Dir) as Hdir2
    by (now rewrite (node_at_key w2 folder ki eq_refl Hki_ne)).
  assert (os.node_at w2 json_file = None) as Hnone2.
  { rewrite (node_at_key w2 json_file kj eq_refl); [exact Hfresh|].
    rewrite Hkj. apply snoc_not_nil. }
  set (w3 := set_fs (<[kj := File (Bytes (json_dump labels))]> (fs w2)) w2).
  assert (out = (Return tt, w3)) as Hout.
  { unfold out, fetch_project_labels, __get_client, __get_export_url.
    fold client. unfold bind at 1, lift at 1. rewrite Hid.
    unfold bind at 1, lift at 1. rewrite Hjob.
    unfold bind at 1, print at 1, log at 1.
    unfold bind at 1, lift at 1. rewrite Hurl.
    unfold bind at 1, lift at 1. rewrite Hloads.
    unfold bind at 1, print at 1, log at 1. cbn [fs http requested logged].
    fold print2. fold folder. fold output.
    unfold bind at 1, os.path_exists at 1.
    rewrite (node_at_fs w print2 folder eq_refl), Hdir_in, bool_decide_eq_true_2 by eauto.
    unfold bind at 1. rewrite Hrmp.
    unfold bind at 1. rewrite Hmkp.
    unfold bind at 1, os.path_exists at 1.
    rewrite Hdir1, bool_decide_eq_true_2 by eauto.
    unfold bind at 1. rewrite Hrm2.
    unfold bind at 1. rewrite Hmk2.
    fold json_file.
    unfold bind at 1, os.path_exists at 1.
    rewrite Hnone2, bool_decide_eq_false_2 by (intros (x & Hx); discriminate).
    unfold bind at 1, ret at 1.
    unfold bind at 1, io.open_w.
    rewrite (store_at w2 json_file folder (project_name +:+ ".json"));
      [|exact Hkj|exact Hdir2|fold ki; rewrite <- Hkj, Hfresh; discriminate].
    fold ki. rewrite <- Hkj.
    unfold io.write, bind, io.load.
    rewrite (node_at_key _ json_file kj eq_refl) by (rewrite Hkj; apply snoc_not_nil).
    cbn [fs set_fs]. rewrite lookup_insert_eq.
    rewrite (store_at _ json_file folder (project_name +:+ ".json")).
    - fold ki. rewrite <- Hkj. cbn [fs set_fs]. rewrite insert_insert_eq. reflexivity.
    - exact Hkj.
    - rewrite (node_at_after_insert w2 _ folder kj (File (Bytes ""))); [exact Hdir2|
        reflexivity|].
      fold ki. rewrite Hkj. apply entry_key_not_folder.
    - fold ki. rewrite <- Hkj. cbn [fs set_fs]. rewrite lookup_insert_eq. discriminate. }
  rewrite Hout. cbn [fst snd]. split; [reflexivity|]. split; [reflexivity|].
  split; [|split; [|cbn [logged w3 w2 w1 print2 set_fs]; now rewrite <- app_assoc]].
  - unfold io.read_text, bind, io.load.
    rewrite (node_at_key w3 json_file kj eq_refl) by (rewrite Hkj; apply snoc_not_nil).
    cbn [fs w3 set_fs]. now rewrite lookup_insert_eq.
  - intros k Hbelow Hk1 Hk2 Hk3. cbn [fs w3 w2 set_fs].
    rewrite lookup_insert_ne by (now apply not_eq_sym).
    rewrite lookup_emptied, decide_False by exact Hk2.
    destruct (decide (ko `prefix_of` k)) as [|Hnot]; [reflexivity|].
    rewrite lookup_emptied, decide_False by exact Hk1.
    destruct Hbelow as [Hp|Hp]; [|contradiction]. now rewrite decide_True.
Qed.

(** X27: nothing is deleted before the new labels are there: when the
    project is not found, or the export is refused, or the download
    fails, or the payload is no JSON, the error reaches the caller and
    the file system is as it was. *)
Theorem fetch_project_labels_fails_before_it_deletes
    (api_url api_key project_name output_folder : string) (e : exn) (w : world) :
  let client := connect api_url ("Bearer " +:+ api_key) in
  __get_specific_project_id client project_name = Raise e
  ∨ (∃ project_id,
       __get_specific_project_id client project_name = Return project_id
       ∧ (export_reply client project_id = Raise e
          ∨ ∃ job,
              export_reply client project_id = Return job
              ∧ (urlopen (downloadUrl job) = Raise e
                 ∨ ∃ payload,
                     urlopen (downloadUrl job) = Return payload
                     ∧ json_loads payload = Raise e))) →
  let out :=
    fetch_project_labels connect export_reply urlopen json json_loads json_str json_dump
      api_url api_key project_name output_folder w in
  out.1 = Raise e ∧ fs out.2 = fs w.
Proof.
  intros client Hfail out.
  assert (∃ w', out = (Raise e, w') ∧ fs w' = fs w) as (w' & -> & Hfs).
  { unfold out, fetch_project_labels, __get_client, __get_export_url. fold client.
    unfold bind at 1, lift at 1.
    destruct Hfail as [->|(project_id & -> & Hfail)]; [eauto|].
    unfold bind at 1, lift at 1.
    destruct Hfail as [->|(job & -> & Hfail)]; [eauto|].
    unfold bind at 1, print at 1, log at 1.
    unfold bind at 1, lift at 1.
    destruct Hfail as [->|(payload & -> & Hfail)]; [eauto|].
    unfold bind at 1, lift at 1. rewrite Hfail. eauto. }
  split; [reflexivity|exact Hfs].
Qed.

End FetchLabels.

Lemma fetch_project_labels_fails_before_it_deletes_witness :
  let connect (_ _ : string) :=
    export_labeled_dataset.mkClient
      (Return [export_labeled_dataset.mkProject "p1" "camA"]) in
  let export_reply (_ : export_labeled_dataset.GraphQLClient) (_ : string) :=
    Return (export_labeled_dataset.mkExportJob "https://export/p1" false) in
  let out :=
    export_labeled_dataset.fetch_project_labels connect export_reply
      (λ _, Return "[1]") string Return id id "https://api" "key" "camB" "data"
      world_with_catalog in
  out.1 = Raise (ValueError "Project name not found")
  ∧ fs out.2 = fs world_with_catalog.
Proof.
  intros connect export_reply out.
  apply (fetch_project_labels_fails_before_it_deletes connect export_reply
           (λ _, Return "[1]") string Return id id "https://api" "key" "camB" "data"
           (ValueError "Project name not found") world_with_catalog).
  left. reflexivity.
Defined.

Lemma fetch_project_labels_replaces_the_export_witness :
  let connect (_ _ : string) :=
    export_labeled_dataset.mkClient
      (Return [export_labeled_dataset.mkProject "p1" "camA"]) in
  let export_reply (_ : export_labeled_dataset.GraphQLClient) (_ : string) :=
    Return (export_labeled_dataset.mkExportJob "https://export/p1" false) in
  let w := mkWorld
             (list_to_map
                [ (["data"], Dir); (["data"; "input"], Dir); (["data"; "output"], Dir);
                  (["data"; "input"; "camA"], Dir); (["data"; "output"; "camA"], Dir);
                  (["data"; "input"; "camA"; "old.json"], File (Bytes "[]")) ])
             offline [] [] in
  let out :=
    export_labeled_dataset.fetch_project_labels connect export_reply
      (λ _, Return "[1]") string Return id id "https://api" "key" "camA" "data" w in
  out.1 = Return tt
  ∧ io.read_text "data/input/camA/camA.json" out.2 = (Return "[1]", out.2)
  ∧ fs out.2 !! ["data"; "input"; "camA"; "old.json"] = None.
Proof.
  intros connect export_reply w out.
  destruct (fetch_project_labels_replaces_the_export connect export_reply
              (λ _, Return "[1]") string Return id id "https://api" "key" "camA" "data"
              "p1" "[1]" (export_labeled_dataset.mkExportJob "https://export/p1" false)
              "[1]" w) as (H1 & _ & H3 & H4 & _); try reflexivity.
  split; [exact H1|]. split; [exact H3|].
  apply H4.
  - left. exists ["old.json"]. reflexivity.
  - discriminate.
  - discriminate.
  - discriminate.
Defined.

(** ** The merge of the TFRecords: the label map of the destination *)

Section MergeLabelMap.
Import Text Names PathText Listing Entries.




Lemma store_success (p : string) (c : content) (w w' : world) :
  io.store p c w = (Return tt, w') →
  os.node_at w p ≠ Some Dir ∧ String.eqb p "" = false.
Proof.
  unfold io.store.
  destruct (os.node_at w p) as [[|c']|]; [discriminate|..];
    destruct (os.parent_error w p (os.split_path p)); try discriminate;
    destruct (String.eqb p ""); try discriminate; intros _; split;
    congruence.
Qed.









End MergeLabelMap.
